(** * blockchainav: the asset registry chaincode

    A shallow embedding of the asset contract as the repository holds
    it, in three snapshots:

    - [Main]: the enum-typed contract ([package main]) -- records are
      keyed by their content identifier, the type tag goes through
      [ParseAssetType], enumeration is the rich query [QueryAssets];
    - [Chaincode]: the earlier contract ([package chaincode], with the
      seeding endpoints) -- records are keyed by [id], the type tag is a
      free string, enumeration is the rich query [QueryAssets];
    - [ChaincodeRange]: the same package where it enumerates by the
      range scan [ReadAssets].

    The ledger stub of the host (Hyperledger Fabric's
    [ChaincodeStubInterface]) is an interface in the Go code and a type
    class here: the contract is embedded over any ledger, with explicit
    state passing for the one call that writes.  Of [encoding/json] and
    [unicode/utf8] the file embeds what [Marshal] and [Unmarshal] do for
    the one struct the contract serialises (Go 1.22, which the
    repository's range-over-int loops require). *)

From Stdlib Require Import ZArith Ascii String List Lia Bool.
From stdpp Require Import base gmap strings list sorting.

Local Open Scope Z_scope.
#[local] Set Warnings "-register-all".


(** ** Bytes and Go strings

    A Go [string] is an immutable sequence of bytes and so is a [[]byte];
    both are Rocq [string]s here (sequences of 8-bit [ascii]).  A byte
    slice that may be [nil] is an [option]. *)

Definition bytes := string.

Definition byte_val (c : ascii) : Z := Z.of_N (N_of_ascii c).

(** Go's conversion [byte(x)] keeps the low eight bits. *)
Definition byte_of (z : Z) : ascii := ascii_of_N (Z.to_N (z mod 256)).

Definition byte_at (p : string) (i : nat) : Z :=
  match String.get i p with
  | Some c => byte_val c
  | None => 0
  end.

Fixpoint str_take (n : nat) (s : string) : string :=
  match n, s with
  | S n', String c s' => String c (str_take n' s')
  | _, _ => EmptyString
  end.

Fixpoint str_drop (n : nat) (s : string) : string :=
  match n, s with
  | S n', String _ s' => str_drop n' s'
  | _, _ => s
  end.

(** The double quote character (code 34). *)
Definition dquote : ascii := "034"%char.

(** ** unicode/utf8 *)

Module utf8.

Definition RuneError : Z := 0xFFFD.
Definition RuneSelf : Z := 0x80.
Definition MaxRune : Z := 0x10FFFF.
Definition UTFMax : nat := 4.

Definition surrogateMin : Z := 0xD800.
Definition surrogateMax : Z := 0xDFFF.

Definition t1 : Z := 0x00.
Definition tx : Z := 0x80.
Definition t2 : Z := 0xC0.
Definition t3 : Z := 0xE0.
Definition t4 : Z := 0xF0.

Definition maskx : Z := 0x3F.
Definition mask2 : Z := 0x1F.
Definition mask3 : Z := 0x0F.
Definition mask4 : Z := 0x07.

Definition rune1Max : Z := 0x7F.
Definition rune2Max : Z := 0x7FF.
Definition rune3Max : Z := 0xFFFF.

Definition locb : Z := 0x80.
Definition hicb : Z := 0xBF.

Definition xx : Z := 0xF1.
Definition as_ : Z := 0xF0.
Definition s1 : Z := 0x02.
Definition s2 : Z := 0x13.
Definition s3 : Z := 0x03.
Definition s4 : Z := 0x23.
Definition s5 : Z := 0x34.
Definition s6 : Z := 0x04.
Definition s7 : Z := 0x44.

(** The 256-entry table [first], by the ranges of its rows. *)
Definition first (b : Z) : Z :=
  if b <? 0x80 then as_
  else if b <? 0xC2 then xx
  else if b <? 0xE0 then s1
  else if b =? 0xE0 then s2
  else if b <? 0xED then s3
  else if b =? 0xED then s4
  else if b <? 0xF0 then s3
  else if b =? 0xF0 then s5
  else if b <? 0xF4 then s6
  else if b =? 0xF4 then s7
  else xx.

Definition acceptRanges (i : Z) : Z * Z :=
  match i with
  | 0 => (locb, hicb)
  | 1 => (0xA0, hicb)
  | 2 => (locb, 0x9F)
  | 3 => (0x90, hicb)
  | 4 => (locb, 0x8F)
  | _ => (0, 0)
  end.

(** [DecodeRune] / [DecodeRuneInString]: the rune at the head of [p] and
    its width in bytes; [(RuneError, 1)] on an ill-formed head. *)
Definition DecodeRune (p : string) : Z * nat :=
  let n := String.length p in
  if (n <? 1)%nat then (RuneError, 0%nat)
  else
    let p0 := byte_at p 0 in
    let x := first p0 in
    if as_ <=? x then
      (* mask is all ones when the low bit of x is set (x = xx) *)
      let mask := if Z.odd x then -1 else 0 in
      (Z.lor (Z.land p0 (Z.lnot mask)) (Z.land RuneError mask), 1%nat)
    else
      let sz := Z.to_nat (Z.land x 7) in
      let accept := acceptRanges (Z.shiftr x 4) in
      if (n <? sz)%nat then (RuneError, 1%nat)
      else
        let b1 := byte_at p 1 in
        if (b1 <? fst accept) || (snd accept <? b1) then (RuneError, 1%nat)
        else if (sz <=? 2)%nat then
          (Z.lor (Z.shiftl (Z.land p0 mask2) 6) (Z.land b1 maskx), 2%nat)
        else
          let b2 := byte_at p 2 in
          if (b2 <? locb) || (hicb <? b2) then (RuneError, 1%nat)
          else if (sz <=? 3)%nat then
            (Z.lor (Z.lor (Z.shiftl (Z.land p0 mask3) 12)
                          (Z.shiftl (Z.land b1 maskx) 6))
                   (Z.land b2 maskx), 3%nat)
          else
            let b3 := byte_at p 3 in
            if (b3 <? locb) || (hicb <? b3) then (RuneError, 1%nat)
            else
              (Z.lor (Z.lor (Z.lor (Z.shiftl (Z.land p0 mask4) 18)
                                   (Z.shiftl (Z.land b1 maskx) 12))
                            (Z.shiftl (Z.land b2 maskx) 6))
                     (Z.land b3 maskx), 4%nat).

(** [EncodeRune] / [AppendRune]: the UTF-8 encoding of [r]; a rune out of
    range or a surrogate half is written as [RuneError]. *)
Definition EncodeRune (r : Z) : string :=
  let i := r mod 2 ^ 32 in
  if i <=? rune1Max then String (byte_of r) EmptyString
  else if i <=? rune2Max then
    String (byte_of (Z.lor t2 (byte_val (byte_of (Z.shiftr r 6)))))
      (String (byte_of (Z.lor tx (Z.land (byte_val (byte_of r)) maskx)))
         EmptyString)
  else
    let bad := (MaxRune <? i) || ((surrogateMin <=? i) && (i <=? surrogateMax)) in
    let r := if bad then RuneError else r in
    if bad || (i <=? rune3Max) then
      String (byte_of (Z.lor t3 (byte_val (byte_of (Z.shiftr r 12)))))
        (String (byte_of (Z.lor tx (Z.land (byte_val (byte_of (Z.shiftr r 6))) maskx)))
           (String (byte_of (Z.lor tx (Z.land (byte_val (byte_of r)) maskx)))
              EmptyString))
    else
      String (byte_of (Z.lor t4 (byte_val (byte_of (Z.shiftr r 18)))))
        (String (byte_of (Z.lor tx (Z.land (byte_val (byte_of (Z.shiftr r 12))) maskx)))
           (String (byte_of (Z.lor tx (Z.land (byte_val (byte_of (Z.shiftr r 6))) maskx)))
              (String (byte_of (Z.lor tx (Z.land (byte_val (byte_of r)) maskx)))
                 EmptyString))).

(** [utf8.ValidString]: every rune of [s] is well formed.  The fuel
    bounds the number of runes; [String.length s] always suffices. *)
Fixpoint valid_from (fuel : nat) (s : string) : bool :=
  match fuel with
  | O => match s with EmptyString => true | _ => false end
  | S fuel' =>
      match s with
      | EmptyString => true
      | String _ _ =>
          let '(r, size) := DecodeRune s in
          if (r =? RuneError) && (size =? 1)%nat then false
          else valid_from fuel' (str_drop size s)
      end
  end.

Definition ValidString (s : string) : bool := valid_from (String.length s) s.

End utf8.

(** ** Go errors

    [errors.New] makes a sentinel; [fmt.Errorf] with the verb [%w] wraps
    an error behind a message prefix.  The two error kinds of
    [encoding/json] that decoding into a struct of strings can produce
    are kept apart from one another. *)

Inductive error : Type :=
| errors_New (text : string)
| Errorf_w (prefix : string) (err : error)
| SyntaxError
| UnmarshalTypeError (Value : string) (Field : string)
| InvalidEnumValue (raw : string).

(** A Go result pair [(T, error)] with exactly one side set. *)
Inductive result (A : Type) : Type :=
| Ok (a : A)
| Err (e : error).
Arguments Ok {A} a.
Arguments Err {A} e.

(** ** The asset record

    [type AssetType string]: a string under a new name, so every string
    is a value of the type; the enumeration is what [ParseAssetType]
    lets through. *)

Definition AssetType := string.

Record Asset : Type := mkAsset {
  CID : string;
  Features : string;
  ID : string;
  Type_ : AssetType
}.

(** [var asset Asset]: the zero value. *)
Definition zeroAsset : Asset := mkAsset "" "" "" "".

(** ** encoding/json, for the struct [Asset] *)

Module json.

Definition backslash : ascii := "092"%char.

(** *** encode.go *)

(** [htmlSafeSet]: the ASCII bytes written as they are. *)
Definition htmlSafeSet (b : Z) : bool :=
  (0x20 <=? b) && (b <? 0x80) &&
  negb ((b =? 0x22) || (b =? 0x26) || (b =? 0x3C) || (b =? 0x3E) || (b =? 0x5C)).

Definition hex : string := "0123456789abcdef".

Definition hex_digit (i : Z) : ascii :=
  match String.get (Z.to_nat i) hex with
  | Some c => c
  | None => "0"%char
  end.

(** The escape written for an ASCII byte outside [htmlSafeSet]. *)
Definition escape_byte (c : ascii) : string :=
  let b := byte_val c in
  if (b =? 0x5C) || (b =? 0x22) then String backslash (String c "")
  else if b =? 0x08 then String backslash "b"
  else if b =? 0x0C then String backslash "f"
  else if b =? 0x0A then String backslash "n"
  else if b =? 0x0D then String backslash "r"
  else if b =? 0x09 then String backslash "t"
  else String backslash
         ("u00" +:+ String (hex_digit (Z.shiftr b 4))
                      (String (hex_digit (Z.land b 0xF)) "")).

(** The loop of [appendString] over what is left of [src]; every turn
    consumes at least one byte, so [String.length src] turns suffice. *)
Fixpoint appendString_loop (fuel : nat) (src : string) : string :=
  match fuel with
  | O => ""
  | S fuel' =>
      match src with
      | EmptyString => ""
      | String c rest =>
          let b := byte_val c in
          if b <? utf8.RuneSelf then
            if htmlSafeSet b then String c (appendString_loop fuel' rest)
            else escape_byte c +:+ appendString_loop fuel' rest
          else
            let '(r, size) := utf8.DecodeRune (str_take utf8.UTFMax src) in
            if (r =? utf8.RuneError) && (size =? 1)%nat then
              String backslash "ufffd" +:+ appendString_loop fuel' (str_drop size src)
            else if (r =? 0x2028) || (r =? 0x2029) then
              String backslash "u202" +:+
              String (hex_digit (Z.land r 0xF))
                (appendString_loop fuel' (str_drop size src))
            else
              str_take size src +:+ appendString_loop fuel' (str_drop size src)
      end
  end.

Definition appendString (src : string) : string :=
  String dquote (appendString_loop (String.length src) src +:+ String dquote "").

(** A field name as the struct encoder writes it: quoted, then a colon. *)
Definition field_key (name : string) : string :=
  String dquote (name +:+ String dquote ":").

(** [Marshal] of an [Asset]: the four tagged fields in declaration
    order.  Nothing in a struct of strings can fail to encode. *)
Definition encodeAsset (a : Asset) : bytes :=
  "{" +:+ field_key "cid" +:+ appendString (CID a) +:+
  "," +:+ field_key "features" +:+ appendString (Features a) +:+
  "," +:+ field_key "id" +:+ appendString (ID a) +:+
  "," +:+ field_key "type" +:+ appendString (Type_ a) +:+ "}".

Definition Marshal (a : Asset) : result bytes := Ok (encodeAsset a).

(** *** scanner.go *)

Inductive value : Type :=
| Null
| Bool (b : bool)
| Number
| Str (s : string)
| Array (elems : list value)
| Object (members : list (string * value)).

Definition maxNestingDepth : Z := 10000.

Definition isSpace (c : ascii) : bool :=
  let b := byte_val c in
  (b =? 0x20) || (b =? 0x09) || (b =? 0x0D) || (b =? 0x0A).

Fixpoint skip_space (s : string) : string :=
  match s with
  | String c rest => if isSpace c then skip_space rest else s
  | EmptyString => s
  end.

Definition isDigit (c : ascii) : bool :=
  let b := byte_val c in (0x30 <=? b) && (b <=? 0x39).

Definition isHex (c : ascii) : bool :=
  let b := byte_val c in
  ((0x30 <=? b) && (b <=? 0x39)) || ((0x61 <=? b) && (b <=? 0x66)) ||
  ((0x41 <=? b) && (b <=? 0x46)).

(** The body of a string literal, after its opening quote: the raw
    bytes up to the closing quote, and what follows it.  Escapes are
    checked as the scanner checks them. *)
Fixpoint scan_string (s : string) : option (string * string) :=
  match s with
  | EmptyString => None
  | String c rest =>
      if Ascii.eqb c dquote then Some ("", rest)
      else if Ascii.eqb c backslash then
        match rest with
        | EmptyString => None
        | String e rest1 =>
            let be := byte_val e in
            if (be =? 0x62) || (be =? 0x66) || (be =? 0x6E) || (be =? 0x72) ||
               (be =? 0x74) || (be =? 0x5C) || (be =? 0x2F) || (be =? 0x22) then
              match scan_string rest1 with
              | Some (raw, tail) => Some (String c (String e raw), tail)
              | None => None
              end
            else if be =? 0x75 then
              match rest1 with
              | String h1 (String h2 (String h3 (String h4 rest5))) =>
                  if isHex h1 && isHex h2 && isHex h3 && isHex h4 then
                    match scan_string rest5 with
                    | Some (raw, tail) =>
                        Some (String c (String e (String h1 (String h2
                                (String h3 (String h4 raw))))), tail)
                    | None => None
                    end
                  else None
              | _ => None
              end
            else None
        end
      else if byte_val c <? 0x20 then None
      else
        match scan_string rest with
        | Some (raw, tail) => Some (String c raw, tail)
        | None => None
        end
  end.

Fixpoint skip_digits (s : string) : string :=
  match s with
  | String c rest => if isDigit c then skip_digits rest else s
  | EmptyString => s
  end.

(** The exponent part of a number, if any. *)
Definition scan_exp (s : string) : option string :=
  match s with
  | String c rest =>
      if (byte_val c =? 0x65) || (byte_val c =? 0x45) then
        let rest1 :=
          match rest with
          | String g rest' =>
              if (byte_val g =? 0x2B) || (byte_val g =? 0x2D) then rest' else rest
          | EmptyString => rest
          end in
        match rest1 with
        | String d rest2 => if isDigit d then Some (skip_digits rest2) else None
        | EmptyString => None
        end
      else Some s
  | EmptyString => Some s
  end.

(** The fraction and exponent parts of a number, if any. *)
Definition scan_frac (s : string) : option string :=
  match s with
  | String c rest =>
      if byte_val c =? 0x2E then
        match rest with
        | String d rest1 => if isDigit d then scan_exp (skip_digits rest1) else None
        | EmptyString => None
        end
      else scan_exp s
  | EmptyString => Some s
  end.

(** A number literal; what follows it. *)
Definition scan_number (s : string) : option string :=
  let s1 :=
    match s with
    | String c rest => if byte_val c =? 0x2D then rest else s
    | EmptyString => s
    end in
  match s1 with
  | String c rest =>
      if byte_val c =? 0x30 then scan_frac rest
      else if isDigit c then scan_frac (skip_digits rest)
      else None
  | EmptyString => None
  end.

(** [s] starts with the literal [lit]; what follows it. *)
Fixpoint scan_literal (lit s : string) : option string :=
  match lit with
  | EmptyString => Some s
  | String l lit' =>
      match s with
      | String c rest => if Ascii.eqb c l then scan_literal lit' rest else None
      | EmptyString => None
      end
  end.

(** *** decode.go *)

(** [getu4]: the code unit of a [\uXXXX] escape at the head of [s];
    [-1] when there is none. *)
Definition hex_val (c : ascii) : Z :=
  let b := byte_val c in
  if (0x30 <=? b) && (b <=? 0x39) then b - 0x30
  else if (0x61 <=? b) && (b <=? 0x66) then b - 0x61 + 10
  else if (0x41 <=? b) && (b <=? 0x46) then b - 0x41 + 10
  else -1.

Definition getu4 (s : string) : Z :=
  match s with
  | String c0 (String c1 (String h1 (String h2 (String h3 (String h4 _))))) =>
      if Ascii.eqb c0 backslash && (byte_val c1 =? 0x75) then
        if isHex h1 && isHex h2 && isHex h3 && isHex h4 then
          ((hex_val h1 * 16 + hex_val h2) * 16 + hex_val h3) * 16 + hex_val h4
        else -1
      else -1
  | _ => -1
  end.

(** [utf16.IsSurrogate] and [utf16.DecodeRune]. *)
Definition utf16_IsSurrogate (r : Z) : bool := (0xD800 <=? r) && (r <? 0xE000).

Definition utf16_DecodeRune (r1 r2 : Z) : Z :=
  if (0xD800 <=? r1) && (r1 <? 0xDC00) && (0xDC00 <=? r2) && (r2 <? 0xE000) then
    Z.lor (Z.shiftl (r1 - 0xD800) 10) (r2 - 0xDC00) + 0x10000
  else utf8.RuneError.

Definition prepend (x : string) (o : option string) : option string :=
  match o with
  | Some y => Some (x +:+ y)
  | None => None
  end.

(** The loop of [unquoteBytes] over the body of a literal. *)
Fixpoint unquote_loop (fuel : nat) (s : string) : option string :=
  match fuel with
  | O => match s with EmptyString => Some "" | _ => None end
  | S fuel' =>
      match s with
      | EmptyString => Some ""
      | String c rest =>
          if Ascii.eqb c backslash then
            match rest with
            | EmptyString => None
            | String e rest1 =>
                let be := byte_val e in
                if (be =? 0x22) || (be =? 0x5C) || (be =? 0x2F) || (be =? 0x27) then
                  prepend (String e "") (unquote_loop fuel' rest1)
                else if be =? 0x62 then prepend (String "008" "") (unquote_loop fuel' rest1)
                else if be =? 0x66 then prepend (String "012" "") (unquote_loop fuel' rest1)
                else if be =? 0x6E then prepend (String "010" "") (unquote_loop fuel' rest1)
                else if be =? 0x72 then prepend (String "013" "") (unquote_loop fuel' rest1)
                else if be =? 0x74 then prepend (String "009" "") (unquote_loop fuel' rest1)
                else if be =? 0x75 then
                  let rr := getu4 s in
                  if rr <? 0 then None
                  else
                    let s6 := str_drop 6 s in
                    if utf16_IsSurrogate rr then
                      let dec := utf16_DecodeRune rr (getu4 s6) in
                      if negb (dec =? utf8.RuneError) then
                        prepend (utf8.EncodeRune dec) (unquote_loop fuel' (str_drop 6 s6))
                      else
                        prepend (utf8.EncodeRune utf8.RuneError) (unquote_loop fuel' s6)
                    else prepend (utf8.EncodeRune rr) (unquote_loop fuel' s6)
                else None
            end
          else if Ascii.eqb c dquote || (byte_val c <? 0x20) then None
          else if byte_val c <? utf8.RuneSelf then
            prepend (String c "") (unquote_loop fuel' rest)
          else
            let '(rr, size) := utf8.DecodeRune s in
            prepend (utf8.EncodeRune rr) (unquote_loop fuel' (str_drop size s))
      end
  end.

Definition unquote (raw : string) : option string :=
  unquote_loop (String.length raw) raw.

(** One JSON value at the head of [s] (white space already skipped)
    and what follows it.  [fuel] bounds the nesting of the calls;
    [depth] is the number of open arrays and objects, which the scanner
    bounds by [maxNestingDepth]. *)
Fixpoint parse_value (fuel : nat) (depth : Z) (s : string) {struct fuel}
  : option (value * string) :=
  match fuel with
  | O => None
  | S fuel' =>
      match s with
      | EmptyString => None
      | String c rest =>
          let b := byte_val c in
          if b =? 0x7B then
            if maxNestingDepth <? depth + 1 then None
            else
              match skip_space rest with
              | EmptyString => None
              | String c1 rest1 =>
                  if byte_val c1 =? 0x7D then Some (Object [], rest1)
                  else
                    match parse_members fuel' (depth + 1) (String c1 rest1) with
                    | Some (m, tail) => Some (Object m, tail)
                    | None => None
                    end
              end
          else if b =? 0x5B then
            if maxNestingDepth <? depth + 1 then None
            else
              match skip_space rest with
              | EmptyString => None
              | String c1 rest1 =>
                  if byte_val c1 =? 0x5D then Some (Array [], rest1)
                  else
                    match parse_elements fuel' (depth + 1) (String c1 rest1) with
                    | Some (l, tail) => Some (Array l, tail)
                    | None => None
                    end
              end
          else if b =? 0x22 then
            match scan_string rest with
            | Some (raw, tail) =>
                match unquote raw with
                | Some str => Some (Str str, tail)
                | None => None
                end
            | None => None
            end
          else if b =? 0x74 then
            match scan_literal "rue" rest with
            | Some tail => Some (Bool true, tail)
            | None => None
            end
          else if b =? 0x66 then
            match scan_literal "alse" rest with
            | Some tail => Some (Bool false, tail)
            | None => None
            end
          else if b =? 0x6E then
            match scan_literal "ull" rest with
            | Some tail => Some (Null, tail)
            | None => None
            end
          else if (b =? 0x2D) || isDigit c then
            match scan_number s with
            | Some tail => Some (Number, tail)
            | None => None
            end
          else None
      end
  end
with parse_members (fuel : nat) (depth : Z) (s : string) {struct fuel}
  : option (list (string * value) * string) :=
  match fuel with
  | O => None
  | S fuel' =>
      match s with
      | EmptyString => None
      | String c rest =>
          if byte_val c =? 0x22 then
            match scan_string rest with
            | Some (raw, tail) =>
                match unquote raw with
                | Some key =>
                    match skip_space tail with
                    | EmptyString => None
                    | String c1 rest1 =>
                        if byte_val c1 =? 0x3A then
                          match parse_value fuel' depth (skip_space rest1) with
                          | Some (v, tail1) =>
                              match skip_space tail1 with
                              | EmptyString => None
                              | String c2 rest2 =>
                                  if byte_val c2 =? 0x2C then
                                    match parse_members fuel' depth (skip_space rest2) with
                                    | Some (m, tail2) => Some ((key, v) :: m, tail2)
                                    | None => None
                                    end
                                  else if byte_val c2 =? 0x7D then
                                    Some ([(key, v)], rest2)
                                  else None
                              end
                          | None => None
                          end
                        else None
                    end
                | None => None
                end
            | None => None
            end
          else None
      end
  end
with parse_elements (fuel : nat) (depth : Z) (s : string) {struct fuel}
  : option (list value * string) :=
  match fuel with
  | O => None
  | S fuel' =>
      match parse_value fuel' depth s with
      | Some (v, tail1) =>
          match skip_space tail1 with
          | EmptyString => None
          | String c2 rest2 =>
              if byte_val c2 =? 0x2C then
                match parse_elements fuel' depth (skip_space rest2) with
                | Some (l, tail2) => Some (v :: l, tail2)
                | None => None
                end
              else if byte_val c2 =? 0x5D then Some ([v], rest2)
              else None
          end
      | None => None
      end
  end.

(** [checkValid] and the reading of the one value of [data]: white
    space, a value, white space, and nothing else.  A call spends one
    unit of fuel and the calls it makes start at least one byte further
    on, or, for the first element of an array, at the same byte with one
    unit less: twice the length is more than any run needs. *)
Definition parse (data : bytes) : option value :=
  match parse_value (S (2 * String.length data)) 0 (skip_space data) with
  | Some (v, tail) =>
      match skip_space tail with
      | EmptyString => Some v
      | String _ _ => None
      end
  | None => None
  end.

(** The fields of [Asset] by their tags. *)
Inductive field : Type := F_cid | F_features | F_id | F_type.

Definition field_tag (f : field) : string :=
  match f with
  | F_cid => "cid"
  | F_features => "features"
  | F_id => "id"
  | F_type => "type"
  end.

Definition fields : list field := [F_cid; F_features; F_id; F_type].

(** [foldRune] on the runes that matter here: the only runes outside
    ASCII whose case orbit holds an ASCII letter are U+017F (long s) and
    U+212A (Kelvin sign); every other rune outside ASCII folds to a rune
    outside ASCII, which no tag of [Asset] contains, and is left as it
    is. *)
Definition foldRune (r : Z) : Z :=
  if r =? 0x17F then 0x53 else if r =? 0x212A then 0x4B else r.

Fixpoint foldName_loop (fuel : nat) (s : string) : string :=
  match fuel with
  | O => ""
  | S fuel' =>
      match s with
      | EmptyString => ""
      | String c rest =>
          let b := byte_val c in
          if b <? utf8.RuneSelf then
            String (if (0x61 <=? b) && (b <=? 0x7A) then byte_of (b - 0x20) else c)
                   (foldName_loop fuel' rest)
          else
            let '(r, n) := utf8.DecodeRune s in
            utf8.EncodeRune (foldRune r) +:+ foldName_loop fuel' (str_drop n s)
      end
  end.

Definition foldName (s : string) : string := foldName_loop (String.length s) s.

(** The field a key selects: the tag equal to it if there is one,
    otherwise the first tag equal to it under case folding. *)
Definition find_field (key : string) : option field :=
  match List.find (fun f => String.eqb (field_tag f) key) fields with
  | Some f => Some f
  | None =>
      List.find (fun f => String.eqb (foldName (field_tag f)) (foldName key)) fields
  end.

Definition set_field (f : field) (s : string) (a : Asset) : Asset :=
  match f with
  | F_cid => mkAsset s (Features a) (ID a) (Type_ a)
  | F_features => mkAsset (CID a) s (ID a) (Type_ a)
  | F_id => mkAsset (CID a) (Features a) s (Type_ a)
  | F_type => mkAsset (CID a) (Features a) (ID a) s
  end.

Definition kind_name (v : value) : string :=
  match v with
  | Null => "null"
  | Bool _ => "bool"
  | Number => "number"
  | Str _ => "string"
  | Array _ => "array"
  | Object _ => "object"
  end.

(** [saveError] keeps the first error and lets decoding go on. *)
Definition saveError (saved : option error) (e : error) : option error :=
  match saved with
  | Some _ => saved
  | None => Some e
  end.

(** A value into a field of kind string: a string is stored, [null]
    changes nothing, any other value is a type error. *)
Definition store_field (f : field) (v : value) (st : Asset * option error)
  : Asset * option error :=
  match v with
  | Str s => (set_field f s (fst st), snd st)
  | Null => st
  | _ => (fst st, saveError (snd st) (UnmarshalTypeError (kind_name v) (field_tag f)))
  end.

(** The members of an object into the struct, in order; a key that
    selects no field is skipped. *)
Fixpoint decode_object (m : list (string * value)) (st : Asset * option error)
  : Asset * option error :=
  match m with
  | [] => st
  | (key, v) :: m' =>
      decode_object m'
        (match find_field key with
         | Some f => store_field f v st
         | None => st
         end)
  end.

(** [Unmarshal(data, &v)] for [v] an [Asset]: the struct after the call
    and the error returned. *)
Definition Unmarshal (data : bytes) (v : Asset) : Asset * option error :=
  match parse data with
  | None => (v, Some SyntaxError)
  | Some Null => (v, None)
  | Some (Object m) => decode_object m (v, None)
  | Some j => (v, Some (UnmarshalTypeError (kind_name j) ""))
  end.

End json.

(** ** The ledger stub *)

(** [queryresult.KV] *)
Record KV : Type := mkKV { Key : string; Value : bytes }.

(** [peer.QueryResponseMetadata]; [FetchedRecordsCount] is an [int32]. *)
Record QueryResponseMetadata : Type := mkMetadata {
  GetFetchedRecordsCount : Z;
  GetBookmark : string
}.

(** [shim.StateQueryIteratorInterface]: what the successive calls of
    [Next] will return, and how many times [Close] was called.
    [HasNext] holds while something is pending. *)
Record StateQueryIterator : Type := mkIterator {
  pending : list (result KV);
  closed : nat
}.

Definition HasNext (it : StateQueryIterator) : bool :=
  match pending it with
  | [] => false
  | _ :: _ => true
  end.

Definition Close (it : StateQueryIterator) : StateQueryIterator :=
  mkIterator (pending it) (S (closed it)).

(** The part of [shim.ChaincodeStubInterface] the contract calls, over a
    ledger of type [L].  [GetState] returns the pair [([]byte, error)]:
    [Ok None] is [(nil, nil)].  [PutState] returns the ledger after the
    call and the error. *)
Class ChaincodeStub (L : Type) : Type := {
  GetState : L -> string -> result (option bytes);
  PutState : L -> string -> bytes -> L * option error;
  GetStateByRangeWithPagination :
    L -> string -> string -> Z -> string ->
    result (StateQueryIterator * QueryResponseMetadata);
  GetQueryResultWithPagination :
    L -> string -> Z -> string ->
    result (StateQueryIterator * QueryResponseMetadata);
  GetStateByRange : L -> string -> string -> result StateQueryIterator;
  GetQueryResult : L -> string -> result StateQueryIterator
}.

(** What the contract relies on from the ledger: a value written is the
    value read back, and a write touches no other key. *)
Class LawfulStub (L : Type) `{ChaincodeStub L} : Prop := {
  get_put_same : forall (s s' : L) (k : string) (v : bytes),
    PutState s k v = (s', None) -> v <> "" -> GetState s' k = Ok (Some v);
  get_put_other : forall (s s' : L) (k k' : string) (v : bytes),
    PutState s k v = (s', None) -> k' <> k -> GetState s' k' = GetState s k'
}.

(** Go's conversion [int32(x)] of an [int]: the low 32 bits, signed. *)
Definition int32 (x : Z) : Z := (x + 2 ^ 31) mod 2 ^ 32 - 2 ^ 31.

Definition ErrAssetExists : error := errors_New "the asset already exists".
Definition ErrNotFound : error := errors_New "the asset does not exist".

(** The loop shared by every enumeration: while the iterator has a next
    item, fetch it, decode its value into a fresh [Asset], append.  The
    result is paired with the iterator as the loop leaves it. *)
Fixpoint drain_iterator (read_msg unmarshal_msg : string) (assets : list Asset)
    (pend : list (result KV)) (cl : nat)
  : StateQueryIterator * result (list Asset) :=
  match pend with
  | [] => (mkIterator [] cl, Ok assets)
  | Err err :: rest => (mkIterator rest cl, Err (Errorf_w read_msg err))
  | Ok queryResult :: rest =>
      match json.Unmarshal (Value queryResult) zeroAsset with
      | (_, Some err) => (mkIterator rest cl, Err (Errorf_w unmarshal_msg err))
      | (asset, None) =>
          drain_iterator read_msg unmarshal_msg (assets ++ [asset]) rest cl
      end
  end.

(** What an item of an iterator decodes to, and whether it decodes. *)
Definition decode_kv (kv : KV) : Asset := fst (json.Unmarshal (Value kv) zeroAsset).
Definition decodes (kv : KV) : Prop := snd (json.Unmarshal (Value kv) zeroAsset) = None.

(** ** The enum-typed contract ([package main]) *)

Module Main.

Definition AssetTypePDF : AssetType := "PDF".
Definition AssetTypePE : AssetType := "PE".

(** Modelled from the spec: [ParseAssetType] is generated from the
    comment [ENUM(PDF, PE)] on [AssetType] and is not among the sources.
    It succeeds iff the raw string case-sensitively matches one of the
    recognized tags, and otherwise fails with an invalid-enum-value
    error carrying the offending input. *)
Definition ParseAssetType (name : string) : result AssetType :=
  if String.eqb name "PDF" then Ok AssetTypePDF
  else if String.eqb name "PE" then Ok AssetTypePE
  else Err (InvalidEnumValue name).

Record PaginatedQueryResult : Type := mkPage {
  Records : list Asset;
  FetchedRecordsCount : Z;
  Bookmark : string
}.

Section Contract.
Context {L : Type} {stub : ChaincodeStub L}.

Definition AssetExists (ctx : L) (cid : string) : result bool :=
  match GetState ctx cid with
  | Err err => Err (Errorf_w "read from ledger state" err)
  | Ok assetJSON =>
      Ok (match assetJSON with Some _ => true | None => false end)
  end.

Definition CreateAsset (ctx : L) (assetCID assetID assetType features : string)
  : L * option error :=
  match AssetExists ctx assetCID with
  | Err err => (ctx, Some err)
  | Ok true => (ctx, Some ErrAssetExists)
  | Ok false =>
      match ParseAssetType assetType with
      | Err err => (ctx, Some (Errorf_w "parse asset type" err))
      | Ok assetTypeEnum =>
          let asset :=
            {| ID := assetID; CID := assetCID;
               Type_ := assetTypeEnum; Features := features |} in
          match json.Marshal asset with
          | Err err => (ctx, Some (Errorf_w "marshal asset" err))
          | Ok assetJSON =>
              match PutState ctx assetCID assetJSON with
              | (ctx', Some err) =>
                  (ctx', Some (Errorf_w "put asset in ledger state" err))
              | (ctx', None) => (ctx', None)
              end
          end
      end
  end.

Definition GetAsset (ctx : L) (cid : string) : result Asset :=
  match GetState ctx cid with
  | Err err => Err (Errorf_w "read from ledger state" err)
  | Ok None => Err ErrNotFound
  | Ok (Some assetJSON) =>
      match json.Unmarshal assetJSON zeroAsset with
      | (_, Some err) => Err (Errorf_w "unmarshal asset" err)
      | (asset, None) => Ok asset
      end
  end.

Definition constructQueryResponseFromIterator (resultsIterator : StateQueryIterator)
  : StateQueryIterator * result (list Asset) :=
  drain_iterator "read asset from iterator" "unmarshal asset" []
    (pending resultsIterator) (closed resultsIterator).

(** The first component is the iterator the ledger handed out, as the
    call leaves it ([None] when none was handed out); the deferred
    [Close] has run. *)
Definition getQueryResultForQueryStringWithPagination
    (ctx : L) (queryString : string) (pageSize : Z) (bookmark : string)
  : option StateQueryIterator * result PaginatedQueryResult :=
  match GetQueryResultWithPagination ctx queryString pageSize bookmark with
  | Err err => (None, Err (Errorf_w "get query result" err))
  | Ok (resultsIterator, responseMetadata) =>
      let '(it, r) := constructQueryResponseFromIterator resultsIterator in
      (Some (Close it),
       match r with
       | Err err => Err err
       | Ok assets =>
           Ok {| Records := assets;
                 FetchedRecordsCount := GetFetchedRecordsCount responseMetadata;
                 Bookmark := GetBookmark responseMetadata |}
       end)
  end.

Definition QueryAssets (ctx : L) (queryString : string) (pageSize : Z) (bookmark : string)
  : option StateQueryIterator * result PaginatedQueryResult :=
  getQueryResultForQueryStringWithPagination ctx queryString (int32 pageSize) bookmark.

End Contract.
End Main.

(** ** The earlier contract ([package chaincode], src/chaincode.go)

    Records are keyed by [id]; the type tag is a free string. *)

Module Chaincode.

Record PaginatedQueryResult : Type := mkPage {
  Records : list Asset;
  FetchedRecordsCount : Z;
  Bookmark : string
}.

Section Contract.
Context {L : Type} {stub : ChaincodeStub L}.

Definition AssetExists (ctx : L) (id : string) : result bool :=
  match GetState ctx id with
  | Err err => Err (Errorf_w "failed to read from world state" err)
  | Ok assetJSON =>
      Ok (match assetJSON with Some _ => true | None => false end)
  end.

Definition CreateAsset (ctx : L) (id cid assetType features : string)
  : L * option error :=
  match AssetExists ctx id with
  | Err err => (ctx, Some err)
  | Ok true => (ctx, Some ErrAssetExists)
  | Ok false =>
      let asset :=
        {| ID := id; CID := cid; Type_ := assetType; Features := features |} in
      match json.Marshal asset with
      | Err err => (ctx, Some (Errorf_w "failed to marshal asset" err))
      | Ok assetJSON =>
          match PutState ctx id assetJSON with
          | (ctx', Some err) =>
              (ctx', Some (Errorf_w "failed to put asset in world state" err))
          | (ctx', None) => (ctx', None)
          end
      end
  end.

Definition ReadAsset (ctx : L) (id : string) : result Asset :=
  match GetState ctx id with
  | Err err => Err (Errorf_w "failed to read from world state" err)
  | Ok None => Err ErrNotFound
  | Ok (Some assetJSON) =>
      match json.Unmarshal assetJSON zeroAsset with
      | (_, Some err) => Err (Errorf_w "failed to unmarshal asset" err)
      | (asset, None) => Ok asset
      end
  end.

Definition constructQueryResponseFromIterator (resultsIterator : StateQueryIterator)
  : StateQueryIterator * result (list Asset) :=
  drain_iterator "failed to read asset from iterator" "failed to unmarshal asset" []
    (pending resultsIterator) (closed resultsIterator).

Definition getQueryResultForQueryStringWithPagination
    (ctx : L) (queryString : string) (pageSize : Z) (bookmark : string)
  : option StateQueryIterator * result PaginatedQueryResult :=
  match GetQueryResultWithPagination ctx queryString pageSize bookmark with
  | Err err => (None, Err (Errorf_w "failed to get query result" err))
  | Ok (resultsIterator, responseMetadata) =>
      let '(it, r) := constructQueryResponseFromIterator resultsIterator in
      (Some (Close it),
       match r with
       | Err err => Err err
       | Ok assets =>
           Ok {| Records := assets;
                 FetchedRecordsCount := GetFetchedRecordsCount responseMetadata;
                 Bookmark := GetBookmark responseMetadata |}
       end)
  end.

Definition QueryAssets (ctx : L) (queryString : string) (pageSize : Z) (bookmark : string)
  : option StateQueryIterator * result PaginatedQueryResult :=
  getQueryResultForQueryStringWithPagination ctx queryString (int32 pageSize) bookmark.

End Contract.
End Chaincode.

(** ** The same package with the range scan ([ReadAssets])

    The snapshot of [package chaincode] that enumerates by key range;
    its [CreateAsset], [ReadAsset] and [AssetExists] are those of
    [Chaincode]. *)

Module ChaincodeRange.

Record AssetCursor : Type := mkCursor {
  Assets : list Asset;
  Bookmark : string
}.

Section Contract.
Context {L : Type} {stub : ChaincodeStub L}.

(** [pageSize] is an [int32] already. *)
Definition ReadAssets (ctx : L) (pageSize : Z) (bookmark : string)
  : option StateQueryIterator * result AssetCursor :=
  match GetStateByRangeWithPagination ctx "" "" pageSize bookmark with
  | Err err => (None, Err (Errorf_w "failed to read assets from world state" err))
  | Ok (resultsIterator, metadata) =>
      let '(it, r) :=
        drain_iterator "failed to read asset from iterator" "failed to unmarshal asset" []
          (pending resultsIterator) (closed resultsIterator) in
      (Some (Close it),
       match r with
       | Err err => Err err
       | Ok assets =>
           Ok {| Bookmark := GetBookmark metadata; Assets := assets |}
       end)
  end.

End Contract.
End ChaincodeRange.

(** ** A client that pages

    Call, keep the records of the page, feed the returned bookmark into
    the next call; stop at the page on which [stop] holds.  [None] when
    a call fails or no such page shows within [fuel] calls. *)
Fixpoint page_through {P A : Type} (call : string -> option P)
    (recs : P -> list A) (stop : string -> P -> bool) (next : P -> string)
    (fuel : nat) (bookmark : string) : option (list A) :=
  match fuel with
  | O => None
  | S fuel' =>
      match call bookmark with
      | None => None
      | Some p =>
          if stop bookmark p then Some (recs p)
          else
            match page_through call recs stop next fuel' (next p) with
            | Some l => Some (recs p ++ l)
            | None => None
            end
      end
  end.

(** The items of an iterator when every [Next] succeeds. *)
Fixpoint all_ok (pend : list (result KV)) : option (list KV) :=
  match pend with
  | [] => Some []
  | Ok kv :: rest =>
      match all_ok rest with
      | Some l => Some (kv :: l)
      | None => None
      end
  | Err _ :: _ => None
  end.

Definition ok_page (r : result (StateQueryIterator * QueryResponseMetadata))
  : option (list KV * QueryResponseMetadata) :=
  match r with
  | Ok (it, md) =>
      match all_ok (pending it) with
      | Some kvs => Some (kvs, md)
      | None => None
      end
  | Err _ => None
  end.

Definition ok_result {A : Type} (r : result A) : option A :=
  match r with
  | Ok a => Some a
  | Err _ => None
  end.

Section Paging.
Context {L : Type} {stub : ChaincodeStub L}.

(** The stop rule on what the ledger reports: nothing fetched and the
    bookmark unchanged. *)
Definition store_stop (bookmark : string) (p : list KV * QueryResponseMetadata) : bool :=
  (GetFetchedRecordsCount (snd p) =? 0) && String.eqb (GetBookmark (snd p)) bookmark.

(** Paging the rich query on the ledger itself, and through
    [Main.QueryAssets]. *)
Definition query_pages_store (ctx : L) (q : string) (pageSize : Z) :=
  page_through
    (fun bm => ok_page (GetQueryResultWithPagination ctx q (int32 pageSize) bm))
    fst store_stop (fun p => GetBookmark (snd p)).

Definition query_pages (ctx : L) (q : string) (pageSize : Z) :=
  page_through
    (fun bm => ok_result (snd (Main.QueryAssets ctx q pageSize bm)))
    Main.Records
    (fun bm p => (Main.FetchedRecordsCount p =? 0) && String.eqb (Main.Bookmark p) bm)
    Main.Bookmark.

(** Paging the range scan on the ledger itself, and through
    [ChaincodeRange.ReadAssets].  An [AssetCursor] carries no count: the
    number of records fetched is the length of [Assets]. *)
Definition range_stop (bookmark : string) (p : list KV * QueryResponseMetadata) : bool :=
  (Z.of_nat (length (fst p)) =? 0) && String.eqb (GetBookmark (snd p)) bookmark.

Definition range_pages_store (ctx : L) (pageSize : Z) :=
  page_through
    (fun bm => ok_page (GetStateByRangeWithPagination ctx "" "" pageSize bm))
    fst range_stop (fun p => GetBookmark (snd p)).

Definition range_pages (ctx : L) (pageSize : Z) :=
  page_through
    (fun bm => ok_result (snd (ChaincodeRange.ReadAssets ctx pageSize bm)))
    ChaincodeRange.Assets
    (fun bm p =>
       (Z.of_nat (length (ChaincodeRange.Assets p)) =? 0) &&
       String.eqb (ChaincodeRange.Bookmark p) bm)
    ChaincodeRange.Bookmark.

(** A single scan without a page bound. *)
Definition unbounded_query (ctx : L) (q : string) : option (list KV) :=
  match GetQueryResult ctx q with
  | Ok it => all_ok (pending it)
  | Err _ => None
  end.

Definition unbounded_range (ctx : L) : option (list KV) :=
  match GetStateByRange ctx "" "" with
  | Ok it => all_ok (pending it)
  | Err _ => None
  end.

End Paging.

(** ** A ledger in memory

    A world state held in a finite map, with an optional fault that
    makes every call fail.  A page of a scan is the next [pageSize]
    entries in key order after the bookmark, the bookmark returned is
    the last key of the page, or the bookmark received when the page is
    empty.  The query language has one query, which selects all. *)

Record MemStub : Type := mkMem {
  world : gmap string bytes;
  fault : option error
}.

Definition kv_le (x y : string * bytes) : Prop := String.le (fst x) (fst y).

#[export] Instance kv_le_dec : RelDecision kv_le.
Proof. intros x y. unfold kv_le. apply _. Defined.

Definition entries (m : MemStub) : list KV :=
  List.map (fun x : string * bytes => mkKV (fst x) (snd x))
    (merge_sort kv_le (map_to_list (world m))).

Definition entries_after (bookmark : string) (l : list KV) : list KV :=
  if String.eqb bookmark "" then l
  else List.filter (fun kv => String.ltb bookmark (Key kv)) l.

Definition mem_page (m : MemStub) (pageSize : Z) (bookmark : string)
  : result (StateQueryIterator * QueryResponseMetadata) :=
  match fault m with
  | Some e => Err e
  | None =>
      let p := take (Z.to_nat pageSize) (entries_after bookmark (entries m)) in
      Ok (mkIterator (List.map Ok p) 0,
          mkMetadata (Z.of_nat (length p))
            (match last p with Some kv => Key kv | None => bookmark end))
  end.

Definition mem_scan (m : MemStub) : result StateQueryIterator :=
  match fault m with
  | Some e => Err e
  | None => Ok (mkIterator (List.map Ok (entries m)) 0)
  end.

#[export] Instance MemStub_stub : ChaincodeStub MemStub := {|
  GetState m k :=
    match fault m with
    | Some e => Err e
    | None => Ok (world m !! k)
    end;
  PutState m k v :=
    match fault m with
    | Some e => (m, Some e)
    | None => (mkMem (<[k := v]> (world m)) None, None)
    end;
  GetStateByRangeWithPagination m _ _ pageSize bookmark := mem_page m pageSize bookmark;
  GetQueryResultWithPagination m _ pageSize bookmark := mem_page m pageSize bookmark;
  GetStateByRange m _ _ := mem_scan m;
  GetQueryResult m _ := mem_scan m
|}.

Definition mem_of (l : list (string * bytes)) : MemStub := mkMem (list_to_map l) None.

(** ** Notions used in the statements and proofs *)

(** What a Go string comes back as from [Marshal] followed by
    [Unmarshal]: each byte that starts no well-formed rune becomes
    U+FFFD, everything else is kept. *)
Fixpoint coerce_loop (fuel : nat) (s : string) : string :=
  match fuel with
  | O => ""
  | S fuel' =>
      match s with
      | EmptyString => ""
      | String _ _ =>
          let '(r, size) := utf8.DecodeRune s in
          if (r =? utf8.RuneError) && (size =? 1)%nat then
            utf8.EncodeRune utf8.RuneError +:+ coerce_loop fuel' (str_drop 1 s)
          else str_take size s +:+ coerce_loop fuel' (str_drop size s)
      end
  end.

Definition coerce_utf8 (s : string) : string := coerce_loop (String.length s) s.

Definition coerce_asset (a : Asset) : Asset :=
  mkAsset (coerce_utf8 (CID a)) (coerce_utf8 (Features a))
          (coerce_utf8 (ID a)) (coerce_utf8 (Type_ a)).

Definition valid_asset (a : Asset) : bool :=
  utf8.ValidString (CID a) && utf8.ValidString (Features a) &&
  utf8.ValidString (ID a) && utf8.ValidString (Type_ a).

(** Every byte has its high bit set. *)
Fixpoint all_high (s : string) : bool :=
  match s with
  | EmptyString => true
  | String c rest => (0x80 <=? byte_val c) && all_high rest
  end.

(** What [appendString] writes for one ASCII byte. *)
Definition ascii_piece (c : ascii) : string :=
  if json.htmlSafeSet (byte_val c) then String c "" else json.escape_byte c.

Definition scan_after (piece : string) (o : option (string * string))
  : option (string * string) :=
  match o with
  | Some (raw, tail) => Some (piece +:+ raw, tail)
  | None => None
  end.

(** A key that the scanner and [unquote] leave as it is. *)
Definition plain_key (name : string) : Prop :=
  (forall X, json.scan_string (name +:+ String dquote X) = Some (name, X)) /\
  json.unquote name = Some name.

(** ** The ledgers and inputs of the examples *)

Definition ledger0 : MemStub := mem_of [].

Definition assetA : Asset := mkAsset "CID_0" "[]" "ASSET_0" "PDF".

Definition ledgerA : MemStub := mem_of [("CID_0", json.encodeAsset assetA)].

Definition asset_n (i : string) : Asset :=
  mkAsset ("CID_" +:+ i) "[]" ("ASSET_" +:+ i) (if String.eqb i "1" then "PE" else "PDF").

Definition ledger5 : MemStub :=
  mem_of (List.map (fun i => ("CID_" +:+ i, json.encodeAsset (asset_n i)))
            ["3"; "1"; "4"; "0"; "2"]).

(** A ledger that holds a key with a value of no bytes, and one that
    holds a value that is no JSON text. *)
Definition ledger_empty_value : MemStub := mem_of [("CID_0", "")].

Definition ledger_garbled : MemStub :=
  mem_of [("CID_0", json.encodeAsset assetA); ("CID_1", "not json");
          ("CID_2", json.encodeAsset (asset_n "2"))].

Definition ledger_down : MemStub := mkMem ∅ (Some (errors_New "ledger unavailable")).

(** The byte 0xFF, which starts no rune, and the encoding of U+FFFD. *)
Definition ill_formed : string := String "255" "".
Definition replacement : string := String "239" (String "191" (String "189" "")).

Definition decodesb (kv : KV) : bool :=
  match snd (json.Unmarshal (Value kv) zeroAsset) with
  | None => true
  | Some _ => false
  end.

(** The order of a scan: by key. *)
Definition key_le (a b : KV) : Prop := String.le (Key a) (Key b).

(** A string between double quotes, for writing JSON texts. *)
Definition quoted (s : string) : string := String dquote (s +:+ String dquote "").

(** ** The seeding endpoints ([package chaincode], src/chaincode.go)

    [Ping], [SeedLedger] and [DeleteSeededAssets].  They call
    [fmt.Sprintf] with the verb [%d], index a slice, and delete keys
    through the stub's [DelState]. *)

(** What [fmt]'s [fmtInteger] writes in base 10: the digits from the
    least significant one, each put in front of those already written.
    The fuel is the room of its buffer for the digits of a [uint64]. *)
Fixpoint fmt_digits (fuel : nat) (u : Z) (buf : string) : string :=
  match fuel with
  | O => buf
  | S fuel' =>
      if 10 <=? u then
        let next := u / 10 in
        fmt_digits fuel' next (String (byte_of (48 + u - next * 10)) buf)
      else String (byte_of (48 + u)) buf
  end.

(** The verb [%d] on an [int]. *)
Definition fmt_d (a : Z) : string :=
  let negative := a <? 0 in
  let u := if negative then - a else a in
  let digits := fmt_digits 20 u "" in
  if negative then String "-"%char digits else digits.

(** [fmt.Sprintf(prefix + "%d", a)]. *)
Definition Sprintf_d (prefix : string) (a : Z) : string := prefix +:+ fmt_d a.

(** [s[i]] on a slice: [None] is the run-time panic of an index out of
    range. *)
Definition slice_index {A : Type} (s : list A) (i : Z) : option A :=
  if i <? 0 then None else s !! Z.to_nat i.

(** [DelState] of [shim.ChaincodeStubInterface]: the ledger after the
    call and the error. *)
Class ChaincodeStubDel (L : Type) `{ChaincodeStub L} : Type := {
  DelState : L -> string -> L * option error
}.

(** A key deleted reads as nil, and a delete touches no other key. *)
Class LawfulDel (L : Type) `{ChaincodeStubDel L} : Prop := {
  get_del_same : forall (s s' : L) (k : string),
    DelState s k = (s', None) -> GetState s' k = Ok None;
  get_del_other : forall (s s' : L) (k k' : string),
    DelState s k = (s', None) -> k' <> k -> GetState s' k' = GetState s k'
}.

Module Seeding.

Definition types : list string := ["PDF"; "PE"].

Section Contract.
Context {L : Type} {stub : ChaincodeStub L}.

Definition Ping (ctx : L) : option error := None.

(** The loop [for i := range 100] with [n] rounds left, at [i].  The
    result is [None] when indexing [types] panics. *)
Fixpoint SeedLedger_loop (n : nat) (i : Z) (ctx : L) : option (L * option error) :=
  match n with
  | O => Some (ctx, None)
  | S n' =>
      match slice_index types (Z.rem i 2) with
      | None => None
      | Some ty =>
          let asset :=
            {| ID := Sprintf_d "ASSET_" i; CID := Sprintf_d "CID_" i;
               Type_ := ty; Features := "[]" |} in
          match Chaincode.CreateAsset ctx (ID asset) (CID asset) (Type_ asset)
                  (Features asset) with
          | (ctx', Some err) => Some (ctx', Some (Errorf_w "failed to create asset" err))
          | (ctx', None) => SeedLedger_loop n' (i + 1) ctx'
          end
      end
  end.

Definition SeedLedger (ctx : L) : option (L * option error) :=
  SeedLedger_loop 100 0 ctx.

Context {del : ChaincodeStubDel L}.

Fixpoint DeleteSeededAssets_loop (n : nat) (i : Z) (ctx : L) : L * option error :=
  match n with
  | O => (ctx, None)
  | S n' =>
      match DelState ctx (Sprintf_d "ASSET_" i) with
      | (ctx', Some err) => (ctx', Some (Errorf_w "failed to delete asset" err))
      | (ctx', None) => DeleteSeededAssets_loop n' (i + 1) ctx'
      end
  end.

Definition DeleteSeededAssets (ctx : L) : L * option error :=
  DeleteSeededAssets_loop 100 0 ctx.

End Contract.
End Seeding.

(** The ledger in memory deletes by removing the key from its map. *)
#[export] Instance MemStub_del : ChaincodeStubDel MemStub := {|
  DelState m k :=
    match fault m with
    | Some e => (m, Some e)
    | None => (mkMem (delete k (world m)) None, None)
    end
|}.

(** ** A scripted ledger

    A ledger that answers every call from a script, whatever the
    arguments: what a read returns, the error of a write and of a
    delete, and the page of an enumeration. *)
Record Script : Type := mkScript {
  get_returns : result (option bytes);
  put_returns : option error;
  del_returns : option error;
  page_returns : result (StateQueryIterator * QueryResponseMetadata)
}.

#[export] Instance Script_stub : ChaincodeStub Script := {|
  GetState m _ := get_returns m;
  PutState m _ _ := (m, put_returns m);
  GetStateByRangeWithPagination m _ _ _ _ := page_returns m;
  GetQueryResultWithPagination m _ _ _ := page_returns m;
  GetStateByRange m _ _ :=
    match page_returns m with
    | Ok (it, _) => Ok it
    | Err e => Err e
    end;
  GetQueryResult m _ :=
    match page_returns m with
    | Ok (it, _) => Ok it
    | Err e => Err e
    end
|}.

#[export] Instance Script_del : ChaincodeStubDel Script := {|
  DelState m _ := (m, del_returns m)
|}.

(** ** Notions used in the statements about seeding *)

(** The asset [SeedLedger] builds in round [i]. *)
Definition seeded (i : Z) : Asset :=
  mkAsset (Sprintf_d "CID_" i) "[]" (Sprintf_d "ASSET_" i)
          (if Z.even i then "PDF" else "PE").

(** The key it is stored under. *)
Definition seeded_key (i : Z) : string := Sprintf_d "ASSET_" i.

(** The rounds of the loop. *)
Definition rounds : list Z := List.map Z.of_nat (seq 0 100).

(** A set of ledgers that accept every write, and that a write does
    not leave. *)
Class AcceptsWrites {L : Type} `{ChaincodeStub L} (good : L -> Prop) : Prop := {
  put_accepted : forall (s : L) (k : string) (v : bytes),
    good s -> exists s', PutState s k v = (s', None) /\ good s'
}.

(** The same for deletes. *)
Class AcceptsDeletes {L : Type} `{ChaincodeStubDel L} (good : L -> Prop) : Prop := {
  del_accepted : forall (s : L) (k : string),
    good s -> exists s', DelState s k = (s', None) /\ good s'
}.

(** The ledgers in memory without a fault. *)
Definition sound (m : MemStub) : Prop := fault m = None.

(** The ledger after [SeedLedger] on the empty one. *)
Definition ledger_seeded : MemStub :=
  mem_of (List.map (fun i => (seeded_key i, json.encodeAsset (seeded i))) rounds).

(** ** How the loop of an enumeration can end

    With every item read and decoded, or at the first item that is an
    error of the iterator or does not decode; [rest] is what the
    iterator still holds. *)
Inductive drained (rm um : string) (pend : list (result KV)) (acc : list Asset)
  : list (result KV) -> result (list Asset) -> Prop :=
| drained_all kvs :
    pend = List.map Ok kvs -> Forall decodes kvs ->
    drained rm um pend acc [] (Ok (acc ++ List.map decode_kv kvs))
| drained_read_error pre e rest :
    pend = List.map Ok pre ++ Err e :: rest -> Forall decodes pre ->
    drained rm um pend acc rest (Err (Errorf_w rm e))
| drained_decode_error pre bad e rest :
    pend = List.map Ok pre ++ Ok bad :: rest -> Forall decodes pre ->
    snd (json.Unmarshal (Value bad) zeroAsset) = Some e ->
    drained rm um pend acc rest (Err (Errorf_w um e)).


(** A scripted ledger whose iterator fails at the second item. *)
Definition script_broken_iterator : Script :=
  mkScript (Ok None) None None
    (Ok (mkIterator [Ok (mkKV "CID_0" (json.encodeAsset assetA));
                     Err (errors_New "connection lost");
                     Ok (mkKV "CID_2" (json.encodeAsset (asset_n "2")))] 0,
         mkMetadata 3 "CID_2")).

(** Every value on the ledger decodes as an [Asset]. *)
Definition all_decodable {L : Type} `{ChaincodeStub L} (s : L) : Prop :=
  forall (k : string) (v : bytes),
    GetState s k = Ok (Some v) -> snd (json.Unmarshal v zeroAsset) = None.
(** * Proofs *)

(** ** The embedded library on examples *)

Example DecodeRune_ascii : utf8.DecodeRune "A" = (65, 1%nat).
Proof. reflexivity. Qed.

Example DecodeRune_euro :
  utf8.DecodeRune (String "226" (String "130" (String "172" "x"))) = (0x20AC, 3%nat).
Proof. reflexivity. Qed.

Example DecodeRune_bad : utf8.DecodeRune (String "255" "x") = (utf8.RuneError, 1%nat).
Proof. reflexivity. Qed.

Example DecodeRune_surrogate :
  utf8.DecodeRune (String "237" (String "160" (String "128" ""))) = (utf8.RuneError, 1%nat).
Proof. reflexivity. Qed.

Example EncodeRune_euro :
  utf8.EncodeRune 0x20AC = String "226" (String "130" (String "172" "")).
Proof. reflexivity. Qed.

Example EncodeRune_surrogate :
  utf8.EncodeRune 0xD800 = String "239" (String "191" (String "189" "")).
Proof. reflexivity. Qed.

Example Marshal_scenario_A :
  json.Marshal assetA
  = Ok ("{" +:+ quoted "cid" +:+ ":" +:+ quoted "CID_0" +:+ "," +:+
        quoted "features" +:+ ":" +:+ quoted "[]" +:+ "," +:+
        quoted "id" +:+ ":" +:+ quoted "ASSET_0" +:+ "," +:+
        quoted "type" +:+ ":" +:+ quoted "PDF" +:+ "}").
Proof. reflexivity. Qed.

Example appendString_escapes :
  json.appendString ("a<b" +:+ String "010" (String dquote ""))
  = String dquote ("a\u003cb\n" +:+
                   String json.backslash (String dquote (String dquote ""))) /\
  json.appendString ill_formed = quoted (String json.backslash "ufffd").
Proof. split; reflexivity. Qed.

Example Unmarshal_null : json.Unmarshal "null" assetA = (assetA, None).
Proof. reflexivity. Qed.

Example Unmarshal_empty_input : json.Unmarshal "" zeroAsset = (zeroAsset, Some SyntaxError).
Proof. reflexivity. Qed.

Example Unmarshal_array :
  json.Unmarshal "[1, 2]" zeroAsset = (zeroAsset, Some (UnmarshalTypeError "array" "")).
Proof. reflexivity. Qed.

Example Unmarshal_folds_keys_and_skips_unknown :
  json.Unmarshal ("{ " +:+ quoted "CID" +:+ ": " +:+ quoted "x" +:+ ", " +:+
                  quoted "extra" +:+ ": [true, {}, -1.5e3], " +:+
                  quoted "id" +:+ ": null }") zeroAsset
  = (mkAsset "x" "" "" "", None).
Proof. reflexivity. Qed.

Example Unmarshal_number_for_string :
  json.Unmarshal ("{" +:+ quoted "type" +:+ ":5}") zeroAsset
  = (zeroAsset, Some (UnmarshalTypeError "number" "type")).
Proof. reflexivity. Qed.

Example Unmarshal_trailing_comma :
  json.Unmarshal ("{" +:+ quoted "cid" +:+ ":" +:+ quoted "a" +:+ ",}") zeroAsset
  = (zeroAsset, Some SyntaxError).
Proof. reflexivity. Qed.

(** ** Bytes and UTF-8 *)

Lemma byte_val_range c : 0 <= byte_val c < 256.
Proof.
  unfold byte_val. pose proof (N_ascii_bounded c). lia.
Qed.

Lemma byte_of_val c : byte_of (byte_val c) = c.
Proof.
  unfold byte_of. pose proof (byte_val_range c).
  rewrite Z.mod_small by lia. unfold byte_val.
  rewrite N2Z.id. apply ascii_N_embedding.
Qed.

Lemma byte_val_of z : byte_val (byte_of z) = z mod 256.
Proof.
  unfold byte_val, byte_of.
  assert (0 <= z mod 256 < 256) by (apply Z.mod_pos_bound; lia).
  rewrite N_ascii_embedding by lia. lia.
Qed.

Lemma land_low_zero x b n :
  0 <= n -> x mod 2 ^ n = 0 -> 0 <= b < 2 ^ n -> Z.land x b = 0.
Proof.
  intros Hn Hx Hb. apply Z.bits_inj'. intros i Hi.
  rewrite Z.land_spec, Z.bits_0.
  destruct (Z.lt_ge_cases i n) as [Hlt|Hge].
  - assert (Z.testbit x i = false) as ->; [|reflexivity].
    assert (Hx' : x = Z.shiftl (x / 2 ^ n) n).
    { rewrite Z.shiftl_mul_pow2 by lia.
      pose proof (Z.div_mod x (2 ^ n)). lia. }
    rewrite Hx'. apply Z.shiftl_spec_low. lia.
  - assert (Z.testbit b i = false) as ->; [|apply andb_false_r].
    destruct (Z.eq_dec b 0) as [->|Hb0]; [apply Z.bits_0|].
    apply Z.bits_above_log2; [lia|].
    apply Z.log2_lt_pow2; [lia|].
    assert (2 ^ n <= 2 ^ i) by (apply Z.pow_le_mono_r; lia). lia.
Qed.

Lemma lor_low x b n :
  0 <= n -> x mod 2 ^ n = 0 -> 0 <= b < 2 ^ n -> Z.lor x b = x + b.
Proof.
  intros. symmetry. apply Z.add_nocarry_lor. eapply land_low_zero; eauto.
Qed.

Lemma land_maskx z : Z.land z utf8.maskx = z mod 64.
Proof. change utf8.maskx with (Z.ones 6). rewrite Z.land_ones by lia. reflexivity. Qed.
Lemma land_mask2 z : Z.land z utf8.mask2 = z mod 32.
Proof. change utf8.mask2 with (Z.ones 5). rewrite Z.land_ones by lia. reflexivity. Qed.
Lemma land_mask3 z : Z.land z utf8.mask3 = z mod 16.
Proof. change utf8.mask3 with (Z.ones 4). rewrite Z.land_ones by lia. reflexivity. Qed.
Lemma land_mask4 z : Z.land z utf8.mask4 = z mod 8.
Proof. change utf8.mask4 with (Z.ones 3). rewrite Z.land_ones by lia. reflexivity. Qed.

(* arithmetic reading of the decoder's results *)
Lemma rune2_arith p0 b1 :
  Z.lor (Z.shiftl (Z.land p0 utf8.mask2) 6) (Z.land b1 utf8.maskx)
  = (p0 mod 32) * 64 + b1 mod 64.
Proof.
  rewrite land_mask2, land_maskx, Z.shiftl_mul_pow2 by lia.
  apply (lor_low _ _ 6); [lia| |].
  - change (2 ^ 6) with 64. apply Z.mod_mul. lia.
  - change (2 ^ 6) with 64. apply Z.mod_pos_bound. lia.
Qed.

Ltac zmod := Z.div_mod_to_equations; lia.

Lemma rune3_arith p0 b1 b2 :
  Z.lor (Z.lor (Z.shiftl (Z.land p0 utf8.mask3) 12)
               (Z.shiftl (Z.land b1 utf8.maskx) 6))
        (Z.land b2 utf8.maskx)
  = (p0 mod 16) * 4096 + (b1 mod 64) * 64 + b2 mod 64.
Proof.
  rewrite land_mask3, !land_maskx, !Z.shiftl_mul_pow2 by lia.
  change (2 ^ 12) with 4096. change (2 ^ 6) with 64.
  rewrite (lor_low (p0 mod 16 * 4096) _ 12) by (change (2 ^ 12) with 4096; zmod).
  rewrite (lor_low _ (b2 mod 64) 6) by (change (2 ^ 6) with 64; zmod).
  reflexivity.
Qed.

Lemma rune4_arith p0 b1 b2 b3 :
  Z.lor (Z.lor (Z.lor (Z.shiftl (Z.land p0 utf8.mask4) 18)
                      (Z.shiftl (Z.land b1 utf8.maskx) 12))
               (Z.shiftl (Z.land b2 utf8.maskx) 6))
        (Z.land b3 utf8.maskx)
  = (p0 mod 8) * 262144 + (b1 mod 64) * 4096 + (b2 mod 64) * 64 + b3 mod 64.
Proof.
  rewrite land_mask4, !land_maskx, !Z.shiftl_mul_pow2 by lia.
  change (2 ^ 18) with 262144. change (2 ^ 12) with 4096. change (2 ^ 6) with 64.
  rewrite (lor_low (p0 mod 8 * 262144) _ 18) by (change (2 ^ 18) with 262144; zmod).
  rewrite (lor_low _ (b2 mod 64 * 64) 12) by (change (2 ^ 12) with 4096; zmod).
  rewrite (lor_low _ (b3 mod 64) 6) by (change (2 ^ 6) with 64; zmod).
  reflexivity.
Qed.


Lemma cont_byte y : Z.lor utf8.tx (Z.land y utf8.maskx) = 128 + y mod 64.
Proof.
  rewrite land_maskx. apply (lor_low _ _ 6); [lia|reflexivity|].
  change (2 ^ 6) with 64. zmod.
Qed.

Lemma lead2 x : 0 <= x < 32 -> Z.lor utf8.t2 x = 192 + x.
Proof. intros. apply (lor_low _ _ 5); [lia|reflexivity|]. change (2 ^ 5) with 32. lia. Qed.

Lemma lead3 x : 0 <= x < 16 -> Z.lor utf8.t3 x = 224 + x.
Proof. intros. apply (lor_low _ _ 4); [lia|reflexivity|]. change (2 ^ 4) with 16. lia. Qed.

Lemma lead4 x : 0 <= x < 8 -> Z.lor utf8.t4 x = 240 + x.
Proof. intros. apply (lor_low _ _ 3); [lia|reflexivity|]. change (2 ^ 3) with 8. lia. Qed.

Lemma byte_of_eq z c : z mod 256 = byte_val c -> byte_of z = c.
Proof.
  intros H. rewrite <- (byte_of_val c). unfold byte_of. rewrite H.
  pose proof (byte_val_range c). rewrite Z.mod_small by lia. reflexivity.
Qed.

Lemma first_cases z :
  0 <= z < 256 ->
  (z < 0x80 /\ utf8.first z = utf8.as_) \/
  ((0x80 <= z < 0xC2 \/ 0xF5 <= z) /\ utf8.first z = utf8.xx) \/
  (0xC2 <= z < 0xE0 /\ utf8.first z = utf8.s1) \/
  (z = 0xE0 /\ utf8.first z = utf8.s2) \/
  ((0xE1 <= z < 0xED \/ 0xEE <= z < 0xF0) /\ utf8.first z = utf8.s3) \/
  (z = 0xED /\ utf8.first z = utf8.s4) \/
  (z = 0xF0 /\ utf8.first z = utf8.s5) \/
  (0xF1 <= z < 0xF4 /\ utf8.first z = utf8.s6) \/
  (z = 0xF4 /\ utf8.first z = utf8.s7).
Proof.
  intros Hz. unfold utf8.first.
  repeat match goal with
  | |- context [if ?a <? ?b then _ else _] => destruct (Z.ltb_spec a b)
  | |- context [if ?a =? ?b then _ else _] => destruct (Z.eqb_spec a b)
  end; lia.
Qed.


Ltac split_cmp :=
  repeat match goal with
  | |- context [?a <=? ?b] => destruct (Z.leb_spec a b); try (exfalso; zmod); cbn [orb andb]
  | |- context [?a <? ?b] => destruct (Z.ltb_spec a b); try (exfalso; zmod); cbn [orb andb]
  end.

Ltac split_cmp_in H :=
  repeat match type of H with
  | context [?a <? ?b] => destruct (Z.ltb_spec a b); cbn [orb andb] in H
  end.


Ltac eval_in H t :=
  let v := eval vm_compute in t in change t with v in H.

Ltac eval_first H x :=
  eval_in H (utf8.as_ <=? x); cbv iota in H;
  try (eval_in H (Z.odd x); cbv iota in H);
  try (eval_in H (Z.to_nat (Z.land x 7)));
  try (eval_in H (utf8.acceptRanges (Z.shiftr x 4)); cbn [fst snd] in H).



Lemma str_app_cons c s t : String c s +:+ t = String c (s +:+ t).
Proof. reflexivity. Qed.

Lemma str_app_nil_l t : "" +:+ t = t.
Proof. reflexivity. Qed.

Ltac bad_head Hd Hv := injection Hd as <- <-; exfalso; auto.

Ltac enc_bytes :=
  rewrite ?cont_byte, ?byte_val_of, ?Z.shiftr_div_pow2 by lia;
  change (2 ^ 6) with 64; change (2 ^ 12) with 4096; change (2 ^ 18) with 262144.

Ltac byte_ranges :=
  repeat match goal with c : ascii |- _ =>
    lazymatch goal with
    | _ : 0 <= byte_val c < 256 |- _ => fail
    | _ => pose proof (byte_val_range c)
    end end.

Ltac unfold_consts :=
  unfold utf8.rune1Max, utf8.rune2Max, utf8.rune3Max, utf8.MaxRune,
    utf8.surrogateMin, utf8.surrogateMax, utf8.locb, utf8.hicb.

(* the last three conjuncts, once the head bytes are known *)
Ltac decode_rest Hf :=
  cbn [str_take String.length];
  split; [reflexivity|];
  split; [lia|];
  split;
  [ intros q; rewrite ?str_app_cons, str_app_nil_l;
    unfold utf8.DecodeRune;
    cbn [String.length Nat.ltb Nat.leb byte_at String.get];
    cbv zeta; rewrite Hf;
    match goal with |- context [utf8.as_ <=? ?x] =>
      let v := eval vm_compute in (utf8.as_ <=? x) in change (utf8.as_ <=? x) with v;
      cbv iota;
      try (let v := eval vm_compute in (Z.to_nat (Z.land x 7)) in
           change (Z.to_nat (Z.land x 7)) with v);
      try (let v := eval vm_compute in (utf8.acceptRanges (Z.shiftr x 4)) in
           change (utf8.acceptRanges (Z.shiftr x 4)) with v; cbn [fst snd])
    end;
    cbn [String.length Nat.ltb Nat.leb byte_at String.get];
    unfold_consts; split_cmp; reflexivity
  | intros _; cbn [all_high]; split_cmp; reflexivity ].


Ltac three_bytes Hd Hv Hf :=
  match type of Hd with context [String ?c0 ?p1] =>
    destruct p1 as [|?c1 [|?c2 ?p3]];
    cbn [String.length Nat.ltb Nat.leb byte_at String.get] in Hd;
    [bad_head Hd Hv | bad_head Hd Hv |]
  end;
  byte_ranges;
  split_cmp_in Hd; try (bad_head Hd Hv; fail);
  injection Hd as <- <-; rewrite rune3_arith;
  (split;
   [ unfold utf8.EncodeRune; cbv zeta; change (2 ^ 32) with 4294967296;
     unfold_consts; split_cmp; enc_bytes;
     rewrite lead3 by zmod; cbn [str_take];
     repeat f_equal; apply byte_of_eq; zmod
   | rewrite <- rune3_arith; decode_rest Hf ]).

Ltac four_bytes Hd Hv Hf :=
  match type of Hd with context [String ?c0 ?p1] =>
    destruct p1 as [|?c1 [|?c2 [|?c3 ?p4]]];
    cbn [String.length Nat.ltb Nat.leb byte_at String.get] in Hd;
    [bad_head Hd Hv | bad_head Hd Hv | bad_head Hd Hv |]
  end;
  byte_ranges;
  split_cmp_in Hd; try (bad_head Hd Hv; fail);
  injection Hd as <- <-; rewrite rune4_arith;
  (split;
   [ unfold utf8.EncodeRune; cbv zeta; change (2 ^ 32) with 4294967296;
     unfold_consts; split_cmp; enc_bytes;
     rewrite lead4 by zmod; cbn [str_take];
     repeat f_equal; apply byte_of_eq; zmod
   | rewrite <- rune4_arith; decode_rest Hf ]).

Lemma decode_valid p r size :
  p <> EmptyString ->
  utf8.DecodeRune p = (r, size) ->
  ~ (r = utf8.RuneError /\ size = 1%nat) ->
  utf8.EncodeRune r = str_take size p /\
  String.length (str_take size p) = size /\
  (1 <= size <= 4)%nat /\
  (forall q, utf8.DecodeRune (str_take size p +:+ q) = (r, size)) /\
  (0x80 <= byte_at p 0 -> all_high (str_take size p) = true).
Proof.
  intros Hne Hd Hv. destruct p as [|c0 p1]; [congruence|]. clear Hne.
  unfold utf8.DecodeRune in Hd.
  change (String.length (String c0 p1) <? 1)%nat with false in Hd. cbv iota in Hd.
  change (byte_at (String c0 p1) 0) with (byte_val c0) in *.
  pose proof (byte_val_range c0) as H0. cbv zeta in Hd.
  unfold utf8.locb, utf8.hicb in Hd.
  destruct (first_cases _ H0) as [[Hr Hf]|[[Hr Hf]|[[Hr Hf]|[[Hr Hf]|[[Hr Hf]|[[Hr Hf]|[[Hr Hf]|[[Hr Hf]|[Hr Hf]]]]]]]]];
    rewrite Hf in Hd;
    match type of Hd with context [utf8.as_ <=? ?x] => eval_first Hd x end.
  - (* one byte *)
    rewrite Z.land_0_r, Z.lor_0_r in Hd. change (Z.lnot 0) with (-1) in Hd.
    rewrite Z.land_m1_r in Hd. injection Hd as <- <-.
    split.
    { unfold utf8.EncodeRune. cbv zeta. unfold utf8.rune1Max. split_cmp.
      cbn [str_take String.length]. rewrite byte_of_val. auto. }
    cbn [str_take String.length]. split; [reflexivity|]. split; [lia|]. split; [|lia].
    intros q. rewrite str_app_cons, str_app_nil_l. unfold utf8.DecodeRune.
    cbn [String.length Nat.ltb Nat.leb byte_at String.get]. cbv zeta. rewrite Hf.
    change (utf8.as_ <=? utf8.as_) with true. cbv iota.
    change (Z.odd utf8.as_) with false. cbv iota.
    rewrite Z.land_0_r, Z.lor_0_r. change (Z.lnot 0) with (-1).
    rewrite Z.land_m1_r. reflexivity.
  - (* ill-formed lead byte *)
    exfalso. apply Hv. injection Hd as <- <-.
    change (Z.lnot (-1)) with 0. rewrite Z.land_0_r. auto.
  - (* two bytes *)
    destruct p1 as [|c1 p2]; cbn [String.length Nat.ltb Nat.leb byte_at String.get] in Hd;
      [bad_head Hd Hv|].
    byte_ranges. split_cmp_in Hd; try (bad_head Hd Hv; fail).
    injection Hd as <- <-. rewrite rune2_arith. split.
    { unfold utf8.EncodeRune; cbv zeta. change (2 ^ 32) with 4294967296.
      unfold_consts. split_cmp. enc_bytes.
      rewrite lead2 by zmod. cbn [str_take].
      repeat f_equal; apply byte_of_eq; zmod. }
    rewrite <- rune2_arith. decode_rest Hf.
  - three_bytes Hd Hv Hf.
  - three_bytes Hd Hv Hf.
  - three_bytes Hd Hv Hf.
  - four_bytes Hd Hv Hf.
  - four_bytes Hd Hv Hf.
  - four_bytes Hd Hv Hf.
Qed.

Lemma decode_take4 s : utf8.DecodeRune (str_take utf8.UTFMax s) = utf8.DecodeRune s.
Proof.
  unfold utf8.UTFMax.
  destruct s as [|c0 [|c1 [|c2 [|c3 rest]]]]; try reflexivity.
  cbn [str_take]. unfold utf8.DecodeRune.
  cbn [String.length Nat.ltb Nat.leb byte_at String.get]. cbv zeta.
  pose proof (byte_val_range c0) as H0.
  destruct (first_cases _ H0) as [[Hr Hf]|[[Hr Hf]|[[Hr Hf]|[[Hr Hf]|[[Hr Hf]|[[Hr Hf]|[[Hr Hf]|[[Hr Hf]|[Hr Hf]]]]]]]]];
    rewrite Hf; reflexivity.
Qed.

Lemma str_length_app a b : String.length (a +:+ b) = (String.length a + String.length b)%nat.
Proof. induction a as [|c a IH]; [reflexivity|]. rewrite str_app_cons. cbn [String.length]. lia. Qed.

Lemma str_app_assoc a b c : (a +:+ b) +:+ c = a +:+ (b +:+ c).
Proof. induction a as [|x a IH]; [reflexivity|]. rewrite !str_app_cons. f_equal. exact IH. Qed.

Lemma str_take_drop n s : str_take n s +:+ str_drop n s = s.
Proof.
  revert s. induction n as [|n IH]; intros [|c s]; try reflexivity.
  cbn [str_take str_drop]. rewrite str_app_cons. f_equal. apply IH.
Qed.

Lemma str_drop_app pre X : str_drop (String.length pre) (pre +:+ X) = X.
Proof. induction pre as [|c pre IH]; [reflexivity|]. rewrite str_app_cons. exact IH. Qed.

Lemma str_drop_length n s : (String.length (str_drop n s) <= String.length s - Nat.min n (String.length s))%nat.
Proof.
  revert s. induction n as [|n IH]; intros [|c s]; cbn [str_drop String.length]; try lia.
  specialize (IH s). lia.
Qed.

Lemma str_take_take n m s : (n <= m)%nat -> str_take m s = str_take n s +:+ str_take (m - n) (str_drop n s).
Proof.
  revert m s. induction n as [|n IH]; intros m s Hle.
  - cbn [str_take str_drop]. rewrite Nat.sub_0_r. destruct s; reflexivity.
  - destruct m as [|m]; [lia|].
    destruct s as [|c s]; [cbn; destruct (m - n)%nat; reflexivity|].
    cbn [str_take str_drop Nat.sub]. rewrite str_app_cons. f_equal. apply IH. lia.
Qed.


Lemma byte_val_inj c d : byte_val c = byte_val d -> c = d.
Proof. intros H. rewrite <- (byte_of_val c), <- (byte_of_val d), H. reflexivity. Qed.

Lemma ascii_eqb_val c d : Ascii.eqb c d = (byte_val c =? byte_val d).
Proof.
  destruct (Ascii.eqb_spec c d) as [->|Hne].
  - symmetry. apply Z.eqb_refl.
  - symmetry. apply Z.eqb_neq. intros H. apply Hne, byte_val_inj, H.
Qed.

Lemma scan_plain c X :
  byte_val c <> 0x22 -> byte_val c <> 0x5C -> 0x20 <= byte_val c ->
  json.scan_string (String c X) = scan_after (String c "") (json.scan_string X).
Proof.
  intros H1 H2 H3. cbn [json.scan_string]. rewrite !ascii_eqb_val.
  change (byte_val dquote) with 0x22. change (byte_val json.backslash) with 0x5C.
  destruct (Z.eqb_spec (byte_val c) 0x22); [lia|].
  destruct (Z.eqb_spec (byte_val c) 0x5C); [lia|].
  destruct (Z.ltb_spec (byte_val c) 0x20); [lia|].
  destruct (json.scan_string X) as [[? ?]|]; reflexivity.
Qed.

Lemma scan_esc2 e X :
  (byte_val e =? 0x62) || (byte_val e =? 0x66) || (byte_val e =? 0x6E) ||
  (byte_val e =? 0x72) || (byte_val e =? 0x74) || (byte_val e =? 0x5C) ||
  (byte_val e =? 0x2F) || (byte_val e =? 0x22) = true ->
  json.scan_string (String json.backslash (String e X))
  = scan_after (String json.backslash (String e "")) (json.scan_string X).
Proof.
  intros H. cbn [json.scan_string].
  change (Ascii.eqb json.backslash dquote) with false.
  change (Ascii.eqb json.backslash json.backslash) with true. cbv iota.
  rewrite H. destruct (json.scan_string X) as [[? ?]|]; reflexivity.
Qed.

Lemma scan_escu h1 h2 h3 h4 X :
  json.isHex h1 && json.isHex h2 && json.isHex h3 && json.isHex h4 = true ->
  json.scan_string (String json.backslash (String "u" (String h1 (String h2 (String h3 (String h4 X))))))
  = scan_after (String json.backslash (String "u" (String h1 (String h2 (String h3 (String h4 ""))))))
      (json.scan_string X).
Proof.
  intros H. cbn [json.scan_string].
  change (Ascii.eqb json.backslash dquote) with false.
  change (Ascii.eqb json.backslash json.backslash) with true. cbv iota.
  change (byte_val "u") with 0x75. cbn [Z.eqb Pos.eqb orb].
  rewrite H. destruct (json.scan_string X) as [[? ?]|]; reflexivity.
Qed.

Lemma hex_digit_isHex x : 0 <= x < 16 -> json.isHex (json.hex_digit x) = true /\ json.hex_val (json.hex_digit x) = x.
Proof.
  intros H.
  assert (x = 0 \/ x = 1 \/ x = 2 \/ x = 3 \/ x = 4 \/ x = 5 \/ x = 6 \/ x = 7 \/
          x = 8 \/ x = 9 \/ x = 10 \/ x = 11 \/ x = 12 \/ x = 13 \/ x = 14 \/ x = 15) as Hx by lia.
  repeat destruct Hx as [->|Hx]; try subst x; split; reflexivity.
Qed.
(** ** The JSON round trip *)

Ltac split_bools H :=
  repeat match type of H with
  | context [?a <=? ?b] => destruct (Z.leb_spec a b); cbn [orb andb negb] in H
  | context [?a <? ?b] => destruct (Z.ltb_spec a b); cbn [orb andb negb] in H
  | context [?a =? ?b] => destruct (Z.eqb_spec a b); cbn [orb andb negb] in H
  end.

Lemma htmlSafe_plain b :
  json.htmlSafeSet b = true -> b <> 0x22 /\ b <> 0x5C /\ 0x20 <= b < 0x80.
Proof. unfold json.htmlSafeSet. intros H. split_bools H; try discriminate; lia. Qed.

Lemma escape_byte_cases c :
  byte_val c < 0x80 -> json.htmlSafeSet (byte_val c) = false ->
  (json.escape_byte c = String json.backslash (String c "") /\
     (byte_val c = 0x5C \/ byte_val c = 0x22)) \/
  (exists e, json.escape_byte c = String json.backslash (String e "") /\
     ((c = "008"%char /\ e = "b"%char) \/ (c = "012"%char /\ e = "f"%char) \/
      (c = "010"%char /\ e = "n"%char) \/ (c = "013"%char /\ e = "r"%char) \/
      (c = "009"%char /\ e = "t"%char))) \/
  (json.escape_byte c =
     String json.backslash (String "u" (String "0" (String "0"
       (String (json.hex_digit (byte_val c / 16)) (String (json.hex_digit (byte_val c mod 16)) ""))))) /\
   0 <= byte_val c < 0x80).
Proof.
  intros Hb Hs. pose proof (byte_val_range c) as Hr.
  unfold json.escape_byte. cbv zeta.
  destruct (Z.eqb_spec (byte_val c) 0x5C) as [E|N1]; [left; cbn [orb]; split; [reflexivity|lia]|].
  destruct (Z.eqb_spec (byte_val c) 0x22) as [E|N2]; [left; cbn [orb]; split; [reflexivity|lia]|].
  cbn [orb].
  destruct (Z.eqb_spec (byte_val c) 0x08) as [E|N3].
  { right; left. exists "b"%char. split; [reflexivity|]. left. split; [|reflexivity].
    apply byte_val_inj. rewrite E. reflexivity. }
  destruct (Z.eqb_spec (byte_val c) 0x0C) as [E|N4].
  { right; left. exists "f"%char. split; [reflexivity|]. right; left. split; [|reflexivity].
    apply byte_val_inj. rewrite E. reflexivity. }
  destruct (Z.eqb_spec (byte_val c) 0x0A) as [E|N5].
  { right; left. exists "n"%char. split; [reflexivity|]. right; right; left. split; [|reflexivity].
    apply byte_val_inj. rewrite E. reflexivity. }
  destruct (Z.eqb_spec (byte_val c) 0x0D) as [E|N6].
  { right; left. exists "r"%char. split; [reflexivity|]. right; right; right; left. split; [|reflexivity].
    apply byte_val_inj. rewrite E. reflexivity. }
  destruct (Z.eqb_spec (byte_val c) 0x09) as [E|N7].
  { right; left. exists "t"%char. split; [reflexivity|]. right; right; right; right. split; [|reflexivity].
    apply byte_val_inj. rewrite E. reflexivity. }
  right; right. split; [|lia].
  rewrite Z.shiftr_div_pow2 by lia. change (2 ^ 4) with 16.
  change 0xF with (Z.ones 4). rewrite Z.land_ones by lia. reflexivity.
Qed.

Lemma scan_ascii_piece c X :
  byte_val c < 0x80 ->
  json.scan_string (ascii_piece c +:+ X) = scan_after (ascii_piece c) (json.scan_string X).
Proof.
  intros Hb. unfold ascii_piece. destruct (json.htmlSafeSet (byte_val c)) eqn:Hs.
  - apply htmlSafe_plain in Hs as (H1 & H2 & H3). rewrite str_app_cons, str_app_nil_l.
    apply scan_plain; lia.
  - destruct (escape_byte_cases c Hb Hs) as [[-> Hc]|[(e & -> & He)|[-> Hr]]];
      rewrite ?str_app_cons, ?str_app_nil_l.
    + apply scan_esc2. destruct Hc as [-> | ->]; reflexivity.
    + apply scan_esc2.
      destruct He as [[_ ->]|[[_ ->]|[[_ ->]|[[_ ->]|[_ ->]]]]]; reflexivity.
    + apply scan_escu.
      destruct (hex_digit_isHex (byte_val c / 16)) as [-> _]; [zmod|].
      destruct (hex_digit_isHex (byte_val c mod 16)) as [-> _]; [zmod|].
      reflexivity.
Qed.

Lemma unquote_step_plain c X m :
  byte_val c <> 0x22 -> byte_val c <> 0x5C -> 0x20 <= byte_val c < 0x80 ->
  json.unquote_loop (S m) (String c X) = json.prepend (String c "") (json.unquote_loop m X).
Proof.
  intros H1 H2 H3. cbn [json.unquote_loop]. rewrite !ascii_eqb_val.
  change (byte_val dquote) with 0x22. change (byte_val json.backslash) with 0x5C.
  unfold utf8.RuneSelf.
  destruct (Z.eqb_spec (byte_val c) 0x5C); [lia|].
  destruct (Z.eqb_spec (byte_val c) 0x22); [lia|].
  destruct (Z.ltb_spec (byte_val c) 0x20); [lia|].
  destruct (Z.ltb_spec (byte_val c) 0x80); [|lia].
  reflexivity.
Qed.

Lemma unquote_ascii_piece c X m :
  byte_val c < 0x80 ->
  json.unquote_loop (S m) (ascii_piece c +:+ X)
  = json.prepend (String c "") (json.unquote_loop m X).
Proof.
  intros Hb. unfold ascii_piece. destruct (json.htmlSafeSet (byte_val c)) eqn:Hs.
  - apply htmlSafe_plain in Hs as (H1 & H2 & H3). rewrite str_app_cons, str_app_nil_l.
    apply unquote_step_plain; lia.
  - destruct (escape_byte_cases c Hb Hs) as [[-> Hc]|[(e & -> & He)|[-> Hr]]];
      rewrite ?str_app_cons, ?str_app_nil_l.
    + cbn [json.unquote_loop].
      change (Ascii.eqb json.backslash json.backslash) with true. cbv iota zeta.
      destruct Hc as [-> | ->]; reflexivity.
    + destruct He as [[-> ->]|[[-> ->]|[[-> ->]|[[-> ->]|[-> ->]]]]]; reflexivity.
    + cbn [json.unquote_loop].
      change (Ascii.eqb json.backslash json.backslash) with true. cbv iota zeta.
      change (byte_val "u") with 0x75. cbn [Z.eqb Pos.eqb orb].
      cbn [str_drop]. unfold json.getu4.
      change (Ascii.eqb json.backslash json.backslash) with true.
      change (byte_val "u") with 0x75. cbn [Z.eqb Pos.eqb andb].
      destruct (hex_digit_isHex (byte_val c / 16)) as [-> ->]; [zmod|].
      destruct (hex_digit_isHex (byte_val c mod 16)) as [-> ->]; [zmod|].
      change (json.isHex "0") with true. change (json.hex_val "0") with 0. cbn [andb].
      replace ((((0 * 16 + 0) * 16 + byte_val c / 16) * 16 + byte_val c mod 16)) with (byte_val c) by zmod.
      destruct (Z.ltb_spec (byte_val c) 0); [lia|].
      unfold json.utf16_IsSurrogate.
      destruct (Z.leb_spec 0xD800 (byte_val c)); [lia|]. cbn [andb].
      unfold utf8.EncodeRune. cbv zeta. change (2 ^ 32) with 4294967296.
      rewrite Z.mod_small by lia. unfold utf8.rune1Max.
      destruct (Z.leb_spec (byte_val c) 0x7F); [|lia].
      rewrite byte_of_val. reflexivity.
Qed.

Lemma scan_after_app p q o : scan_after p (scan_after q o) = scan_after (p +:+ q) o.
Proof. destruct o as [[raw tail]|]; [|reflexivity]. cbn [scan_after]. rewrite str_app_assoc. reflexivity. Qed.

Lemma prepend_app p q o : json.prepend p (json.prepend q o) = json.prepend (p +:+ q) o.
Proof. destruct o as [y|]; [|reflexivity]. cbn [json.prepend]. rewrite str_app_assoc. reflexivity. Qed.

Lemma scan_high pre X :
  all_high pre = true ->
  json.scan_string (pre +:+ X) = scan_after pre (json.scan_string X).
Proof.
  induction pre as [|c pre IH]; intros H.
  - rewrite str_app_nil_l. destruct (json.scan_string X) as [[? ?]|]; reflexivity.
  - cbn [all_high] in H. apply andb_true_iff in H as [Hc Hp].
    apply Z.leb_le in Hc. rewrite str_app_cons, scan_plain by lia.
    rewrite IH by exact Hp. rewrite scan_after_app. reflexivity.
Qed.

Lemma decode_ascii c rest :
  byte_val c < 0x80 -> utf8.DecodeRune (String c rest) = (byte_val c, 1%nat).
Proof.
  intros Hb. pose proof (byte_val_range c) as Hr.
  unfold utf8.DecodeRune. cbn [String.length Nat.ltb Nat.leb byte_at String.get]. cbv zeta.
  destruct (first_cases _ Hr) as [[_ ->]|H]; [|exfalso; intuition lia].
  change (utf8.as_ <=? utf8.as_) with true. cbv iota.
  change (Z.odd utf8.as_) with false. cbv iota.
  rewrite Z.land_0_r, Z.lor_0_r. change (Z.lnot 0) with (-1). rewrite Z.land_m1_r. reflexivity.
Qed.

Lemma unquote_step_multi c pre' X m r :
  0x80 <= byte_val c ->
  utf8.DecodeRune (String c pre' +:+ X) = (r, String.length (String c pre')) ->
  utf8.EncodeRune r = String c pre' ->
  json.unquote_loop (S m) (String c pre' +:+ X)
  = json.prepend (String c pre') (json.unquote_loop m X).
Proof.
  intros Hc Hd He. pose proof (str_drop_app (String c pre') X) as Hdrop.
  rewrite str_app_cons in *. cbn [json.unquote_loop]. rewrite !ascii_eqb_val.
  change (byte_val dquote) with 0x22. change (byte_val json.backslash) with 0x5C.
  unfold utf8.RuneSelf.
  destruct (Z.eqb_spec (byte_val c) 0x5C); [lia|].
  destruct (Z.eqb_spec (byte_val c) 0x22); [lia|].
  destruct (Z.ltb_spec (byte_val c) 0x20); [lia|].
  destruct (Z.ltb_spec (byte_val c) 0x80); [lia|].
  cbn [orb]. rewrite Hd, He, Hdrop. reflexivity.
Qed.

Lemma unquote_step_u2028 X m :
  json.unquote_loop (S m) (String json.backslash (String "u" (String "2" (String "0" (String "2" (String "8" X))))))
  = json.prepend (utf8.EncodeRune 0x2028) (json.unquote_loop m X).
Proof. reflexivity. Qed.

Lemma unquote_step_u2029 X m :
  json.unquote_loop (S m) (String json.backslash (String "u" (String "2" (String "0" (String "2" (String "9" X))))))
  = json.prepend (utf8.EncodeRune 0x2029) (json.unquote_loop m X).
Proof. reflexivity. Qed.

Lemma appendString_loop_ascii n c rest :
  byte_val c < 0x80 ->
  json.appendString_loop (S n) (String c rest) = ascii_piece c +:+ json.appendString_loop n rest.
Proof.
  intros Hb. cbn [json.appendString_loop]. cbv zeta. unfold utf8.RuneSelf, ascii_piece.
  destruct (Z.ltb_spec (byte_val c) 0x80); [|lia].
  destruct (json.htmlSafeSet (byte_val c)); reflexivity.
Qed.

Lemma unquote_loop_nil m : json.unquote_loop m "" = Some "".
Proof. destruct m; reflexivity. Qed.

Lemma unquote_step_ufffd X m :
  json.unquote_loop (S m) (String json.backslash (String "u" (String "f" (String "f" (String "f" (String "d" X))))))
  = json.prepend (utf8.EncodeRune utf8.RuneError) (json.unquote_loop m X).
Proof. reflexivity. Qed.

Lemma escape_roundtrip n : forall s,
  (String.length s <= n)%nat ->
  (forall tail, json.scan_string (json.appendString_loop n s +:+ String dquote tail)
                = Some (json.appendString_loop n s, tail)) /\
  (forall m, (String.length (json.appendString_loop n s) <= m)%nat ->
             json.unquote_loop m (json.appendString_loop n s) = Some (coerce_loop n s)).
Proof.
  induction n as [|n IH]; intros s Hlen.
  - destruct s as [|c rest]; [|cbn in Hlen; lia].
    split; [reflexivity|]. intros m _. apply unquote_loop_nil.
  - destruct s as [|c rest].
    { split; [reflexivity|]. intros m _. apply unquote_loop_nil. }
    cbn [String.length] in Hlen.
    cbn [coerce_loop].
    destruct (utf8.DecodeRune (String c rest)) as [r size] eqn:Hd.
    destruct (Z.lt_ge_cases (byte_val c) 0x80) as [Hb|Hb].
    + (* an ASCII byte *)
      rewrite decode_ascii in Hd by exact Hb. injection Hd as <- <-.
      assert (Hok : (byte_val c =? utf8.RuneError) && (1 =? 1)%nat = false).
      { unfold utf8.RuneError. destruct (Z.eqb_spec (byte_val c) 0xFFFD); [lia|reflexivity]. }
      rewrite Hok. cbn [str_take str_drop].
      destruct (IH rest ltac:(lia)) as [IHs IHu].
      rewrite appendString_loop_ascii by exact Hb. split.
      * intros tail. rewrite str_app_assoc, scan_ascii_piece, IHs by exact Hb. reflexivity.
      * intros m Hm. rewrite str_length_app in Hm.
        assert (1 <= String.length (ascii_piece c))%nat.
        { unfold ascii_piece. destruct (json.htmlSafeSet (byte_val c)); [cbn; lia|].
          unfold json.escape_byte. cbv zeta.
          repeat match goal with |- context [if ?b then _ else _] => destruct b end; cbn; lia. }
        destruct m as [|m]; [lia|].
        rewrite unquote_ascii_piece, IHu by (exact Hb || lia). reflexivity.
    + pose proof (decode_take4 (String c rest)) as Hd4. rewrite Hd in Hd4.
      cbn [json.appendString_loop]. cbv zeta. unfold utf8.RuneSelf.
      destruct (Z.ltb_spec (byte_val c) 0x80); [lia|].
      rewrite Hd4.
      destruct ((r =? utf8.RuneError) && (size =? 1)%nat) eqn:Hbad.
      * (* an ill-formed byte is written as the escape of U+FFFD *)
        apply andb_true_iff in Hbad as [_ Hsz]. apply Nat.eqb_eq in Hsz. subst size.
        cbn [str_drop].
        destruct (IH rest ltac:(lia)) as [IHs IHu].
        set (e := json.appendString_loop n rest) in *.
        split.
        -- intros tail. rewrite !str_app_cons, str_app_nil_l.
           rewrite scan_escu by reflexivity. rewrite IHs. reflexivity.
        -- intros m Hm. rewrite !str_app_cons, str_app_nil_l in *.
           cbn [String.length] in Hm. destruct m as [|m]; [lia|].
           rewrite (unquote_step_ufffd e m), IHu by lia. reflexivity.
      * (* a well-formed multi-byte rune *)
        assert (Hv : ~ (r = utf8.RuneError /\ size = 1%nat)).
        { intros [-> ->]. rewrite Z.eqb_refl in Hbad. discriminate. }
        assert (Hne : String c rest <> EmptyString) by discriminate.
        destruct (decode_valid _ _ _ Hne Hd Hv) as (He & Hl & Hsz & Hloc & Hhigh).
        specialize (Hhigh Hb).
        pose proof (str_take_drop size (String c rest)) as Htd.
        pose proof (str_drop_length size (String c rest)) as Hdl.
        cbn [String.length] in Hdl.
        assert (Hrest : (String.length (str_drop size (String c rest)) <= n)%nat) by lia.
        destruct (IH _ Hrest) as [IHs IHu].
        set (e := json.appendString_loop n (str_drop size (String c rest))) in *.
        destruct ((r =? 0x2028) || (r =? 0x2029)) eqn:Hls.
        -- (* line and paragraph separators are written as escapes *)
           assert (Hpiece : String json.backslash "u202" +:+ String (json.hex_digit (Z.land r 0xF)) e
                    = String json.backslash (String "u" (String "2" (String "0" (String "2"
                        (String (json.hex_digit (Z.land r 0xF)) e)))))) by reflexivity.
           rewrite Hpiece. clear Hpiece.
           assert (Hr : r = 0x2028 \/ r = 0x2029).
           { apply orb_true_iff in Hls as [H1|H1]; apply Z.eqb_eq in H1; auto. }
           split.
           ++ intros tail. rewrite !str_app_cons.
              rewrite scan_escu by (destruct Hr as [-> | ->]; reflexivity).
              rewrite IHs. reflexivity.
           ++ intros m Hm. cbn [String.length] in Hm. destruct m as [|m]; [lia|].
              rewrite <- He.
              destruct Hr as [-> | ->].
              ** change (json.hex_digit (Z.land 0x2028 0xF)) with "8"%char.
                 rewrite (unquote_step_u2028 e m), IHu by lia. reflexivity.
              ** change (json.hex_digit (Z.land 0x2029 0xF)) with "9"%char.
                 rewrite (unquote_step_u2029 e m), IHu by lia. reflexivity.
        -- (* any other rune is copied *)
           split.
           ++ intros tail. rewrite str_app_assoc, scan_high, IHs by exact Hhigh. reflexivity.
           ++ intros m Hm. rewrite str_length_app, Hl in Hm. destruct m as [|m]; [lia|].
              assert (Hpre : exists pre', str_take size (String c rest) = String c pre').
              { destruct size as [|k]; [lia|]. cbn [str_take]. eauto. }
              destruct Hpre as [pre' Hpre].
              specialize (Hloc e). rewrite Hpre in *.
              rewrite <- Hl in Hloc.
              rewrite unquote_step_multi with (r := r); [|lia|exact Hloc|exact He].
              rewrite IHu by lia. reflexivity.
Qed.

Lemma coerce_valid n : forall s,
  (String.length s <= n)%nat -> utf8.valid_from n s = true -> coerce_loop n s = s.
Proof.
  induction n as [|n IH]; intros s Hlen Hval.
  - destruct s; [reflexivity|cbn in Hlen; lia].
  - destruct s as [|c rest]; [reflexivity|].
    cbn [String.length] in Hlen. cbn [utf8.valid_from coerce_loop] in *.
    destruct (utf8.DecodeRune (String c rest)) as [r size] eqn:Hd.
    destruct ((r =? utf8.RuneError) && (size =? 1)%nat) eqn:Hbad; [discriminate|].
    assert (Hv : ~ (r = utf8.RuneError /\ size = 1%nat)).
    { intros [-> ->]. rewrite Z.eqb_refl in Hbad. discriminate. }
    assert (Hne : String c rest <> EmptyString) by discriminate.
    destruct (decode_valid _ _ _ Hne Hd Hv) as (_ & _ & Hsz & _ & _).
    pose proof (str_drop_length size (String c rest)) as Hdl.
    cbn [String.length] in Hdl.
    rewrite IH by (lia || exact Hval). apply str_take_drop.
Qed.

Lemma coerce_utf8_valid s : utf8.ValidString s = true -> coerce_utf8 s = s.
Proof. intros H. apply coerce_valid; [lia|exact H]. Qed.

Lemma appendString_app s tail :
  json.appendString s +:+ tail
  = String dquote (json.appendString_loop (String.length s) s +:+ String dquote tail).
Proof.
  unfold json.appendString. rewrite str_app_cons, str_app_assoc, str_app_cons, str_app_nil_l.
  reflexivity.
Qed.

Lemma parse_string_value fuel depth s tail :
  json.parse_value (S fuel) depth (json.appendString s +:+ tail)
  = Some (json.Str (coerce_utf8 s), tail).
Proof.
  destruct (escape_roundtrip _ s (Nat.le_refl _)) as [Hs Hu].
  rewrite appendString_app. cbn [json.parse_value]. cbv zeta.
  change (byte_val dquote) with 0x22. cbn [Z.eqb Pos.eqb].
  rewrite Hs. unfold json.unquote. rewrite Hu by lia. reflexivity.
Qed.

Lemma plain_key_cid : plain_key "cid". Proof. split; reflexivity. Qed.
Lemma plain_key_features : plain_key "features". Proof. split; reflexivity. Qed.
Lemma plain_key_id : plain_key "id". Proof. split; reflexivity. Qed.
Lemma plain_key_type : plain_key "type". Proof. split; reflexivity. Qed.

Lemma field_key_app name rest :
  json.field_key name +:+ rest = String dquote (name +:+ String dquote (String ":" rest)).
Proof.
  unfold json.field_key. rewrite str_app_cons, str_app_assoc, str_app_cons, str_app_cons, str_app_nil_l.
  reflexivity.
Qed.

Lemma skip_space_dquote X : json.skip_space (String dquote X) = String dquote X.
Proof. reflexivity. Qed.

Lemma parse_member_next f depth name s R :
  plain_key name ->
  json.parse_members (S (S f)) depth
    (json.field_key name +:+ json.appendString s +:+ String "," (String dquote R))
  = match json.parse_members (S f) depth (String dquote R) with
    | Some (m, tail) => Some ((name, json.Str (coerce_utf8 s)) :: m, tail)
    | None => None
    end.
Proof.
  intros [Hk Hu]. rewrite field_key_app.
  cbn [json.parse_members]. change (byte_val dquote) with 0x22. cbn [Z.eqb Pos.eqb].
  rewrite Hk, Hu. cbn [json.skip_space json.isSpace]. 
  change (json.isSpace ":") with false. cbv iota.
  change (byte_val ":") with 0x3A. cbn [Z.eqb Pos.eqb].
  rewrite appendString_app. rewrite skip_space_dquote. rewrite <- appendString_app.
  rewrite parse_string_value.
  reflexivity.
Qed.

Lemma parse_member_last f depth name s tail :
  plain_key name ->
  json.parse_members (S (S f)) depth
    (json.field_key name +:+ json.appendString s +:+ String "}" tail)
  = Some ([(name, json.Str (coerce_utf8 s))], tail).
Proof.
  intros [Hk Hu]. rewrite field_key_app.
  cbn [json.parse_members]. change (byte_val dquote) with 0x22. cbn [Z.eqb Pos.eqb].
  rewrite Hk, Hu. cbn [json.skip_space json.isSpace].
  change (json.isSpace ":") with false. cbv iota.
  change (byte_val ":") with 0x3A. cbn [Z.eqb Pos.eqb].
  rewrite appendString_app. rewrite skip_space_dquote. rewrite <- appendString_app.
  rewrite parse_string_value.
  reflexivity.
Qed.

Lemma parse_encodeAsset a :
  json.parse (json.encodeAsset a)
  = Some (json.Object [("cid", json.Str (coerce_utf8 (CID a)));
                       ("features", json.Str (coerce_utf8 (Features a)));
                       ("id", json.Str (coerce_utf8 (ID a)));
                       ("type", json.Str (coerce_utf8 (Type_ a)))]).
Proof.
  unfold json.parse.
  assert (Hlen : exists k, (2 * String.length (json.encodeAsset a))%nat = S (S (S (S (S k))))).
  { exists (2 * String.length (json.encodeAsset a) - 5)%nat.
    assert (3 <= String.length (json.encodeAsset a))%nat; [|lia].
    unfold json.encodeAsset. rewrite str_app_cons, str_app_nil_l, field_key_app.
    cbn [String.length]. rewrite !str_app_cons. cbn [String.length]. lia. }
  destruct Hlen as [k ->].
  unfold json.encodeAsset.
  rewrite str_app_cons, str_app_nil_l.
  cbn [json.skip_space]. change (json.isSpace "{") with false. cbv iota.
  cbn [json.parse_value]. cbv zeta. change (byte_val "{") with 0x7B. cbn [Z.eqb Pos.eqb].
  change (json.maxNestingDepth <? 0 + 1) with false. cbv iota.
  rewrite field_key_app at 1. rewrite skip_space_dquote.
  change (byte_val dquote =? 0x7D) with false. cbv iota.
  rewrite <- field_key_app.
  rewrite !(str_app_cons "," "" _), !str_app_nil_l.
  rewrite (field_key_app "features"), parse_member_next by apply plain_key_cid.
  rewrite <- (field_key_app "features").
  rewrite (field_key_app "id"), parse_member_next by apply plain_key_features.
  rewrite <- (field_key_app "id").
  rewrite (field_key_app "type"), parse_member_next by apply plain_key_id.
  rewrite <- (field_key_app "type").
  rewrite parse_member_last by apply plain_key_type.
  reflexivity.
Qed.

Lemma Unmarshal_encodeAsset a v :
  json.Unmarshal (json.encodeAsset a) v = (coerce_asset a, None).
Proof.
  unfold json.Unmarshal. rewrite parse_encodeAsset. reflexivity.
Qed.

Lemma coerce_asset_valid a : valid_asset a = true -> coerce_asset a = a.
Proof.
  unfold valid_asset. rewrite !andb_true_iff. intros [[[Hc Hf] Hi] Ht].
  unfold coerce_asset. rewrite !coerce_utf8_valid by assumption. destruct a; reflexivity.
Qed.

Lemma encodeAsset_nonempty a : json.encodeAsset a <> "".
Proof. unfold json.encodeAsset. rewrite str_app_cons. discriminate. Qed.

(** ** The fuel of the loops is enough *)

Lemma decode_size_pos p r size :
  p <> EmptyString -> utf8.DecodeRune p = (r, size) -> (1 <= size <= 4)%nat.
Proof.
  intros Hne Hd.
  destruct ((r =? utf8.RuneError) && (size =? 1)%nat) eqn:Hbad.
  - apply andb_true_iff in Hbad as [_ H]. apply Nat.eqb_eq in H. lia.
  - assert (Hv : ~ (r = utf8.RuneError /\ size = 1%nat)).
    { intros [-> ->]. rewrite Z.eqb_refl in Hbad. discriminate. }
    destruct (decode_valid _ _ _ Hne Hd Hv) as (_ & _ & H & _). exact H.
Qed.

Lemma str_drop_shorter size c rest n :
  (1 <= size)%nat -> (S (String.length rest) <= S n)%nat ->
  (String.length (str_drop size (String c rest)) <= n)%nat.
Proof.
  intros Hs Hl. pose proof (str_drop_length size (String c rest)) as H.
  cbn [String.length] in H. lia.
Qed.

Lemma appendString_loop_fuel n : forall m s,
  (String.length s <= n)%nat -> (String.length s <= m)%nat ->
  json.appendString_loop n s = json.appendString_loop m s.
Proof.
  induction n as [|n IH]; intros m s Hn Hm.
  - destruct s; [destruct m; reflexivity|cbn in Hn; lia].
  - destruct s as [|c rest]; [destruct m; reflexivity|].
    destruct m as [|m]; [cbn in Hm; lia|].
    cbn [String.length] in Hn, Hm. cbn [json.appendString_loop]. cbv zeta.
    destruct (byte_val c <? utf8.RuneSelf).
    + rewrite (IH m rest) by lia. reflexivity.
    + rewrite decode_take4.
      destruct (utf8.DecodeRune (String c rest)) as [r size] eqn:Hd.
      assert (Hne : String c rest <> EmptyString) by discriminate.
      pose proof (decode_size_pos _ _ _ Hne Hd) as Hsz.
      rewrite (IH m (str_drop size (String c rest)))
        by (apply str_drop_shorter; lia).
      reflexivity.
Qed.

Lemma coerce_loop_fuel n : forall m s,
  (String.length s <= n)%nat -> (String.length s <= m)%nat ->
  coerce_loop n s = coerce_loop m s.
Proof.
  induction n as [|n IH]; intros m s Hn Hm.
  - destruct s; [destruct m; reflexivity|cbn in Hn; lia].
  - destruct s as [|c rest]; [destruct m; reflexivity|].
    destruct m as [|m]; [cbn in Hm; lia|].
    cbn [String.length] in Hn, Hm. cbn [coerce_loop].
    destruct (utf8.DecodeRune (String c rest)) as [r size] eqn:Hd.
    assert (Hne : String c rest <> EmptyString) by discriminate.
    pose proof (decode_size_pos _ _ _ Hne Hd) as Hsz.
    rewrite (IH m (str_drop size (String c rest))) by (apply str_drop_shorter; lia).
    rewrite (IH m (str_drop 1 (String c rest))) by (apply str_drop_shorter; lia).
    reflexivity.
Qed.

(** A string that is already well formed is left as it is, and the
    result is always well formed. *)
Lemma valid_from_fuel n : forall m s,
  (String.length s <= n)%nat -> (String.length s <= m)%nat ->
  utf8.valid_from n s = utf8.valid_from m s.
Proof.
  induction n as [|n IH]; intros m s Hn Hm.
  - destruct s; [destruct m; reflexivity|cbn in Hn; lia].
  - destruct s as [|c rest]; [destruct m; reflexivity|].
    destruct m as [|m]; [cbn in Hm; lia|].
    cbn [String.length] in Hn, Hm. cbn [utf8.valid_from].
    destruct (utf8.DecodeRune (String c rest)) as [r size] eqn:Hd.
    assert (Hne : String c rest <> EmptyString) by discriminate.
    pose proof (decode_size_pos _ _ _ Hne Hd) as Hsz.
    rewrite (IH m (str_drop size (String c rest))) by (apply str_drop_shorter; lia).
    reflexivity.
Qed.

Lemma str_drop_le k s : (String.length (str_drop k s) <= String.length s)%nat.
Proof. pose proof (str_drop_length k s). lia. Qed.

Lemma unquote_loop_fuel n : forall m s,
  (String.length s <= n)%nat -> (String.length s <= m)%nat ->
  json.unquote_loop n s = json.unquote_loop m s.
Proof.
  induction n as [|n IH]; intros m s Hn Hm.
  - destruct s; [destruct m; reflexivity|cbn in Hn; lia].
  - destruct s as [|c rest]; [destruct m; reflexivity|].
    destruct m as [|m]; [cbn in Hm; lia|].
    cbn [String.length] in Hn, Hm. cbn [json.unquote_loop]. cbv zeta.
    destruct (Ascii.eqb c json.backslash).
    + destruct rest as [|e rest1]; [reflexivity|]. cbn [String.length] in Hn, Hm.
      pose proof (str_drop_le 4 rest1) as H4.
      pose proof (str_drop_le 6 (str_drop 4 rest1)) as H6.
      change (str_drop 6 (String c (String e rest1))) with (str_drop 4 rest1).
      repeat match goal with
      | |- context [if ?b then _ else _] => destruct b
      end; try reflexivity; f_equal; apply IH; lia.
    + destruct (Ascii.eqb c dquote || (byte_val c <? 32)); [reflexivity|].
      destruct (byte_val c <? utf8.RuneSelf).
      * f_equal. apply IH; lia.
      * destruct (utf8.DecodeRune (String c rest)) as [r size] eqn:Hd.
        assert (Hne : String c rest <> EmptyString) by discriminate.
        pose proof (decode_size_pos _ _ _ Hne Hd) as Hsz.
        f_equal. apply IH; apply str_drop_shorter; lia.
Qed.

Ltac break_if :=
  match goal with
  | |- context [if ?b then _ else _] => destruct b eqn:?
  | H : context [if ?b then _ else _] |- _ => destruct b eqn:?
  end.

Lemma skip_space_le s : (String.length (json.skip_space s) <= String.length s)%nat.
Proof.
  induction s as [|c s IH]; cbn [json.skip_space String.length]; [lia|].
  destruct (json.isSpace c); cbn [String.length]; lia.
Qed.

Lemma scan_string_lt_aux n : forall s raw t,
  (String.length s <= n)%nat ->
  json.scan_string s = Some (raw, t) -> (String.length t < String.length s)%nat.
Proof.
  induction n as [|n IH]; intros s raw t Hn H;
    (destruct s as [|c rest]; [discriminate|]); [cbn in Hn; lia|].
  cbn [String.length] in Hn.
  cbn [json.scan_string] in H. cbn [String.length].
  destruct (Ascii.eqb c dquote); [injection H as _ <-; lia|].
  destruct (Ascii.eqb c json.backslash).
  - destruct rest as [|e rest1]; [discriminate|]. cbv zeta in H. cbn [String.length].
    break_if.
    + destruct (json.scan_string rest1) as [[raw1 t1]|] eqn:E; [|discriminate].
      injection H as _ <-. apply IH in E; cbn [String.length] in *; lia.
    + break_if; [|discriminate].
      destruct rest1 as [|h1 [|h2 [|h3 [|h4 rest5]]]]; try discriminate.
      break_if; [|discriminate].
      destruct (json.scan_string rest5) as [[raw1 t1]|] eqn:E; [|discriminate].
      injection H as _ <-. apply IH in E; cbn [String.length] in *; lia.
  - break_if; [discriminate|].
    destruct (json.scan_string rest) as [[raw1 t1]|] eqn:E; [|discriminate].
    injection H as _ <-. apply IH in E; cbn [String.length] in *; lia.
Qed.

Lemma scan_string_lt s raw t :
  json.scan_string s = Some (raw, t) -> (String.length t < String.length s)%nat.
Proof. apply (scan_string_lt_aux (String.length s)). lia. Qed.

Lemma skip_digits_le s : (String.length (json.skip_digits s) <= String.length s)%nat.
Proof.
  induction s as [|c s IH]; cbn [json.skip_digits String.length]; [lia|].
  destruct (json.isDigit c); cbn [String.length]; lia.
Qed.

Lemma scan_exp_le s t : json.scan_exp s = Some t -> (String.length t <= String.length s)%nat.
Proof.
  unfold json.scan_exp. destruct s as [|c rest]; [intros [= <-]; lia|].
  break_if; [|intros [= <-]; lia].
  destruct rest as [|g rest']; [discriminate|].
  break_if.
  - destruct rest' as [|d rest2]; [discriminate|]. break_if; [|discriminate].
    intros [= <-]. pose proof (skip_digits_le rest2). cbn [String.length]. lia.
  - break_if; [|discriminate].
    intros [= <-]. pose proof (skip_digits_le rest'). cbn [String.length]. lia.
Qed.

Lemma scan_frac_le s t : json.scan_frac s = Some t -> (String.length t <= String.length s)%nat.
Proof.
  unfold json.scan_frac. destruct s as [|c rest]; [intros [= <-]; lia|].
  break_if; [|apply scan_exp_le].
  destruct rest as [|d rest1]; [discriminate|]. break_if; [|discriminate].
  intros H. apply scan_exp_le in H. pose proof (skip_digits_le rest1).
  cbn [String.length]. lia.
Qed.

Lemma scan_number_lt s t : json.scan_number s = Some t -> (String.length t < String.length s)%nat.
Proof.
  unfold json.scan_number. destruct s as [|c rest]; [discriminate|].
  destruct (byte_val c =? 45).
  - destruct rest as [|c1 rest1]; [discriminate|]. cbn [String.length].
    break_if; [intros H; apply scan_frac_le in H; lia|].
    break_if; [|discriminate].
    intros H. apply scan_frac_le in H. pose proof (skip_digits_le rest1). lia.
  - cbn [String.length].
    break_if; [intros H; apply scan_frac_le in H; lia|].
    break_if; [|discriminate].
    intros H. apply scan_frac_le in H. pose proof (skip_digits_le rest). lia.
Qed.

Lemma scan_literal_le lit : forall s t,
  json.scan_literal lit s = Some t -> (String.length t <= String.length s)%nat.
Proof.
  induction lit as [|l lit IH]; intros s t H; cbn [json.scan_literal] in H.
  - injection H as <-. lia.
  - destruct s as [|c rest]; [discriminate|]. break_if; [|discriminate].
    apply IH in H. cbn [String.length]. lia.
Qed.

Ltac destruct_match_in H :=
  match type of H with
  | context [match ?x with _ => _ end] => destruct x eqn:?; try discriminate
  end.

Ltac scanner_facts :=
  repeat match goal with
  | E : json.scan_string _ = Some (_, _) |- _ => apply scan_string_lt in E
  | E : json.scan_number _ = Some _ |- _ => apply scan_number_lt in E
  | E : json.scan_literal _ _ = Some _ |- _ => apply scan_literal_le in E
  | E : json.skip_space ?r = _ |- _ =>
      let H := fresh "Hsp" in
      pose proof (skip_space_le r) as H; rewrite E in H; clear E
  end.

Lemma parse_consumes n :
  (forall d s v t, json.parse_value n d s = Some (v, t) ->
     (String.length t < String.length s)%nat) /\
  (forall d s m t, json.parse_members n d s = Some (m, t) ->
     (String.length t < String.length s)%nat) /\
  (forall d s l t, json.parse_elements n d s = Some (l, t) ->
     (String.length t < String.length s)%nat).
Proof.
  induction n as [|n (IHv & IHm & IHe)]; [repeat split; intros; discriminate|].
  repeat split.
  - intros d s v t H. destruct s as [|c rest]; [discriminate|].
    cbn [json.parse_value] in H. cbv zeta in H.
    repeat destruct_match_in H; injection H as <- <-;
      repeat match goal with
      | E : json.parse_members n _ _ = Some _ |- _ => apply IHm in E
      | E : json.parse_elements n _ _ = Some _ |- _ => apply IHe in E
      end; scanner_facts; cbn [String.length] in *; lia.
  - intros d s m t H. destruct s as [|c rest]; [discriminate|].
    cbn [json.parse_members] in H.
    repeat destruct_match_in H; injection H as <- <-;
      repeat match goal with
      | E : json.parse_value n _ _ = Some _ |- _ => apply IHv in E
      | E : json.parse_members n _ _ = Some _ |- _ => apply IHm in E
      end; scanner_facts;
      repeat match goal with
      | H : context [json.skip_space ?r] |- _ =>
          lazymatch goal with
          | _ : (String.length (json.skip_space r) <= String.length r)%nat |- _ => fail
          | _ => pose proof (skip_space_le r)
          end
      end; cbn [String.length] in *; lia.
  - intros d s l t H. cbn [json.parse_elements] in H.
    repeat destruct_match_in H; injection H as <- <-;
      repeat match goal with
      | E : json.parse_value n _ _ = Some _ |- _ => apply IHv in E
      | E : json.parse_elements n _ _ = Some _ |- _ => apply IHe in E
      end; scanner_facts;
      repeat match goal with
      | H : context [json.skip_space ?r] |- _ =>
          lazymatch goal with
          | _ : (String.length (json.skip_space r) <= String.length r)%nat |- _ => fail
          | _ => pose proof (skip_space_le r)
          end
      end; cbn [String.length] in *; lia.
Qed.

Ltac pose_skip_space :=
  repeat match goal with
  | |- context [json.skip_space ?r] =>
      lazymatch goal with
      | _ : (String.length (json.skip_space r) <= String.length r)%nat |- _ => fail
      | _ => pose proof (skip_space_le r)
      end
  | _ : context [json.skip_space ?r] |- _ =>
      lazymatch goal with
      | _ : (String.length (json.skip_space r) <= String.length r)%nat |- _ => fail
      | _ => pose proof (skip_space_le r)
      end
  end.

Ltac parse_facts :=
  repeat match goal with
  | E : json.parse_value ?k _ _ = Some (_, _) |- _ =>
      apply (proj1 (parse_consumes k)) in E
  | E : json.parse_members ?k _ _ = Some (_, _) |- _ =>
      apply (proj1 (proj2 (parse_consumes k))) in E
  | E : json.parse_elements ?k _ _ = Some (_, _) |- _ =>
      apply (proj2 (proj2 (parse_consumes k))) in E
  end;
  scanner_facts; pose_skip_space; cbn [String.length] in *; lia.

Ltac destruct_match :=
  match goal with
  | |- context [match ?x with _ => _ end] => destruct x eqn:?
  end.

Lemma parse_fuel n : forall m,
  (forall d s, (2 * String.length s < n)%nat -> (2 * String.length s < m)%nat ->
     json.parse_value n d s = json.parse_value m d s) /\
  (forall d s, (2 * String.length s < n)%nat -> (2 * String.length s < m)%nat ->
     json.parse_members n d s = json.parse_members m d s) /\
  (forall d s, (2 * String.length s + 1 < n)%nat -> (2 * String.length s + 1 < m)%nat ->
     json.parse_elements n d s = json.parse_elements m d s).
Proof.
  induction n as [|n IH]; intros m; [repeat split; intros; lia|].
  destruct m as [|m]; [repeat split; intros; lia|].
  destruct (IH m) as (IHv & IHm & IHe). clear IH.
  repeat split.
  - intros d s Hn Hm. destruct s as [|c rest]; [reflexivity|].
    cbn [json.parse_value]. cbv zeta.
    repeat first
      [ reflexivity
      | rewrite IHm by parse_facts
      | rewrite IHe by parse_facts
      | destruct_match ].
  - intros d s Hn Hm. destruct s as [|c rest]; [reflexivity|].
    cbn [json.parse_members].
    repeat first
      [ reflexivity
      | rewrite IHv by parse_facts
      | rewrite IHm by parse_facts
      | destruct_match ].
  - intros d s Hn Hm. cbn [json.parse_elements].
    repeat first
      [ reflexivity
      | rewrite IHv by parse_facts
      | rewrite IHe by parse_facts
      | destruct_match ].
Qed.

(** With more fuel than [parse] gives it the parser returns the same. *)
Lemma parse_value_enough_fuel data n :
  (2 * String.length data < n)%nat ->
  json.parse_value n 0 (json.skip_space data)
  = json.parse_value (S (2 * String.length data)) 0 (json.skip_space data).
Proof.
  intros H. pose proof (skip_space_le data).
  apply (proj1 (parse_fuel n (S (2 * String.length data)))); lia.
Qed.

(** ** The ledger in memory pages through every world state *)

Lemma ltb_false_of_le a b : String.le a b -> String.ltb b a = false.
Proof.
  unfold String.le, String.leb, String.ltb. intros H.
  rewrite String.compare_antisym.
  destruct (String.compare a b); cbn in *; try reflexivity. contradiction.
Qed.

Lemma ltb_true_of_le_ne a b : String.le a b -> a <> b -> String.ltb a b = true.
Proof.
  unfold String.le, String.leb, String.ltb. intros H Hne.
  destruct (String.compare a b) eqn:E; cbn in *; try reflexivity; try contradiction.
  apply String.compare_eq_iff in E. contradiction.
Qed.

#[local] Instance kv_le_trans : Transitive kv_le.
Proof. intros x y z. unfold kv_le. apply transitivity. Qed.

#[local] Instance kv_le_total : Total kv_le.
Proof. intros x y. unfold kv_le. apply total, _. Qed.

Lemma entries_sorted m : StronglySorted key_le (entries m).
Proof.
  unfold entries.
  pose proof (StronglySorted_merge_sort kv_le (map_to_list (world m))) as H.
  induction H as [|x l Hl IH Hx]; cbn [List.map]; constructor.
  - exact IH.
  - clear -Hx. induction Hx as [|y l Hy _ IH]; cbn [List.map]; constructor; assumption.
Qed.

Lemma entries_keys m : List.map Key (entries m) ≡ₚ List.map fst (map_to_list (world m)).
Proof.
  unfold entries. rewrite List.map_map. cbn [Key].
  apply Permutation_map. apply merge_sort_Permutation.
Qed.

Lemma entries_nodup m : NoDup (List.map Key (entries m)).
Proof.
  rewrite entries_keys. apply (NoDup_fst_map_to_list (world m)).
Qed.

Lemma entries_key_in m kv : In kv (entries m) -> world m !! Key kv <> None.
Proof.
  intros Hin. assert (Hk : In (Key kv) (List.map Key (entries m))) by (apply in_map; exact Hin).
  apply list_elem_of_In in Hk. rewrite entries_keys in Hk.
  apply list_elem_of_fmap in Hk as ([k v] & Hkey & Hkv). cbn in Hkey. subst.
  apply elem_of_map_to_list in Hkv. rewrite Hkv. discriminate.
Qed.

Lemma filter_after_key l pre x post :
  l = pre ++ x :: post ->
  StronglySorted key_le l -> NoDup (List.map Key l) ->
  List.filter (fun kv => String.ltb (Key x) (Key kv)) l = post.
Proof.
  intros -> Hs Hn. rewrite List.filter_app. cbn [List.filter].
  assert (Hpre : List.filter (fun kv => String.ltb (Key x) (Key kv)) pre = []).
  { rewrite (List.filter_ext_in _ (fun _ => false)); [apply List.filter_false|].
    intros y Hy. apply ltb_false_of_le.
    apply (StronglySorted_app_1_elem_of key_le pre (x :: post) y x Hs).
    - apply list_elem_of_In. exact Hy.
    - left. }
  rewrite Hpre. cbn [app].
  rewrite (ltb_false_of_le (Key x) (Key x)) by reflexivity.
  apply StronglySorted_app_1_r in Hs. apply StronglySorted_cons in Hs as [Hx _].
  rewrite List.map_app in Hn. apply NoDup_app in Hn as (_ & _ & Hn).
  cbn [List.map] in Hn. apply NoDup_cons in Hn as [Hn _].
  rewrite (List.filter_ext_in _ (fun _ => true)); [apply List.filter_true|].
  intros z Hz. apply ltb_true_of_le_ne.
  - rewrite Forall_forall in Hx. apply Hx. apply list_elem_of_In. exact Hz.
  - intros E. apply Hn. rewrite E. apply list_elem_of_In, in_map, Hz.
Qed.

Lemma all_ok_of_map kvs : all_ok (List.map Ok kvs) = Some kvs.
Proof. induction kvs as [|kv kvs IH]; cbn; [reflexivity|]. rewrite IH. reflexivity. Qed.

Lemma page_through_step {P A : Type} (call : string -> option P)
    (recs : P -> list A) (stop : string -> P -> bool) (next : P -> string) fuel bm :
  page_through call recs stop next (S fuel) bm
  = match call bm with
    | None => None
    | Some p =>
        if stop bm p then Some (recs p)
        else
          match page_through call recs stop next fuel (next p) with
          | Some l => Some (recs p ++ l)
          | None => None
          end
    end.
Proof. reflexivity. Qed.

Lemma ok_page_mem_page m ps bm :
  fault m = None ->
  ok_page (mem_page m ps bm)
  = Some (take (Z.to_nat ps) (entries_after bm (entries m)),
          mkMetadata (Z.of_nat (length (take (Z.to_nat ps) (entries_after bm (entries m)))))
            (match last (take (Z.to_nat ps) (entries_after bm (entries m))) with
             | Some kv => Key kv
             | None => bm
             end)).
Proof.
  intros Hf. unfold mem_page, ok_page. rewrite Hf. cbn [pending].
  rewrite all_ok_of_map. reflexivity.
Qed.

Section MemPaging.
Variable w : gmap string bytes.
Variable ps : Z.
Hypothesis no_empty_key : w !! "" = None.
Hypothesis ps_pos : 0 < ps.

Let m : MemStub := mkMem w None.

Variable stop : string -> list KV * QueryResponseMetadata -> bool.
Hypothesis stop_spec : forall bm p md,
  GetFetchedRecordsCount md = Z.of_nat (length p) ->
  stop bm (p, md) = (Z.of_nat (length p) =? 0) && String.eqb (GetBookmark md) bm.

Lemma mem_pages_from (k : nat) : forall done rest bm,
  entries m = done ++ rest ->
  entries_after bm (entries m) = rest ->
  (length rest <= k)%nat ->
  page_through (fun b => ok_page (mem_page m ps b)) fst stop
    (fun p => GetBookmark (snd p)) (S k) bm = Some rest.
Proof.
  induction k as [|k IH]; intros done rest bm Hl Hafter Hlen;
    rewrite page_through_step, ok_page_mem_page by reflexivity;
    rewrite Hafter; cbn [fst snd]; rewrite stop_spec by reflexivity.
  - destruct rest; [|cbn in Hlen; lia]. rewrite take_nil. cbn.
    rewrite String.eqb_refl. reflexivity.
  - destruct rest as [|x rest0].
    { rewrite take_nil. cbn. rewrite String.eqb_refl. reflexivity. }
    set (n := Z.to_nat ps). assert (Hn : (1 <= n)%nat) by (unfold n; lia).
    set (p := take n (x :: rest0)).
    assert (Hp : exists init y, p = init ++ [y]).
    { destruct (last p) as [y|] eqn:E.
      - apply last_Some in E as [init ->]. eauto.
      - apply last_None in E. unfold p in E. destruct n; [lia|discriminate]. }
    destruct Hp as (init & y & Hp).
    assert (Hlast : last p = Some y) by (rewrite Hp; apply last_snoc).
    rewrite Hlast. cbn [GetBookmark].
    assert (Hplen : (1 <= length p)%nat).
    { rewrite Hp, length_app. cbn. lia. }
    destruct (Z.eqb_spec (Z.of_nat (length p)) 0) as [E|_]; [lia|]. cbn [andb].
    assert (Hsplit : entries m = (done ++ init) ++ y :: drop n (x :: rest0)).
    { rewrite Hl, <- (take_drop n (x :: rest0)) at 1. fold p. rewrite Hp.
      rewrite <- !app_assoc. reflexivity. }
    assert (Hy : Key y <> "").
    { intros E. apply (entries_key_in m y).
      - rewrite Hsplit. apply in_or_app. right. left. reflexivity.
      - rewrite E. exact no_empty_key. }
    rewrite (IH (done ++ p) (drop n (x :: rest0)) (Key y)).
    + cbn [fst]. unfold p. rewrite take_drop. reflexivity.
    + rewrite Hl, <- (take_drop n (x :: rest0)) at 1. fold p.
      rewrite app_assoc. reflexivity.
    + unfold entries_after.
      destruct (String.eqb_spec (Key y) "") as [E|_]; [contradiction|].
      apply (filter_after_key _ _ _ _ Hsplit (entries_sorted m) (entries_nodup m)).
    + rewrite length_drop. cbn [length] in *. lia.
Qed.

Lemma mem_pages_all :
  page_through (fun b => ok_page (mem_page m ps b)) fst stop
    (fun p => GetBookmark (snd p)) (S (length (entries m))) "" = Some (entries m).
Proof. apply (mem_pages_from _ [] (entries m) ""); [reflexivity|reflexivity|lia]. Qed.

End MemPaging.


Lemma int32_id x : - 2 ^ 31 <= x < 2 ^ 31 -> int32 x = x.
Proof. unfold int32. intros H. zmod. Qed.


(** ** The iterator loop *)

Lemma drain_iterator_ok rm um kvs : forall acc cl,
  Forall decodes kvs ->
  drain_iterator rm um acc (List.map Ok kvs) cl
  = (mkIterator [] cl, Ok (acc ++ List.map decode_kv kvs)).
Proof.
  induction kvs as [|kv kvs IH]; intros acc cl Hall; cbn [List.map drain_iterator].
  - rewrite app_nil_r. reflexivity.
  - inversion Hall as [|? ? Hkv Hrest]; subst. unfold decodes in Hkv.
    unfold decode_kv at 1.
    destruct (json.Unmarshal (Value kv) zeroAsset) as [asset o]. cbn in Hkv. subst o.
    rewrite IH by exact Hrest. rewrite <- app_assoc. reflexivity.
Qed.

Lemma drain_iterator_bad rm um pre bad rest e : forall acc cl,
  Forall decodes pre ->
  snd (json.Unmarshal (Value bad) zeroAsset) = Some e ->
  drain_iterator rm um acc (List.map Ok pre ++ Ok bad :: rest) cl
  = (mkIterator rest cl, Err (Errorf_w um e)).
Proof.
  induction pre as [|kv pre IH]; intros acc cl Hall Hbad; cbn [List.map app drain_iterator].
  - destruct (json.Unmarshal (Value bad) zeroAsset) as [asset o]. cbn in Hbad. subst o.
    reflexivity.
  - inversion Hall as [|? ? Hkv Hrest]; subst. unfold decodes in Hkv.
    destruct (json.Unmarshal (Value kv) zeroAsset) as [asset o]. cbn in Hkv. subst o.
    apply IH; assumption.
Qed.

Lemma all_ok_map pend kvs : all_ok pend = Some kvs -> pend = List.map Ok kvs.
Proof.
  revert kvs. induction pend as [|[kv|e] pend IH]; intros kvs H; cbn in H.
  - injection H as <-. reflexivity.
  - destruct (all_ok pend) as [l|]; [|discriminate]. injection H as <-.
    cbn. f_equal. apply IH. reflexivity.
  - discriminate.
Qed.

Lemma decodesb_Forall l : forallb decodesb l = true -> Forall decodes l.
Proof.
  induction l as [|kv l IH]; cbn; intros H; constructor.
  - apply andb_true_iff in H as [H _]. unfold decodesb in H. unfold decodes.
    destruct (snd (json.Unmarshal (Value kv) zeroAsset)); [discriminate|reflexivity].
  - apply IH. apply andb_true_iff in H as [_ H]. exact H.
Qed.

(** ** The ledger in memory is lawful *)

#[export] Instance MemStub_lawful : LawfulStub MemStub.
Proof.
  split.
  - intros s s' k v H _. cbn in *. destruct (fault s); [discriminate|].
    injection H as <-. cbn. rewrite lookup_insert_eq. reflexivity.
  - intros s s' k k' v H Hne. cbn in *. destruct (fault s); [discriminate|].
    injection H as <-. cbn. rewrite lookup_insert_ne by congruence. reflexivity.
Qed.

Lemma ParseAssetType_ok raw ty :
  Main.ParseAssetType raw = Ok ty -> ty = raw /\ (raw = "PDF" \/ raw = "PE").
Proof.
  unfold Main.ParseAssetType.
  destruct (String.eqb_spec raw "PDF") as [->|_]; [intros [= <-]; auto|].
  destruct (String.eqb_spec raw "PE") as [->|_]; [intros [= <-]; auto|].
  discriminate.
Qed.

Lemma ParseAssetType_bad raw :
  raw <> "PDF" -> raw <> "PE" -> Main.ParseAssetType raw = Err (InvalidEnumValue raw).
Proof.
  intros H1 H2. unfold Main.ParseAssetType.
  destruct (String.eqb_spec raw "PDF"); [contradiction|].
  destruct (String.eqb_spec raw "PE"); [contradiction|]. reflexivity.
Qed.

(** * The properties of the specification *)

(** C1 (as amended).  Create, then exists and read.  For every
    [(cid, id, typeRaw, features)] whose strings are well-formed UTF-8,
    with [typeRaw] a recognized tag and nothing stored under [cid], on a
    ledger that accepts the write: [CreateAsset] succeeds, and on the
    ledger it leaves [AssetExists cid] is true and [GetAsset cid] is the
    asset with exactly the four values passed. *)
Theorem C1_create_then_read {L : Type} {stub : ChaincodeStub L} {lawful : LawfulStub L}
    (s s' : L) (cid id typeRaw features : string) (ty : AssetType) :
  Main.ParseAssetType typeRaw = Ok ty ->
  GetState s cid = Ok None ->
  utf8.ValidString cid = true ->
  utf8.ValidString id = true ->
  utf8.ValidString features = true ->
  PutState s cid (json.encodeAsset (mkAsset cid features id ty)) = (s', None) ->
  Main.CreateAsset s cid id typeRaw features = (s', None) /\
  Main.AssetExists s' cid = Ok true /\
  Main.GetAsset s' cid = Ok (mkAsset cid features id typeRaw).
Proof.
  intros Hty Habsent Hc Hi Hf Hput.
  destruct (ParseAssetType_ok _ _ Hty) as [-> Htag].
  pose proof (get_put_same _ _ _ _ Hput (encodeAsset_nonempty _)) as Hget.
  split; [|split].
  - unfold Main.CreateAsset, Main.AssetExists. rewrite Habsent, Hty.
    cbn [json.Marshal]. rewrite Hput. reflexivity.
  - unfold Main.AssetExists. rewrite Hget. reflexivity.
  - unfold Main.GetAsset. rewrite Hget, Unmarshal_encodeAsset.
    rewrite coerce_asset_valid; [reflexivity|].
    unfold valid_asset. cbn [CID Features ID Type_]. rewrite Hc, Hi, Hf.
    destruct Htag as [-> | ->]; reflexivity.
Qed.

Lemma C1_scenario_A :
  Main.CreateAsset ledger0 "CID_0" "ASSET_0" "PDF" "[]" = (ledgerA, None) /\
  Main.AssetExists ledgerA "CID_0" = Ok true /\
  Main.GetAsset ledgerA "CID_0" = Ok (mkAsset "CID_0" "[]" "ASSET_0" "PDF").
Proof.
  apply (@C1_create_then_read MemStub MemStub_stub MemStub_lawful
           ledger0 ledgerA "CID_0" "ASSET_0" "PDF" "[]" "PDF");
    vm_compute; reflexivity.
Defined.

(** C1, as stated, fails on a string that is not well-formed UTF-8:
    [Marshal] writes the byte 0xFF as the escape of U+FFFD, so the asset
    read back differs from the one written. *)
Lemma C1_ill_formed_not_identity :
  Main.ParseAssetType "PDF" = Ok "PDF" /\
  GetState ledger0 "CID_0" = Ok None /\
  Main.CreateAsset ledger0 "CID_0" "ASSET_0" "PDF" ill_formed
  = (mem_of [("CID_0", json.encodeAsset (mkAsset "CID_0" ill_formed "ASSET_0" "PDF"))], None) /\
  Main.GetAsset
    (mem_of [("CID_0", json.encodeAsset (mkAsset "CID_0" ill_formed "ASSET_0" "PDF"))])
    "CID_0"
  = Ok (mkAsset "CID_0" replacement "ASSET_0" "PDF") /\
  replacement <> ill_formed.
Proof.
  repeat split; try (vm_compute; reflexivity). discriminate.
Qed.

(** C2.  For every [cid] already present, [CreateAsset] fails with
    [ErrAssetExists]; the ledger it returns is the one it was given (no
    [PutState] was called), so the record under [cid] is unchanged. *)
Theorem C2_create_existing_rejected {L : Type} {stub : ChaincodeStub L}
    (s : L) (cid id typeRaw features : string) (v : bytes) :
  GetState s cid = Ok (Some v) ->
  Main.CreateAsset s cid id typeRaw features = (s, Some ErrAssetExists) /\
  GetState (fst (Main.CreateAsset s cid id typeRaw features)) cid = Ok (Some v).
Proof.
  intros H. unfold Main.CreateAsset, Main.AssetExists. rewrite H. cbn [fst]. auto.
Qed.

Lemma C2_scenario_B :
  Main.CreateAsset ledgerA "CID_0" "ASSET_9" "PE" "[1]" = (ledgerA, Some ErrAssetExists) /\
  GetState (fst (Main.CreateAsset ledgerA "CID_0" "ASSET_9" "PE" "[1]")) "CID_0"
  = Ok (Some (json.encodeAsset assetA)).
Proof.
  apply (@C2_create_existing_rejected MemStub MemStub_stub ledgerA
           "CID_0" "ASSET_9" "PE" "[1]" (json.encodeAsset assetA)).
  vm_compute. reflexivity.
Defined.

(** C3 (as amended).  In the enum-typed contract, for every [typeRaw]
    that is none of the recognized tags and every absent [cid],
    [CreateAsset] fails with the parse error carrying [typeRaw]; the
    ledger it returns is the one it was given, and [AssetExists cid] is
    still false. *)
Theorem C3_unrecognized_type_rejected {L : Type} {stub : ChaincodeStub L}
    (s : L) (cid id typeRaw features : string) :
  typeRaw <> "PDF" -> typeRaw <> "PE" ->
  GetState s cid = Ok None ->
  Main.CreateAsset s cid id typeRaw features
  = (s, Some (Errorf_w "parse asset type" (InvalidEnumValue typeRaw))) /\
  Main.AssetExists (fst (Main.CreateAsset s cid id typeRaw features)) cid = Ok false.
Proof.
  intros H1 H2 Habsent. unfold Main.CreateAsset, Main.AssetExists.
  rewrite Habsent, (ParseAssetType_bad _ H1 H2). cbn [fst]. rewrite Habsent. auto.
Qed.

Lemma C3_scenario_C :
  Main.CreateAsset ledger0 "CID_0" "ASSET_0" "EXE" "[]"
  = (ledger0, Some (Errorf_w "parse asset type" (InvalidEnumValue "EXE"))) /\
  Main.AssetExists (fst (Main.CreateAsset ledger0 "CID_0" "ASSET_0" "EXE" "[]")) "CID_0"
  = Ok false.
Proof.
  apply (@C3_unrecognized_type_rejected MemStub MemStub_stub ledger0
           "CID_0" "ASSET_0" "EXE" "[]"); [discriminate|discriminate|].
  vm_compute. reflexivity.
Defined.

(** C3, as stated, fails on the earlier contract: its [CreateAsset]
    keeps the type as a free string, parses nothing, and writes the
    record of an unrecognized type. *)
Lemma C3_earlier_contract_accepts :
  GetState ledger0 "ASSET_0" = Ok None /\
  Chaincode.CreateAsset ledger0 "ASSET_0" "CID_0" "EXE" "[]"
  = (mem_of [("ASSET_0", json.encodeAsset (mkAsset "CID_0" "[]" "ASSET_0" "EXE"))], None) /\
  Chaincode.AssetExists
    (fst (Chaincode.CreateAsset ledger0 "ASSET_0" "CID_0" "EXE" "[]")) "ASSET_0"
  = Ok true.
Proof. repeat split; vm_compute; reflexivity. Qed.

(** ** Paging through the engine and on the ledger *)

Lemma page_through_sim {P1 P2 A B : Type}
    (call1 : string -> option P1) (call2 : string -> option P2)
    (recs1 : P1 -> list A) (recs2 : P2 -> list B)
    (stop1 : string -> P1 -> bool) (stop2 : string -> P2 -> bool)
    (next1 : P1 -> string) (next2 : P2 -> string)
    (good : A -> Prop) (g : A -> B) :
  (forall bm p1, call1 bm = Some p1 -> Forall good (recs1 p1) ->
     exists p2, call2 bm = Some p2 /\ recs2 p2 = List.map g (recs1 p1) /\
                stop2 bm p2 = stop1 bm p1 /\ next2 p2 = next1 p1) ->
  forall fuel bm all,
    page_through call1 recs1 stop1 next1 fuel bm = Some all ->
    Forall good all ->
    page_through call2 recs2 stop2 next2 fuel bm = Some (List.map g all).
Proof.
  intros Hsim. induction fuel as [|fuel IH]; intros bm all Hrun Hgood; [discriminate|].
  cbn [page_through] in *.
  destruct (call1 bm) as [p1|] eqn:Hc1; [|discriminate].
  destruct (stop1 bm p1) eqn:Hstop.
  - injection Hrun as <-.
    destruct (Hsim _ _ Hc1 Hgood) as (p2 & -> & Hr & Hs & _).
    rewrite Hs, Hstop, Hr. reflexivity.
  - destruct (page_through call1 recs1 stop1 next1 fuel (next1 p1)) as [l|] eqn:Hrest;
      [|discriminate].
    injection Hrun as <-. apply Forall_app in Hgood as [Hg1 Hg2].
    destruct (Hsim _ _ Hc1 Hg1) as (p2 & -> & Hr & Hs & Hn).
    rewrite Hs, Hstop, Hn, (IH _ _ Hrest Hg2), Hr, List.map_app. reflexivity.
Qed.

Lemma query_page_sim {L : Type} {stub : ChaincodeStub L} (ctx : L) q pageSize bm p1 :
  ok_page (GetQueryResultWithPagination ctx q (int32 pageSize) bm) = Some p1 ->
  Forall decodes (fst p1) ->
  exists p2, ok_result (snd (Main.QueryAssets ctx q pageSize bm)) = Some p2 /\
    Main.Records p2 = List.map decode_kv (fst p1) /\
    ((Main.FetchedRecordsCount p2 =? 0) && String.eqb (Main.Bookmark p2) bm)
    = store_stop bm p1 /\
    Main.Bookmark p2 = GetBookmark (snd p1).
Proof.
  intros Hpage Hgood. unfold ok_page in Hpage.
  unfold Main.QueryAssets, Main.getQueryResultForQueryStringWithPagination,
    Main.constructQueryResponseFromIterator.
  destruct (GetQueryResultWithPagination ctx q (int32 pageSize) bm) as [[it md]|e];
    [|discriminate].
  destruct (all_ok (pending it)) as [kvs|] eqn:Hok; [|discriminate].
  injection Hpage as <-. cbn [fst snd] in *.
  rewrite (all_ok_map _ _ Hok), drain_iterator_ok by exact Hgood.
  eexists. split; [reflexivity|]. cbn. auto.
Qed.

Lemma range_page_sim {L : Type} {stub : ChaincodeStub L} (ctx : L) pageSize bm p1 :
  ok_page (GetStateByRangeWithPagination ctx "" "" pageSize bm) = Some p1 ->
  Forall decodes (fst p1) ->
  exists p2, ok_result (snd (ChaincodeRange.ReadAssets ctx pageSize bm)) = Some p2 /\
    ChaincodeRange.Assets p2 = List.map decode_kv (fst p1) /\
    ((Z.of_nat (length (ChaincodeRange.Assets p2)) =? 0) &&
     String.eqb (ChaincodeRange.Bookmark p2) bm)
    = range_stop bm p1 /\
    ChaincodeRange.Bookmark p2 = GetBookmark (snd p1).
Proof.
  intros Hpage Hgood. unfold ok_page in Hpage. unfold ChaincodeRange.ReadAssets.
  destruct (GetStateByRangeWithPagination ctx "" "" pageSize bm) as [[it md]|e];
    [|discriminate].
  destruct (all_ok (pending it)) as [kvs|] eqn:Hok; [|discriminate].
  injection Hpage as <-. cbn [fst snd] in *.
  rewrite (all_ok_map _ _ Hok), drain_iterator_ok by exact Hgood.
  eexists. split; [reflexivity|]. unfold range_stop. cbn.
  rewrite length_map. auto.
Qed.

Lemma query_pages_refine {L : Type} {stub : ChaincodeStub L}
    (ctx : L) (q : string) (pageSize : Z) (fuel : nat) (bm : string) (all : list KV) :
  query_pages_store ctx q pageSize fuel bm = Some all ->
  Forall decodes all ->
  query_pages ctx q pageSize fuel bm = Some (List.map decode_kv all).
Proof.
  intros Hstore Hgood. unfold query_pages.
  eapply (page_through_sim _ _ fst Main.Records store_stop _ _ _ decodes decode_kv);
    [|exact Hstore|exact Hgood].
  intros b p1 H1 H2. apply query_page_sim; assumption.
Qed.

Lemma range_pages_refine {L : Type} {stub : ChaincodeStub L}
    (ctx : L) (pageSize : Z) (fuel : nat) (bm : string) (all : list KV) :
  range_pages_store ctx pageSize fuel bm = Some all ->
  Forall decodes all ->
  range_pages ctx pageSize fuel bm = Some (List.map decode_kv all).
Proof.
  intros Hstore Hgood. unfold range_pages.
  eapply (page_through_sim _ _ fst ChaincodeRange.Assets range_stop _ _ _ decodes decode_kv);
    [|exact Hstore|exact Hgood].
  intros b p1 H1 H2. apply range_page_sim; assumption.
Qed.

(** On the ledger in memory the premise of the paging property holds for
    every world state without an empty key and every positive page
    size: its pages, chained, are its unbounded scan; so the pages of
    the contract are that scan, decoded. *)
Lemma MemStub_pages_are_the_scan (w : gmap string bytes) (q : string) (pageSize : Z) :
  w !! "" = None ->
  0 < pageSize < 2 ^ 31 ->
  query_pages_store (mkMem w None) q pageSize (S (length (entries (mkMem w None)))) ""
  = unbounded_query (mkMem w None) q /\
  range_pages_store (mkMem w None) pageSize (S (length (entries (mkMem w None)))) ""
  = unbounded_range (mkMem w None) /\
  unbounded_range (mkMem w None) = Some (entries (mkMem w None)).
Proof.
  intros Hw Hps.
  assert (Hscan : all_ok (List.map Ok (entries (mkMem w None))) = Some (entries (mkMem w None)))
    by apply all_ok_of_map.
  unfold unbounded_query, unbounded_range, query_pages_store, range_pages_store.
  cbn [GetQueryResult GetStateByRange GetQueryResultWithPagination
       GetStateByRangeWithPagination MemStub_stub mem_scan fault pending].
  rewrite Hscan, int32_id by lia. repeat split.
  - apply mem_pages_all; [exact Hw|lia|]. intros bm p md H. unfold store_stop.
    cbn [snd]. rewrite H. reflexivity.
  - apply mem_pages_all; [exact Hw|lia|]. intros bm p md H. reflexivity.
Qed.

Lemma MemStub_paging_complete (w : gmap string bytes) (q : string) (pageSize : Z) :
  w !! "" = None ->
  0 < pageSize < 2 ^ 31 ->
  Forall decodes (entries (mkMem w None)) ->
  query_pages (mkMem w None) q pageSize (S (length (entries (mkMem w None)))) ""
  = Some (List.map decode_kv (entries (mkMem w None))) /\
  range_pages (mkMem w None) pageSize (S (length (entries (mkMem w None)))) ""
  = Some (List.map decode_kv (entries (mkMem w None))).
Proof.
  intros Hw Hps Hgood.
  destruct (MemStub_pages_are_the_scan w q pageSize Hw Hps) as (Hq & Hr & Hall).
  assert (Hallq : unbounded_query (mkMem w None) q = Some (entries (mkMem w None))) by exact Hall.
  rewrite Hallq in Hq. rewrite Hall in Hr. split.
  - apply query_pages_refine; assumption.
  - apply range_pages_refine; assumption.
Qed.



(** C5.  When the first [n - 1] values of the iterator decode and the
    [n]-th does not, [QueryAssets] and [ReadAssets] stop there: the
    iterator is left with what follows the [n]-th item, it has been
    closed once, and the result is the decoding error alone, with no
    page. *)
Theorem C5_decode_failure_aborts {L : Type} {stub : ChaincodeStub L}
    (ctx : L) (q : string) (pageSize : Z) (bookmark : string)
    (it : StateQueryIterator) (md : QueryResponseMetadata)
    (pre : list KV) (bad : KV) (rest : list (result KV)) (e : error) :
  Forall decodes pre ->
  snd (json.Unmarshal (Value bad) zeroAsset) = Some e ->
  pending it = List.map Ok pre ++ Ok bad :: rest ->
  (GetQueryResultWithPagination ctx q (int32 pageSize) bookmark = Ok (it, md) ->
   Main.QueryAssets ctx q pageSize bookmark
   = (Some (mkIterator rest (S (closed it))), Err (Errorf_w "unmarshal asset" e))) /\
  (GetStateByRangeWithPagination ctx "" "" pageSize bookmark = Ok (it, md) ->
   ChaincodeRange.ReadAssets ctx pageSize bookmark
   = (Some (mkIterator rest (S (closed it))), Err (Errorf_w "failed to unmarshal asset" e))).
Proof.
  intros Hpre Hbad Hpend. split; intros Hcall.
  - unfold Main.QueryAssets, Main.getQueryResultForQueryStringWithPagination,
      Main.constructQueryResponseFromIterator.
    rewrite Hcall, Hpend, (drain_iterator_bad _ _ _ _ _ e) by assumption. reflexivity.
  - unfold ChaincodeRange.ReadAssets.
    rewrite Hcall, Hpend, (drain_iterator_bad _ _ _ _ _ e) by assumption. reflexivity.
Qed.

Lemma C5_garbled_second_value :
  Main.QueryAssets ledger_garbled "" 3 ""
  = (Some (mkIterator [Ok (mkKV "CID_2" (json.encodeAsset (asset_n "2")))] 1),
     Err (Errorf_w "unmarshal asset" SyntaxError)) /\
  ChaincodeRange.ReadAssets ledger_garbled 3 ""
  = (Some (mkIterator [Ok (mkKV "CID_2" (json.encodeAsset (asset_n "2")))] 1),
     Err (Errorf_w "failed to unmarshal asset" SyntaxError)).
Proof.
  destruct (@C5_decode_failure_aborts MemStub MemStub_stub ledger_garbled "" 3 ""
              (mkIterator (List.map Ok (entries ledger_garbled)) 0) (mkMetadata 3 "CID_2")
              [mkKV "CID_0" (json.encodeAsset assetA)] (mkKV "CID_1" "not json")
              [Ok (mkKV "CID_2" (json.encodeAsset (asset_n "2")))] SyntaxError)
    as [Hq Hr].
  - apply decodesb_Forall. vm_compute. reflexivity.
  - vm_compute. reflexivity.
  - vm_compute. reflexivity.
  - split; [apply Hq|apply Hr]; vm_compute; reflexivity.
Defined.

(** C6.  When every value of the iterator decodes, the paginated query
    returns every decoded record in iterator order, however many there
    are, with the fetched count and the bookmark the ledger reported,
    untouched; the iterator is drained and has been closed once. *)
Theorem C6_page_is_the_iterator {L : Type} {stub : ChaincodeStub L}
    (ctx : L) (q : string) (pageSize : Z) (bookmark : string)
    (it : StateQueryIterator) (md : QueryResponseMetadata) (kvs : list KV) :
  pending it = List.map Ok kvs ->
  Forall decodes kvs ->
  GetQueryResultWithPagination ctx q pageSize bookmark = Ok (it, md) ->
  Main.getQueryResultForQueryStringWithPagination ctx q pageSize bookmark
  = (Some (mkIterator [] (S (closed it))),
     Ok {| Main.Records := List.map decode_kv kvs;
           Main.FetchedRecordsCount := GetFetchedRecordsCount md;
           Main.Bookmark := GetBookmark md |}).
Proof.
  intros Hpend Hgood Hcall.
  unfold Main.getQueryResultForQueryStringWithPagination,
    Main.constructQueryResponseFromIterator.
  rewrite Hcall, Hpend, drain_iterator_ok by exact Hgood. reflexivity.
Qed.

Lemma C6_first_page_of_two :
  Main.getQueryResultForQueryStringWithPagination ledger5 "" 2 ""
  = (Some (mkIterator [] 1),
     Ok {| Main.Records := [asset_n "0"; asset_n "1"];
           Main.FetchedRecordsCount := 2;
           Main.Bookmark := "CID_1" |}).
Proof.
  apply (@C6_page_is_the_iterator MemStub MemStub_stub ledger5 "" 2 ""
           (mkIterator (List.map Ok (take 2 (entries ledger5))) 0)
           (mkMetadata 2 "CID_1") (take 2 (entries ledger5))).
  - reflexivity.
  - apply decodesb_Forall. vm_compute. reflexivity.
  - vm_compute. reflexivity.
Defined.

(** C7 (as amended).  [AssetExists] is true exactly when [GetState]
    returns a slice that is not nil -- an empty slice that is not nil
    counts as present; a nil slice gives false with no error; an error
    of the read is returned, wrapped.  So it is in both contracts. *)
Theorem C7_exists_iff_not_nil {L : Type} {stub : ChaincodeStub L} (ctx : L) (key : string) :
  (Main.AssetExists ctx key = Ok true <-> exists v, GetState ctx key = Ok (Some v)) /\
  (GetState ctx key = Ok None -> Main.AssetExists ctx key = Ok false) /\
  (forall e, GetState ctx key = Err e ->
     Main.AssetExists ctx key = Err (Errorf_w "read from ledger state" e)) /\
  (Chaincode.AssetExists ctx key = Ok true <-> exists v, GetState ctx key = Ok (Some v)) /\
  (GetState ctx key = Ok None -> Chaincode.AssetExists ctx key = Ok false) /\
  (forall e, GetState ctx key = Err e ->
     Chaincode.AssetExists ctx key = Err (Errorf_w "failed to read from world state" e)).
Proof.
  unfold Main.AssetExists, Chaincode.AssetExists.
  destruct (GetState ctx key) as [[v|]|e0]; repeat split;
    try discriminate; try reflexivity; eauto;
    try (intros [v' Hv']; discriminate);
    try (intros e' [= ->]; reflexivity).
Qed.

(** C7, as stated, fails where the ledger hands out a value of no
    bytes: the key is reported present. *)
Lemma C7_empty_value_is_present :
  ~ (Main.AssetExists ledger_empty_value "CID_0" = Ok true <->
     exists v, GetState ledger_empty_value "CID_0" = Ok (Some v) /\ v <> "").
Proof.
  intros [H _]. destruct H as (v & Hv & Hne); [vm_compute; reflexivity|].
  vm_compute in Hv. injection Hv as <-. apply Hne. reflexivity.
Qed.

(** On a ledger that hands out no empty value, present and non-empty
    are the same thing. *)
Lemma AssetExists_non_empty {L : Type} {stub : ChaincodeStub L} (ctx : L) (key : string) :
  (forall k, GetState ctx k <> Ok (Some "")) ->
  (Main.AssetExists ctx key = Ok true <->
   exists v, GetState ctx key = Ok (Some v) /\ v <> "").
Proof.
  intros Hne. unfold Main.AssetExists. specialize (Hne key).
  destruct (GetState ctx key) as [[v|]|e0]; split;
    try discriminate; try (intros (v' & Hv' & _); discriminate); try reflexivity.
  intros _. exists v. split; [reflexivity|]. intros ->. apply Hne. reflexivity.
Qed.

(** C8.  The point read ([GetAsset], and [ReadAsset] of the earlier
    contract): when [GetState] returns nil it fails with [ErrNotFound];
    when the bytes stored decode as an [Asset] it returns that asset;
    and it returns an asset only for a key that holds bytes.  (A value
    of no bytes that is not nil is not absent: it fails to decode.) *)
Theorem C8_read_found_or_not {L : Type} {stub : ChaincodeStub L} (ctx : L) (cid : string) :
  (GetState ctx cid = Ok None ->
     Main.GetAsset ctx cid = Err ErrNotFound /\
     Chaincode.ReadAsset ctx cid = Err ErrNotFound) /\
  (forall b a, GetState ctx cid = Ok (Some b) ->
     json.Unmarshal b zeroAsset = (a, None) ->
     Main.GetAsset ctx cid = Ok a /\ Chaincode.ReadAsset ctx cid = Ok a) /\
  (forall a, Main.GetAsset ctx cid = Ok a \/ Chaincode.ReadAsset ctx cid = Ok a ->
     exists b, GetState ctx cid = Ok (Some b)) /\
  (GetState ctx cid = Ok (Some "") ->
     Main.GetAsset ctx cid = Err (Errorf_w "unmarshal asset" SyntaxError)).
Proof.
  unfold Main.GetAsset, Chaincode.ReadAsset. split; [|split; [|split]].
  - intros ->. auto.
  - intros b a -> ->. auto.
  - intros a H. destruct (GetState ctx cid) as [[b|]|e0]; [eauto| |];
      destruct H as [H|H]; discriminate.
  - intros ->. reflexivity.
Qed.

(** C9.  On every successful [CreateAsset] the ledger returned is the
    one [PutState] returned for the one call made, with the key [cid]
    and the value [Marshal] of the asset; that value holds an object
    with the members cid, features, id, type in this order and no
    other; [Marshal] cannot fail and is a function of the asset; every
    other key reads as before. *)
Theorem C9_one_write_under_cid {L : Type} {stub : ChaincodeStub L} {lawful : LawfulStub L}
    (s s' : L) (cid id typeRaw features : string) :
  Main.CreateAsset s cid id typeRaw features = (s', None) ->
  exists ty, Main.ParseAssetType typeRaw = Ok ty /\
    json.Marshal (mkAsset cid features id ty)
    = Ok (json.encodeAsset (mkAsset cid features id ty)) /\
    PutState s cid (json.encodeAsset (mkAsset cid features id ty)) = (s', None) /\
    GetState s' cid = Ok (Some (json.encodeAsset (mkAsset cid features id ty))) /\
    (forall k, k <> cid -> GetState s' k = GetState s k) /\
    json.encodeAsset (mkAsset cid features id ty)
    = "{" +:+ json.field_key "cid" +:+ json.appendString cid +:+
      "," +:+ json.field_key "features" +:+ json.appendString features +:+
      "," +:+ json.field_key "id" +:+ json.appendString id +:+
      "," +:+ json.field_key "type" +:+ json.appendString ty +:+ "}" /\
    json.parse (json.encodeAsset (mkAsset cid features id ty))
    = Some (json.Object [("cid", json.Str (coerce_utf8 cid));
                         ("features", json.Str (coerce_utf8 features));
                         ("id", json.Str (coerce_utf8 id));
                         ("type", json.Str ty)]).
Proof.
  unfold Main.CreateAsset. intros H.
  destruct (Main.AssetExists s cid) as [[|]|e0]; try discriminate.
  destruct (Main.ParseAssetType typeRaw) as [ty|e0] eqn:Hty; [|discriminate].
  cbn [json.Marshal] in H.
  destruct (PutState s cid (json.encodeAsset (mkAsset cid features id ty)))
    as [s1 [e1|]] eqn:Hput; [discriminate|].
  injection H as ->. exists ty.
  split; [reflexivity|]. split; [reflexivity|]. split; [exact Hput|].
  split; [|split; [|split; [reflexivity|]]].
  - exact (get_put_same _ _ _ _ Hput (encodeAsset_nonempty _)).
  - intros k Hk. exact (get_put_other _ _ _ _ _ Hput Hk).
  - rewrite parse_encodeAsset. cbn [CID Features ID Type_].
    destruct (ParseAssetType_ok _ _ Hty) as [-> [-> | ->]]; reflexivity.
Qed.

Lemma C9_scenario_A_write :
  exists ty, Main.ParseAssetType "PDF" = Ok ty /\
    json.Marshal (mkAsset "CID_0" "[]" "ASSET_0" ty)
    = Ok (json.encodeAsset (mkAsset "CID_0" "[]" "ASSET_0" ty)) /\
    PutState ledger0 "CID_0" (json.encodeAsset (mkAsset "CID_0" "[]" "ASSET_0" ty))
    = (ledgerA, None) /\
    GetState ledgerA "CID_0"
    = Ok (Some (json.encodeAsset (mkAsset "CID_0" "[]" "ASSET_0" ty))) /\
    (forall k, k <> "CID_0" -> GetState ledgerA k = GetState ledger0 k) /\
    json.encodeAsset (mkAsset "CID_0" "[]" "ASSET_0" ty)
    = "{" +:+ json.field_key "cid" +:+ json.appendString "CID_0" +:+
      "," +:+ json.field_key "features" +:+ json.appendString "[]" +:+
      "," +:+ json.field_key "id" +:+ json.appendString "ASSET_0" +:+
      "," +:+ json.field_key "type" +:+ json.appendString ty +:+ "}" /\
    json.parse (json.encodeAsset (mkAsset "CID_0" "[]" "ASSET_0" ty))
    = Some (json.Object [("cid", json.Str (coerce_utf8 "CID_0"));
                         ("features", json.Str (coerce_utf8 "[]"));
                         ("id", json.Str (coerce_utf8 "ASSET_0"));
                         ("type", json.Str ty)]).
Proof.
  apply (@C9_one_write_under_cid MemStub MemStub_stub MemStub_lawful
           ledger0 ledgerA "CID_0" "ASSET_0" "PDF" "[]").
  vm_compute. reflexivity.
Defined.


(** The ledger in memory sees 2 for a page size of 2^32 + 2, and a
    negative size, hence an empty page, for 2^31. *)
Example QueryAssets_wraps_page_size :
  snd (Main.QueryAssets ledger5 "" (2 ^ 32 + 2) "")
  = Ok {| Main.Records := [asset_n "0"; asset_n "1"];
          Main.FetchedRecordsCount := 2; Main.Bookmark := "CID_1" |} /\
  int32 (2 ^ 31) = - 2 ^ 31 /\
  snd (Main.QueryAssets ledger5 "" (2 ^ 31) "")
  = Ok {| Main.Records := []; Main.FetchedRecordsCount := 0; Main.Bookmark := "" |}.
Proof. repeat split; vm_compute; reflexivity. Qed.

(** * Further properties of the code *)
(** * The seeding endpoints *)

Lemma rounds_spec i : 0 <= i < 100 <-> In i rounds.
Proof.
  unfold rounds. rewrite in_map_iff. split.
  - intros H. exists (Z.to_nat i). split; [lia|]. apply in_seq. lia.
  - intros (n & <- & Hn). apply in_seq in Hn. lia.
Qed.

Lemma seeded_key_inj i j :
  0 <= i < 100 -> 0 <= j < 100 -> seeded_key i = seeded_key j -> i = j.
Proof.
  intros Hi Hj.
  assert (H : forallb (fun a => forallb (fun b =>
                implb (String.eqb (seeded_key a) (seeded_key b)) (a =? b)) rounds) rounds
              = true) by (vm_compute; reflexivity).
  rewrite forallb_forall in H. specialize (H i (proj1 (rounds_spec i) Hi)).
  rewrite forallb_forall in H. specialize (H j (proj1 (rounds_spec j) Hj)).
  intros Heq. rewrite Heq, String.eqb_refl in H. cbn in H. lia.
Qed.

Lemma seeded_valid i : 0 <= i < 100 -> valid_asset (seeded i) = true.
Proof.
  intros Hi.
  assert (H : forallb (fun a => valid_asset (seeded a)) rounds = true)
    by (vm_compute; reflexivity).
  rewrite forallb_forall in H. apply H, rounds_spec, Hi.
Qed.

Lemma types_index i :
  0 <= i -> slice_index Seeding.types (Z.rem i 2) = Some (if Z.even i then "PDF" else "PE").
Proof.
  intros Hi. rewrite Z.rem_mod_nonneg by lia.
  rewrite (Zeven_mod i). 
  assert (H : i mod 2 = 0 \/ i mod 2 = 1) by (Z.div_mod_to_equations; lia).
  destruct H as [-> | ->]; reflexivity.
Qed.

(** One round of [SeedLedger] on an absent key, on a ledger that takes
    the write. *)
Lemma seed_round {L : Type} {stub : ChaincodeStub L} (s s' : L) (i : Z) :
  GetState s (seeded_key i) = Ok None ->
  PutState s (seeded_key i) (json.encodeAsset (seeded i)) = (s', None) ->
  Chaincode.CreateAsset s (ID (seeded i)) (CID (seeded i)) (Type_ (seeded i))
    (Features (seeded i)) = (s', None).
Proof.
  intros Hget Hput. unfold Chaincode.CreateAsset, Chaincode.AssetExists.
  change (ID (seeded i)) with (seeded_key i). rewrite Hget. cbn [json.Marshal].
  change (json.encodeAsset _) with (json.encodeAsset (seeded i)).
  rewrite Hput. reflexivity.
Qed.

Lemma SeedLedger_loop_step {L : Type} {stub : ChaincodeStub L} (n : nat) (i : Z) (s : L) :
  0 <= i ->
  Seeding.SeedLedger_loop (S n) i s
  = match Chaincode.CreateAsset s (ID (seeded i)) (CID (seeded i)) (Type_ (seeded i))
            (Features (seeded i)) with
    | (s', Some err) => Some (s', Some (Errorf_w "failed to create asset" err))
    | (s', None) => Seeding.SeedLedger_loop n (i + 1) s'
    end.
Proof.
  intros Hi. cbn [Seeding.SeedLedger_loop]. rewrite types_index by exact Hi. reflexivity.
Qed.

(** The rounds [i .. i + n - 1] on a ledger where their keys are absent
    and writes are accepted. *)
Lemma SeedLedger_loop_ok {L : Type} {stub : ChaincodeStub L} {lawful : LawfulStub L}
    (good : L -> Prop) {acc : AcceptsWrites good} (n : nat) :
  forall (i : Z) (s : L),
    0 <= i -> i + Z.of_nat n <= 100 ->
    good s ->
    (forall j, i <= j < i + Z.of_nat n -> GetState s (seeded_key j) = Ok None) ->
    exists s', Seeding.SeedLedger_loop n i s = Some (s', None) /\ good s' /\
      (forall j, i <= j < i + Z.of_nat n ->
         GetState s' (seeded_key j) = Ok (Some (json.encodeAsset (seeded j)))) /\
      (forall k, (forall j, i <= j < i + Z.of_nat n -> k <> seeded_key j) ->
         GetState s' k = GetState s k).
Proof.
  induction n as [|n IH]; intros i s Hi Hn Hgood Habs.
  - exists s. split; [reflexivity|]. split; [exact Hgood|]. split; [intros j Hj; lia|auto].
  - rewrite SeedLedger_loop_step by exact Hi.
    destruct (put_accepted s (seeded_key i) (json.encodeAsset (seeded i)) Hgood)
      as (s1 & Hput & Hgood1).
    rewrite (seed_round s s1 i) by (try apply Habs; try exact Hput; lia).
    destruct (IH (i + 1) s1) as (s' & Hrun & Hgood' & Hin & Hout);
      [lia|lia|exact Hgood1| |].
    { intros j Hj. rewrite (get_put_other _ _ _ _ _ Hput); [apply Habs; lia|].
      intros Heq. apply seeded_key_inj in Heq; lia. }
    exists s'. split; [exact Hrun|]. split; [exact Hgood'|]. split.
    + intros j Hj. destruct (Z.eq_dec j i) as [->|Hne].
      * rewrite Hout.
        -- exact (get_put_same _ _ _ _ Hput (encodeAsset_nonempty _)).
        -- intros j Hj' Heq. apply seeded_key_inj in Heq; lia.
      * apply Hin. lia.
    + intros k Hk. rewrite Hout by (intros j Hj; apply Hk; lia).
      apply (get_put_other _ _ _ _ _ Hput). apply Hk. lia.
Qed.

Lemma SeedLedger_loop_app {L : Type} {stub : ChaincodeStub L} (a b : nat) :
  forall (i : Z) (s : L),
    Seeding.SeedLedger_loop (a + b) i s
    = match Seeding.SeedLedger_loop a i s with
      | Some (s', None) => Seeding.SeedLedger_loop b (i + Z.of_nat a) s'
      | other => other
      end.
Proof.
  induction a as [|a IH]; intros i s.
  - cbn [Nat.add Seeding.SeedLedger_loop]. rewrite Z.add_0_r. reflexivity.
  - cbn [Nat.add Seeding.SeedLedger_loop].
    destruct (slice_index Seeding.types (Z.rem i 2)) as [ty|]; [|reflexivity].
    cbv zeta.
    destruct (Chaincode.CreateAsset _ _ _ _ _) as [s1 [e|]]; [reflexivity|].
    rewrite IH. replace (i + 1 + Z.of_nat a) with (i + Z.of_nat (S a)) by lia. reflexivity.
Qed.

Lemma ReadAsset_stored {L : Type} {stub : ChaincodeStub L} (s : L) (k : string) (a : Asset) :
  GetState s k = Ok (Some (json.encodeAsset a)) ->
  Chaincode.ReadAsset s k = Ok (coerce_asset a).
Proof.
  intros H. unfold Chaincode.ReadAsset. rewrite H, Unmarshal_encodeAsset. reflexivity.
Qed.

Lemma seeded_key_dec (k : string) :
  {i | 0 <= i < 100 /\ k = seeded_key i} + {forall i, 0 <= i < 100 -> k <> seeded_key i}.
Proof.
  destruct (List.find (fun i => String.eqb k (seeded_key i)) rounds) as [i|] eqn:Hf.
  - left. exists i. apply find_some in Hf as [Hin Heq].
    split; [apply rounds_spec, Hin|apply String.eqb_eq, Heq].
  - right. intros i Hi Heq.
    pose proof (find_none _ _ Hf i (proj1 (rounds_spec i) Hi)) as H. cbn in H.
    rewrite Heq, String.eqb_refl in H. discriminate.
Qed.

#[export] Instance MemStub_lawful_del : LawfulDel MemStub.
Proof.
  split; cbn; intros s s' k.
  - destruct (fault s); intros [= <-]; cbn. rewrite lookup_delete_eq. reflexivity.
  - intros k'. destruct (fault s); intros [= <-] Hne; cbn.
    rewrite lookup_delete_ne by congruence. reflexivity.
Qed.

#[export] Instance MemStub_accepts_writes : AcceptsWrites sound.
Proof.
  split. intros s k v Hs. unfold sound in Hs. cbn. rewrite Hs. eexists. split; reflexivity.
Qed.

#[export] Instance MemStub_accepts_deletes : AcceptsDeletes sound.
Proof.
  split. intros s k Hs. unfold sound in Hs. cbn. rewrite Hs. eexists. split; reflexivity.
Qed.

(** What a successful [CreateAsset] of the earlier contract did. *)
Lemma Chaincode_CreateAsset_inv {L : Type} {stub : ChaincodeStub L}
    (s s' : L) (id cid ty features : string) :
  Chaincode.CreateAsset s id cid ty features = (s', None) ->
  GetState s id = Ok None /\
  PutState s id (json.encodeAsset (mkAsset cid features id ty)) = (s', None).
Proof.
  unfold Chaincode.CreateAsset, Chaincode.AssetExists. intros H.
  destruct (GetState s id) as [[v|]|e]; try discriminate.
  cbn [json.Marshal] in H.
  destruct (PutState s id _) as [s1 [e|]]; [discriminate|].
  injection H as ->. split; reflexivity.
Qed.

(** What successful rounds [i .. i + n - 1] did. *)
Lemma SeedLedger_loop_inv {L : Type} {stub : ChaincodeStub L} {lawful : LawfulStub L}
    (n : nat) :
  forall (i : Z) (s s' : L),
    0 <= i -> i + Z.of_nat n <= 100 ->
    Seeding.SeedLedger_loop n i s = Some (s', None) ->
    (forall j, i <= j < i + Z.of_nat n -> GetState s (seeded_key j) = Ok None) /\
    (forall j, i <= j < i + Z.of_nat n ->
       GetState s' (seeded_key j) = Ok (Some (json.encodeAsset (seeded j)))) /\
    (forall k, (forall j, i <= j < i + Z.of_nat n -> k <> seeded_key j) ->
       GetState s' k = GetState s k).
Proof.
  induction n as [|n IH]; intros i s s' Hi Hn Hrun.
  - injection Hrun as ->. repeat split; auto; intros j Hj; lia.
  - rewrite SeedLedger_loop_step in Hrun by exact Hi.
    destruct (Chaincode.CreateAsset s _ _ _ _) as [s1 [e|]] eqn:Hc; [discriminate|].
    apply Chaincode_CreateAsset_inv in Hc as [Hget Hput].
    change (ID (seeded i)) with (seeded_key i) in Hget, Hput.
    change (json.encodeAsset _) with (json.encodeAsset (seeded i)) in Hput.
    destruct (IH (i + 1) s1 s') as (Habs & Hin & Hout); [lia|lia|exact Hrun|].
    assert (Hsep : forall j, i + 1 <= j < i + 1 + Z.of_nat n -> seeded_key i <> seeded_key j).
    { intros j Hj Heq. apply seeded_key_inj in Heq; lia. }
    split; [|split].
    + intros j Hj. destruct (Z.eq_dec j i) as [->|Hne]; [exact Hget|].
      rewrite <- (get_put_other _ _ _ _ _ Hput); [apply Habs; lia|].
      intros Heq. symmetry in Heq. revert Heq. apply Hsep. lia.
    + intros j Hj. destruct (Z.eq_dec j i) as [->|Hne]; [|apply Hin; lia].
      rewrite Hout by exact Hsep.
      exact (get_put_same _ _ _ _ Hput (encodeAsset_nonempty _)).
    + intros k Hk. rewrite Hout by (intros j Hj; apply Hk; lia).
      apply (get_put_other _ _ _ _ _ Hput). apply Hk. lia.
Qed.

Lemma DeleteSeededAssets_loop_inv {L : Type} {stub : ChaincodeStub L}
    {del : ChaincodeStubDel L} {lawful : LawfulDel L} (n : nat) :
  forall (i : Z) (s s' : L),
    0 <= i -> i + Z.of_nat n <= 100 ->
    Seeding.DeleteSeededAssets_loop n i s = (s', None) ->
    (forall j, i <= j < i + Z.of_nat n -> GetState s' (seeded_key j) = Ok None) /\
    (forall k, (forall j, i <= j < i + Z.of_nat n -> k <> seeded_key j) ->
       GetState s' k = GetState s k).
Proof.
  induction n as [|n IH]; intros i s s' Hi Hn Hrun.
  - injection Hrun as ->. split; auto. intros j Hj. lia.
  - cbn [Seeding.DeleteSeededAssets_loop] in Hrun. fold (seeded_key i) in Hrun.
    destruct (DelState s (seeded_key i)) as [s1 [e|]] eqn:Hdel; [discriminate|].
    destruct (IH (i + 1) s1 s') as (Hin & Hout); [lia|lia|exact Hrun|].
    split.
    + intros j Hj. destruct (Z.eq_dec j i) as [->|Hne]; [|apply Hin; lia].
      rewrite Hout; [exact (get_del_same _ _ _ Hdel)|].
      intros j Hj' Heq. apply seeded_key_inj in Heq; lia.
    + intros k Hk. rewrite Hout by (intros j Hj; apply Hk; lia).
      apply (get_del_other _ _ _ _ Hdel). apply Hk. lia.
Qed.

Lemma DeleteSeededAssets_loop_runs {L : Type} {stub : ChaincodeStub L}
    {del : ChaincodeStubDel L} (good : L -> Prop) {acc : AcceptsDeletes good} (n : nat) :
  forall (i : Z) (s : L),
    good s -> exists s', Seeding.DeleteSeededAssets_loop n i s = (s', None) /\ good s'.
Proof.
  induction n as [|n IH]; intros i s Hgood.
  - exists s. split; [reflexivity|exact Hgood].
  - cbn [Seeding.DeleteSeededAssets_loop].
    destruct (del_accepted s (Sprintf_d "ASSET_" i) Hgood) as (s1 & -> & Hgood1).
    apply IH, Hgood1.
Qed.

(** X1.  [SeedLedger] on a ledger that accepts writes and holds none
    of the keys ASSET_0 .. ASSET_99: it returns without error and
    without a panic; afterwards each of the hundred keys exists and
    reads as the asset of its round -- id ASSET_i, cid CID_i, features
    "[]", type PDF for an even [i] and PE for an odd one -- and every
    other key reads as before. *)
Theorem SeedLedger_creates_the_hundred {L : Type} {stub : ChaincodeStub L}
    {lawful : LawfulStub L} (good : L -> Prop) {acc : AcceptsWrites good} (s : L) :
  good s ->
  (forall i, 0 <= i < 100 -> GetState s (Sprintf_d "ASSET_" i) = Ok None) ->
  exists s', Seeding.SeedLedger s = Some (s', None) /\
    (forall i, 0 <= i < 100 ->
       Chaincode.AssetExists s' (Sprintf_d "ASSET_" i) = Ok true /\
       Chaincode.ReadAsset s' (Sprintf_d "ASSET_" i)
       = Ok (mkAsset (Sprintf_d "CID_" i) "[]" (Sprintf_d "ASSET_" i)
               (if Z.even i then "PDF" else "PE"))) /\
    (forall k, (forall i, 0 <= i < 100 -> k <> Sprintf_d "ASSET_" i) ->
       GetState s' k = GetState s k).
Proof.
  intros Hgood Habs.
  destruct (SeedLedger_loop_ok good 100 0 s) as (s' & Hrun & _ & Hin & Hout);
    [lia|lia|exact Hgood|intros j Hj; apply Habs; lia|].
  exists s'. split; [exact Hrun|]. split.
  - intros i Hi. specialize (Hin i ltac:(lia)). split.
    + unfold Chaincode.AssetExists. fold (seeded_key i). rewrite Hin. reflexivity.
    + fold (seeded_key i). rewrite (ReadAsset_stored _ _ _ Hin).
      rewrite coerce_asset_valid by (apply seeded_valid; lia). reflexivity.
  - intros k Hk. apply Hout. intros j Hj. apply Hk. lia.
Qed.

Lemma SeedLedger_on_the_empty_ledger :
  exists s', Seeding.SeedLedger ledger0 = Some (s', None) /\
    (forall i, 0 <= i < 100 ->
       Chaincode.AssetExists s' (Sprintf_d "ASSET_" i) = Ok true /\
       Chaincode.ReadAsset s' (Sprintf_d "ASSET_" i)
       = Ok (mkAsset (Sprintf_d "CID_" i) "[]" (Sprintf_d "ASSET_" i)
               (if Z.even i then "PDF" else "PE"))) /\
    (forall k, (forall i, 0 <= i < 100 -> k <> Sprintf_d "ASSET_" i) ->
       GetState s' k = GetState ledger0 k).
Proof.
  apply (@SeedLedger_creates_the_hundred MemStub MemStub_stub MemStub_lawful sound
           MemStub_accepts_writes ledger0).
  - reflexivity.
  - intros i Hi. reflexivity.
Defined.

(** X2.  [SeedLedger] returns without error only if none of the keys
    ASSET_0 .. ASSET_99 was on the ledger; a second [SeedLedger] on the
    ledger the first one left fails in its first round with the error of
    the existing asset, wrapped, and writes nothing. *)
Theorem SeedLedger_only_once {L : Type} {stub : ChaincodeStub L} {lawful : LawfulStub L}
    (s s' : L) :
  Seeding.SeedLedger s = Some (s', None) ->
  (forall i, 0 <= i < 100 -> GetState s (Sprintf_d "ASSET_" i) = Ok None) /\
  Seeding.SeedLedger s'
  = Some (s', Some (Errorf_w "failed to create asset" ErrAssetExists)).
Proof.
  intros Hrun.
  destruct (SeedLedger_loop_inv 100 0 s s') as (Habs & Hin & _); [lia|lia|exact Hrun|].
  split; [intros i Hi; apply Habs; lia|].
  unfold Seeding.SeedLedger. rewrite SeedLedger_loop_step by lia.
  unfold Chaincode.CreateAsset, Chaincode.AssetExists.
  change (ID (seeded 0)) with (seeded_key 0). rewrite Hin by lia. reflexivity.
Qed.

Lemma SeedLedger_only_once_in_memory :
  (forall i, 0 <= i < 100 -> GetState ledger0 (Sprintf_d "ASSET_" i) = Ok None) /\
  Seeding.SeedLedger ledger_seeded
  = Some (ledger_seeded, Some (Errorf_w "failed to create asset" ErrAssetExists)).
Proof.
  apply (@SeedLedger_only_once MemStub MemStub_stub MemStub_lawful ledger0 ledger_seeded).
  vm_compute. reflexivity.
Defined.

(** X3.  [SeedLedger] is not all or nothing by itself: when ASSET_k is
    the first of its keys on the ledger, the rounds before [k] are
    written and stay written, round [k] fails with the error of the
    existing asset, wrapped, and no later round runs -- the value under
    ASSET_k and every key outside ASSET_0 .. ASSET_(k-1) read as before. *)
Theorem SeedLedger_stops_at_existing {L : Type} {stub : ChaincodeStub L}
    {lawful : LawfulStub L} (good : L -> Prop) {acc : AcceptsWrites good}
    (s : L) (k : Z) (v : bytes) :
  good s ->
  0 <= k < 100 ->
  (forall i, 0 <= i < k -> GetState s (Sprintf_d "ASSET_" i) = Ok None) ->
  GetState s (Sprintf_d "ASSET_" k) = Ok (Some v) ->
  exists s', Seeding.SeedLedger s
             = Some (s', Some (Errorf_w "failed to create asset" ErrAssetExists)) /\
    (forall i, 0 <= i < k ->
       Chaincode.ReadAsset s' (Sprintf_d "ASSET_" i)
       = Ok (mkAsset (Sprintf_d "CID_" i) "[]" (Sprintf_d "ASSET_" i)
               (if Z.even i then "PDF" else "PE"))) /\
    (forall key, (forall i, 0 <= i < k -> key <> Sprintf_d "ASSET_" i) ->
       GetState s' key = GetState s key).
Proof.
  intros Hgood Hk Habs Hpresent.
  destruct (SeedLedger_loop_ok good (Z.to_nat k) 0 s) as (s' & Hrun & _ & Hin & Hout);
    [lia|lia|exact Hgood|intros j Hj; apply Habs; lia|].
  assert (Hk' : GetState s' (seeded_key k) = Ok (Some v)).
  { rewrite Hout; [exact Hpresent|]. intros j Hj Heq. apply seeded_key_inj in Heq; lia. }
  exists s'. split; [|split].
  - unfold Seeding.SeedLedger.
    replace 100%nat with (Z.to_nat k + S (Z.to_nat (99 - k)))%nat by lia.
    rewrite SeedLedger_loop_app, Hrun, SeedLedger_loop_step by lia.
    unfold Chaincode.CreateAsset, Chaincode.AssetExists.
    replace (0 + Z.of_nat (Z.to_nat k)) with k by lia.
    change (ID (seeded k)) with (seeded_key k). rewrite Hk'. reflexivity.
  - intros i Hi. fold (seeded_key i). rewrite (ReadAsset_stored _ _ (seeded i)).
    + rewrite coerce_asset_valid by (apply seeded_valid; lia). reflexivity.
    + apply Hin. lia.
  - intros key Hkey. apply Hout. intros j Hj. apply Hkey. lia.
Qed.

Lemma SeedLedger_stops_at_ASSET_2 :
  exists s', Seeding.SeedLedger (mem_of [("ASSET_2", "taken")])
             = Some (s', Some (Errorf_w "failed to create asset" ErrAssetExists)) /\
    (forall i, 0 <= i < 2 ->
       Chaincode.ReadAsset s' (Sprintf_d "ASSET_" i)
       = Ok (mkAsset (Sprintf_d "CID_" i) "[]" (Sprintf_d "ASSET_" i)
               (if Z.even i then "PDF" else "PE"))) /\
    (forall key, (forall i, 0 <= i < 2 -> key <> Sprintf_d "ASSET_" i) ->
       GetState s' key = GetState (mem_of [("ASSET_2", "taken")]) key).
Proof.
  apply (@SeedLedger_stops_at_existing MemStub MemStub_stub MemStub_lawful sound
           MemStub_accepts_writes (mem_of [("ASSET_2", "taken")]) 2 "taken").
  - reflexivity.
  - lia.
  - intros i Hi. assert (Hc : i = 0 \/ i = 1) by lia.
    destruct Hc as [-> | ->]; vm_compute; reflexivity.
  - vm_compute. reflexivity.
Defined.

(** X4.  [DeleteSeededAssets] on a ledger that accepts deletes returns
    without error, whether or not the assets are there; afterwards none
    of the keys ASSET_0 .. ASSET_99 exists, and every other key reads as
    before. *)
Theorem DeleteSeededAssets_removes_the_hundred {L : Type} {stub : ChaincodeStub L}
    {del : ChaincodeStubDel L} {lawful : LawfulDel L}
    (good : L -> Prop) {acc : AcceptsDeletes good} (s : L) :
  good s ->
  exists s', Seeding.DeleteSeededAssets s = (s', None) /\
    (forall i, 0 <= i < 100 ->
       Chaincode.AssetExists s' (Sprintf_d "ASSET_" i) = Ok false /\
       Chaincode.ReadAsset s' (Sprintf_d "ASSET_" i) = Err ErrNotFound) /\
    (forall k, (forall i, 0 <= i < 100 -> k <> Sprintf_d "ASSET_" i) ->
       GetState s' k = GetState s k).
Proof.
  intros Hgood.
  destruct (DeleteSeededAssets_loop_runs good 100 0 s Hgood) as (s' & Hrun & _).
  destruct (DeleteSeededAssets_loop_inv 100 0 s s') as (Hin & Hout); [lia|lia|exact Hrun|].
  exists s'. split; [exact Hrun|]. split.
  - intros i Hi. unfold Chaincode.AssetExists, Chaincode.ReadAsset.
    fold (seeded_key i). rewrite Hin by lia. split; reflexivity.
  - intros k Hk. apply Hout. intros j Hj. apply Hk. lia.
Qed.

Lemma DeleteSeededAssets_on_the_seeded_ledger :
  exists s', Seeding.DeleteSeededAssets ledger_seeded = (s', None) /\
    (forall i, 0 <= i < 100 ->
       Chaincode.AssetExists s' (Sprintf_d "ASSET_" i) = Ok false /\
       Chaincode.ReadAsset s' (Sprintf_d "ASSET_" i) = Err ErrNotFound) /\
    (forall k, (forall i, 0 <= i < 100 -> k <> Sprintf_d "ASSET_" i) ->
       GetState s' k = GetState ledger_seeded k).
Proof.
  apply (@DeleteSeededAssets_removes_the_hundred MemStub MemStub_stub MemStub_del
           MemStub_lawful_del sound MemStub_accepts_deletes ledger_seeded).
  reflexivity.
Defined.

(** X5.  [DeleteSeededAssets] undoes [SeedLedger]: on a ledger that
    accepts writes and deletes and holds none of the keys ASSET_0 ..
    ASSET_99, seeding and then deleting both return without error and
    every key reads as it did before the two. *)
Theorem SeedLedger_then_DeleteSeededAssets {L : Type} {stub : ChaincodeStub L}
    {del : ChaincodeStubDel L} {lawful : LawfulStub L} {lawful_del : LawfulDel L}
    (good : L -> Prop) {accw : AcceptsWrites good} {accd : AcceptsDeletes good} (s : L) :
  good s ->
  (forall i, 0 <= i < 100 -> GetState s (Sprintf_d "ASSET_" i) = Ok None) ->
  exists s1 s2,
    Seeding.SeedLedger s = Some (s1, None) /\
    Seeding.DeleteSeededAssets s1 = (s2, None) /\
    forall k, GetState s2 k = GetState s k.
Proof.
  intros Hgood Habs.
  destruct (SeedLedger_loop_ok good 100 0 s) as (s1 & Hrun1 & Hgood1 & _ & Hout1);
    [lia|lia|exact Hgood|intros j Hj; apply Habs; lia|].
  destruct (DeleteSeededAssets_loop_runs good 100 0 s1 Hgood1) as (s2 & Hrun2 & _).
  destruct (DeleteSeededAssets_loop_inv 100 0 s1 s2) as (Hin2 & Hout2);
    [lia|lia|exact Hrun2|].
  exists s1, s2. split; [exact Hrun1|]. split; [exact Hrun2|].
  intros k. destruct (seeded_key_dec k) as [(i & Hi & ->)|Hk].
  - rewrite Hin2 by lia. symmetry. apply Habs, Hi.
  - rewrite Hout2, Hout1; [reflexivity| |]; intros j Hj; apply Hk; lia.
Qed.

Lemma SeedLedger_then_DeleteSeededAssets_in_memory :
  exists s1 s2,
    Seeding.SeedLedger ledger0 = Some (s1, None) /\
    Seeding.DeleteSeededAssets s1 = (s2, None) /\
    forall k, GetState s2 k = GetState ledger0 k.
Proof.
  apply (@SeedLedger_then_DeleteSeededAssets MemStub MemStub_stub MemStub_del
           MemStub_lawful MemStub_lawful_del sound MemStub_accepts_writes
           MemStub_accepts_deletes ledger0).
  - reflexivity.
  - intros i Hi. reflexivity.
Defined.

(** The errors [SeedLedger] and [DeleteSeededAssets] can return. *)
Lemma SeedLedger_loop_total {L : Type} {stub : ChaincodeStub L} (n : nat) :
  forall (i : Z) (s : L),
    0 <= i ->
    exists s' r, Seeding.SeedLedger_loop n i s = Some (s', r) /\
      forall err, r = Some err ->
        exists inner, err = Errorf_w "failed to create asset" inner /\
          (inner = ErrAssetExists \/
           (exists e, inner = Errorf_w "failed to read from world state" e) \/
           (exists e, inner = Errorf_w "failed to put asset in world state" e)).
Proof.
  induction n as [|n IH]; intros i s Hi.
  - exists s, None. split; [reflexivity|discriminate].
  - rewrite SeedLedger_loop_step by exact Hi.
    unfold Chaincode.CreateAsset, Chaincode.AssetExists.
    destruct (GetState s (ID (seeded i))) as [[v|]|e].
    + eexists _, _. split; [reflexivity|]. intros err [= <-]. eauto.
    + cbn [json.Marshal]. destruct (PutState s _ _) as [s1 [e|]].
      * eexists _, _. split; [reflexivity|]. intros err [= <-]. eauto 6.
      * apply IH. lia.
    + eexists _, _. split; [reflexivity|]. intros err [= <-]. eauto 6.
Qed.

Lemma DeleteSeededAssets_loop_total {L : Type} {stub : ChaincodeStub L}
    {del : ChaincodeStubDel L} (n : nat) :
  forall (i : Z) (s : L) (s' : L) (err : error),
    Seeding.DeleteSeededAssets_loop n i s = (s', Some err) ->
    exists e, err = Errorf_w "failed to delete asset" e.
Proof.
  induction n as [|n IH]; intros i s s' err H; [discriminate|].
  cbn [Seeding.DeleteSeededAssets_loop] in H.
  destruct (DelState s (Sprintf_d "ASSET_" i)) as [s1 [e|]].
  - injection H as _ <-. eauto.
  - exact (IH _ _ _ _ H).
Qed.

(** X6.  [SeedLedger] never panics: the index into its two type tags
    is always in range.  The only errors it returns are those of
    [CreateAsset], wrapped once more: the existing asset, the failed
    read, the failed write.  The only errors [DeleteSeededAssets]
    returns are those of [DelState], wrapped. *)
Theorem seeding_errors {L : Type} {stub : ChaincodeStub L} {del : ChaincodeStubDel L}
    (s : L) :
  (exists s' r, Seeding.SeedLedger s = Some (s', r) /\
     forall err, r = Some err ->
       exists inner, err = Errorf_w "failed to create asset" inner /\
         (inner = ErrAssetExists \/
          (exists e, inner = Errorf_w "failed to read from world state" e) \/
          (exists e, inner = Errorf_w "failed to put asset in world state" e))) /\
  (forall s' err, Seeding.DeleteSeededAssets s = (s', Some err) ->
     exists e, err = Errorf_w "failed to delete asset" e).
Proof.
  split.
  - apply SeedLedger_loop_total. lia.
  - apply DeleteSeededAssets_loop_total.
Qed.

(** * Creating and reading, beyond the specification *)

Lemma Main_CreateAsset_inv {L : Type} {stub : ChaincodeStub L}
    (s s' : L) (cid id ty features : string) :
  Main.CreateAsset s cid id ty features = (s', None) ->
  GetState s cid = Ok None /\ (ty = "PDF" \/ ty = "PE") /\
  PutState s cid (json.encodeAsset (mkAsset cid features id ty)) = (s', None).
Proof.
  unfold Main.CreateAsset, Main.AssetExists. intros H.
  destruct (GetState s cid) as [[v|]|e]; try discriminate.
  destruct (Main.ParseAssetType ty) as [t|e] eqn:Hty; [|discriminate].
  destruct (ParseAssetType_ok _ _ Hty) as [-> Htag].
  cbn [json.Marshal] in H.
  destruct (PutState s cid _) as [s1 [e|]]; [discriminate|].
  injection H as ->. auto.
Qed.

(** X7.  The earlier contract keys its records by [id]: on a ledger
    that takes the write, [CreateAsset] with an absent [id] and four
    well-formed strings succeeds; afterwards [AssetExists id] is true,
    [ReadAsset id] is the asset with exactly the four values passed --
    whatever the type tag is -- and every key other than [id], the
    content identifier included, reads as before. *)
Theorem Chaincode_create_then_read {L : Type} {stub : ChaincodeStub L}
    {lawful : LawfulStub L} (s s' : L) (id cid ty features : string) :
  GetState s id = Ok None ->
  utf8.ValidString id = true ->
  utf8.ValidString cid = true ->
  utf8.ValidString ty = true ->
  utf8.ValidString features = true ->
  PutState s id (json.encodeAsset (mkAsset cid features id ty)) = (s', None) ->
  Chaincode.CreateAsset s id cid ty features = (s', None) /\
  Chaincode.AssetExists s' id = Ok true /\
  Chaincode.ReadAsset s' id = Ok (mkAsset cid features id ty) /\
  (forall k, k <> id -> GetState s' k = GetState s k).
Proof.
  intros Habs Hi Hc Ht Hf Hput.
  pose proof (get_put_same _ _ _ _ Hput (encodeAsset_nonempty _)) as Hget.
  split; [|split; [|split]].
  - unfold Chaincode.CreateAsset, Chaincode.AssetExists. rewrite Habs.
    cbn [json.Marshal]. rewrite Hput. reflexivity.
  - unfold Chaincode.AssetExists. rewrite Hget. reflexivity.
  - rewrite (ReadAsset_stored _ _ _ Hget). rewrite coerce_asset_valid; [reflexivity|].
    unfold valid_asset. cbn [CID Features ID Type_]. rewrite Hi, Hc, Ht, Hf. reflexivity.
  - intros k Hk. exact (get_put_other _ _ _ _ _ Hput Hk).
Qed.

Lemma Chaincode_create_then_read_in_memory :
  Chaincode.CreateAsset ledger0 "ASSET_7" "CID_7" "ELF" "[1,2]"
  = (mem_of [("ASSET_7", json.encodeAsset (mkAsset "CID_7" "[1,2]" "ASSET_7" "ELF"))], None) /\
  Chaincode.AssetExists
    (mem_of [("ASSET_7", json.encodeAsset (mkAsset "CID_7" "[1,2]" "ASSET_7" "ELF"))])
    "ASSET_7" = Ok true /\
  Chaincode.ReadAsset
    (mem_of [("ASSET_7", json.encodeAsset (mkAsset "CID_7" "[1,2]" "ASSET_7" "ELF"))])
    "ASSET_7" = Ok (mkAsset "CID_7" "[1,2]" "ASSET_7" "ELF") /\
  (forall k, k <> "ASSET_7" ->
     GetState (mem_of [("ASSET_7", json.encodeAsset (mkAsset "CID_7" "[1,2]" "ASSET_7" "ELF"))]) k
     = GetState ledger0 k).
Proof.
  apply (@Chaincode_create_then_read MemStub MemStub_stub MemStub_lawful
           ledger0 _ "ASSET_7" "CID_7" "ELF" "[1,2]");
    vm_compute; reflexivity.
Defined.

(** X8.  The first writer wins, in both contracts: after a
    successful [CreateAsset], another one under the same key -- with
    whatever other arguments, a type tag that is not recognized
    included -- fails with [ErrAssetExists], returns the ledger as it
    was, and the bytes of the first record are still there. *)
Theorem CreateAsset_twice {L : Type} {stub : ChaincodeStub L} {lawful : LawfulStub L} :
  (forall (s s' : L) (cid id ty features id' ty' features' : string),
     Main.CreateAsset s cid id ty features = (s', None) ->
     Main.CreateAsset s' cid id' ty' features' = (s', Some ErrAssetExists) /\
     GetState s' cid = Ok (Some (json.encodeAsset (mkAsset cid features id ty)))) /\
  (forall (s s' : L) (id cid ty features cid' ty' features' : string),
     Chaincode.CreateAsset s id cid ty features = (s', None) ->
     Chaincode.CreateAsset s' id cid' ty' features' = (s', Some ErrAssetExists) /\
     GetState s' id = Ok (Some (json.encodeAsset (mkAsset cid features id ty)))).
Proof.
  split; intros s s' k a b c a' b' c' H.
  - apply Main_CreateAsset_inv in H as (_ & _ & Hput).
    pose proof (get_put_same _ _ _ _ Hput (encodeAsset_nonempty _)) as Hget.
    split; [|exact Hget]. unfold Main.CreateAsset, Main.AssetExists.
    rewrite Hget. reflexivity.
  - apply Chaincode_CreateAsset_inv in H as (_ & Hput).
    pose proof (get_put_same _ _ _ _ Hput (encodeAsset_nonempty _)) as Hget.
    split; [|exact Hget]. unfold Chaincode.CreateAsset, Chaincode.AssetExists.
    rewrite Hget. reflexivity.
Qed.

Lemma CreateAsset_twice_in_memory :
  (Main.CreateAsset ledgerA "CID_0" "ASSET_9" "EXE" "[9]" = (ledgerA, Some ErrAssetExists) /\
   GetState ledgerA "CID_0" = Ok (Some (json.encodeAsset assetA))) /\
  (Chaincode.CreateAsset
     (mem_of [("ASSET_0", json.encodeAsset assetA)]) "ASSET_0" "CID_9" "EXE" "[9]"
   = (mem_of [("ASSET_0", json.encodeAsset assetA)], Some ErrAssetExists) /\
   GetState (mem_of [("ASSET_0", json.encodeAsset assetA)]) "ASSET_0"
   = Ok (Some (json.encodeAsset assetA))).
Proof.
  destruct (@CreateAsset_twice MemStub MemStub_stub MemStub_lawful) as [Hm Hc]. split.
  - apply (Hm ledger0 ledgerA "CID_0" "ASSET_0" "PDF" "[]"). vm_compute. reflexivity.
  - apply (Hc ledger0 _ "ASSET_0" "CID_0" "PDF" "[]"). vm_compute. reflexivity.
Defined.

(** X9.  The earlier contract does not keep the content identifier
    unique: on a ledger that accepts writes, two [CreateAsset] calls
    with two absent ids and one and the same [cid] both succeed, and
    both records are on the ledger afterwards. *)
Theorem Chaincode_cid_not_unique {L : Type} {stub : ChaincodeStub L}
    {lawful : LawfulStub L} (good : L -> Prop) {acc : AcceptsWrites good}
    (s : L) (id1 id2 cid ty features : string) :
  good s ->
  id1 <> id2 ->
  GetState s id1 = Ok None ->
  GetState s id2 = Ok None ->
  exists s1 s2,
    Chaincode.CreateAsset s id1 cid ty features = (s1, None) /\
    Chaincode.CreateAsset s1 id2 cid ty features = (s2, None) /\
    GetState s2 id1 = Ok (Some (json.encodeAsset (mkAsset cid features id1 ty))) /\
    GetState s2 id2 = Ok (Some (json.encodeAsset (mkAsset cid features id2 ty))).
Proof.
  intros Hgood Hne H1 H2.
  destruct (put_accepted s id1 (json.encodeAsset (mkAsset cid features id1 ty)) Hgood)
    as (s1 & Hput1 & Hgood1).
  destruct (put_accepted s1 id2 (json.encodeAsset (mkAsset cid features id2 ty)) Hgood1)
    as (s2 & Hput2 & _).
  assert (H2' : GetState s1 id2 = Ok None).
  { rewrite (get_put_other _ _ _ _ _ Hput1); [exact H2|congruence]. }
  exists s1, s2. unfold Chaincode.CreateAsset, Chaincode.AssetExists.
  rewrite H1, H2'. cbn [json.Marshal]. rewrite Hput1, Hput2.
  split; [reflexivity|]. split; [reflexivity|]. split.
  - rewrite (get_put_other _ _ _ _ _ Hput2) by exact Hne.
    exact (get_put_same _ _ _ _ Hput1 (encodeAsset_nonempty _)).
  - exact (get_put_same _ _ _ _ Hput2 (encodeAsset_nonempty _)).
Qed.

Lemma Chaincode_cid_not_unique_in_memory :
  exists s1 s2,
    Chaincode.CreateAsset ledger0 "ASSET_0" "CID_0" "PDF" "[]" = (s1, None) /\
    Chaincode.CreateAsset s1 "ASSET_1" "CID_0" "PDF" "[]" = (s2, None) /\
    GetState s2 "ASSET_0"
    = Ok (Some (json.encodeAsset (mkAsset "CID_0" "[]" "ASSET_0" "PDF"))) /\
    GetState s2 "ASSET_1"
    = Ok (Some (json.encodeAsset (mkAsset "CID_0" "[]" "ASSET_1" "PDF"))).
Proof.
  apply (@Chaincode_cid_not_unique MemStub MemStub_stub MemStub_lawful sound
           MemStub_accepts_writes ledger0 "ASSET_0" "ASSET_1" "CID_0" "PDF" "[]");
    [reflexivity|discriminate|reflexivity|reflexivity].
Defined.

(** X10.  The enum-typed contract does not keep [id] unique: on a
    ledger that accepts writes, two [CreateAsset] calls with two absent
    content identifiers, a recognized type and one and the same [id]
    both succeed, and both records are on the ledger afterwards. *)
Theorem Main_id_not_unique {L : Type} {stub : ChaincodeStub L}
    {lawful : LawfulStub L} (good : L -> Prop) {acc : AcceptsWrites good}
    (s : L) (cid1 cid2 id ty features : string) :
  good s ->
  cid1 <> cid2 ->
  ty = "PDF" \/ ty = "PE" ->
  GetState s cid1 = Ok None ->
  GetState s cid2 = Ok None ->
  exists s1 s2,
    Main.CreateAsset s cid1 id ty features = (s1, None) /\
    Main.CreateAsset s1 cid2 id ty features = (s2, None) /\
    GetState s2 cid1 = Ok (Some (json.encodeAsset (mkAsset cid1 features id ty))) /\
    GetState s2 cid2 = Ok (Some (json.encodeAsset (mkAsset cid2 features id ty))).
Proof.
  intros Hgood Hne Hty H1 H2.
  destruct (put_accepted s cid1 (json.encodeAsset (mkAsset cid1 features id ty)) Hgood)
    as (s1 & Hput1 & Hgood1).
  destruct (put_accepted s1 cid2 (json.encodeAsset (mkAsset cid2 features id ty)) Hgood1)
    as (s2 & Hput2 & _).
  assert (H2' : GetState s1 cid2 = Ok None).
  { rewrite (get_put_other _ _ _ _ _ Hput1); [exact H2|congruence]. }
  assert (Hparse : Main.ParseAssetType ty = Ok ty) by (destruct Hty as [-> | ->]; reflexivity).
  exists s1, s2. unfold Main.CreateAsset, Main.AssetExists.
  rewrite H1, H2', Hparse. cbn [json.Marshal]. rewrite Hput1, Hput2.
  split; [reflexivity|]. split; [reflexivity|]. split.
  - rewrite (get_put_other _ _ _ _ _ Hput2) by exact Hne.
    exact (get_put_same _ _ _ _ Hput1 (encodeAsset_nonempty _)).
  - exact (get_put_same _ _ _ _ Hput2 (encodeAsset_nonempty _)).
Qed.

Lemma Main_id_not_unique_in_memory :
  exists s1 s2,
    Main.CreateAsset ledger0 "CID_0" "ASSET_0" "PE" "[]" = (s1, None) /\
    Main.CreateAsset s1 "CID_1" "ASSET_0" "PE" "[]" = (s2, None) /\
    GetState s2 "CID_0"
    = Ok (Some (json.encodeAsset (mkAsset "CID_0" "[]" "ASSET_0" "PE"))) /\
    GetState s2 "CID_1"
    = Ok (Some (json.encodeAsset (mkAsset "CID_1" "[]" "ASSET_0" "PE"))).
Proof.
  apply (@Main_id_not_unique MemStub MemStub_stub MemStub_lawful sound
           MemStub_accepts_writes ledger0 "CID_0" "CID_1" "ASSET_0" "PE" "[]");
    [reflexivity|discriminate|right; reflexivity|reflexivity|reflexivity].
Defined.

(** X11.  Every outcome of [CreateAsset] of the enum-typed contract.
    It returns no error exactly when the read of [cid] gives nil, the
    type tag is PDF or PE, and the write is accepted.  Otherwise the
    error is the wrapped error of the read, or [ErrAssetExists], or the
    wrapped parse error, or the wrapped error of the write -- in this
    order of precedence; in the first three cases the ledger is
    returned as it was.  The error is never that of [json.Marshal]. *)
Theorem Main_CreateAsset_outcomes {L : Type} {stub : ChaincodeStub L}
    (s : L) (cid id ty features : string) :
  match Main.CreateAsset s cid id ty features with
  | (s', None) =>
      GetState s cid = Ok None /\ (ty = "PDF" \/ ty = "PE") /\
      PutState s cid (json.encodeAsset (mkAsset cid features id ty)) = (s', None)
  | (s', Some err) =>
      (exists e, GetState s cid = Err e /\
         err = Errorf_w "read from ledger state" e /\ s' = s) \/
      (exists v, GetState s cid = Ok (Some v) /\ err = ErrAssetExists /\ s' = s) \/
      (GetState s cid = Ok None /\ ty <> "PDF" /\ ty <> "PE" /\
         err = Errorf_w "parse asset type" (InvalidEnumValue ty) /\ s' = s) \/
      (exists e, GetState s cid = Ok None /\ (ty = "PDF" \/ ty = "PE") /\
         PutState s cid (json.encodeAsset (mkAsset cid features id ty)) = (s', Some e) /\
         err = Errorf_w "put asset in ledger state" e)
  end.
Proof.
  unfold Main.CreateAsset, Main.AssetExists.
  destruct (GetState s cid) as [[v|]|e].
  - right. left. eauto.
  - unfold Main.ParseAssetType.
    destruct (String.eqb_spec ty "PDF") as [->|H1];
      [|destruct (String.eqb_spec ty "PE") as [->|H2]]; cbn [json.Marshal].
    + destruct (PutState s cid _) as [s' [e|]] eqn:Hput; [|auto].
      do 3 right. exists e. auto.
    + destruct (PutState s cid _) as [s' [e|]] eqn:Hput; [|auto].
      do 3 right. exists e. auto.
    + right. right. left. auto.
  - left. eauto.
Qed.

(** X12.  Every outcome of [CreateAsset] of the earlier contract.  It
    returns no error exactly when the read of [id] gives nil and the
    write is accepted -- the type tag is not looked at.  Otherwise the
    error is the wrapped error of the read, or [ErrAssetExists], or the
    wrapped error of the write; in the first two cases the ledger is
    returned as it was.  The error is never that of [json.Marshal]. *)
Theorem Chaincode_CreateAsset_outcomes {L : Type} {stub : ChaincodeStub L}
    (s : L) (id cid ty features : string) :
  match Chaincode.CreateAsset s id cid ty features with
  | (s', None) =>
      GetState s id = Ok None /\
      PutState s id (json.encodeAsset (mkAsset cid features id ty)) = (s', None)
  | (s', Some err) =>
      (exists e, GetState s id = Err e /\
         err = Errorf_w "failed to read from world state" e /\ s' = s) \/
      (exists v, GetState s id = Ok (Some v) /\ err = ErrAssetExists /\ s' = s) \/
      (exists e, GetState s id = Ok None /\
         PutState s id (json.encodeAsset (mkAsset cid features id ty)) = (s', Some e) /\
         err = Errorf_w "failed to put asset in world state" e)
  end.
Proof.
  unfold Chaincode.CreateAsset, Chaincode.AssetExists.
  destruct (GetState s id) as [[v|]|e].
  - right. left. eauto.
  - cbn [json.Marshal].
    destruct (PutState s id _) as [s' [e|]] eqn:Hput; [|auto].
    right. right. exists e. auto.
  - left. eauto.
Qed.

(** X13.  The existence check and the point read agree, in both
    contracts and on every ledger, a value of no bytes included:
    [AssetExists] is false exactly when the read fails with
    [ErrNotFound], and it fails exactly when the read fails with the
    wrapped error of the ledger. *)
Theorem exists_and_read_agree {L : Type} {stub : ChaincodeStub L} (s : L) (key : string) :
  (Main.AssetExists s key = Ok false <-> Main.GetAsset s key = Err ErrNotFound) /\
  (forall e, Main.AssetExists s key = Err (Errorf_w "read from ledger state" e) <->
             Main.GetAsset s key = Err (Errorf_w "read from ledger state" e)) /\
  (Chaincode.AssetExists s key = Ok false <-> Chaincode.ReadAsset s key = Err ErrNotFound) /\
  (forall e, Chaincode.AssetExists s key = Err (Errorf_w "failed to read from world state" e) <->
             Chaincode.ReadAsset s key = Err (Errorf_w "failed to read from world state" e)).
Proof.
  unfold Main.AssetExists, Main.GetAsset, Chaincode.AssetExists, Chaincode.ReadAsset.
  destruct (GetState s key) as [[v|]|e0].
  - destruct (json.Unmarshal v zeroAsset) as [a [e1|]];
      repeat split; intros; discriminate.
  - repeat split; intros; try reflexivity; discriminate.
  - repeat split; intros H; try discriminate; injection H as <-; reflexivity.
Qed.

(** * The enumerations, beyond the specification *)

Lemma drain_iterator_closed rm um pend : forall acc cl,
  closed (fst (drain_iterator rm um acc pend cl)) = cl.
Proof.
  induction pend as [|[kv|e] pend IH]; intros acc cl; cbn [drain_iterator]; try reflexivity.
  destruct (json.Unmarshal (Value kv) zeroAsset) as [a [e|]]; [reflexivity|apply IH].
Qed.

Lemma drain_iterator_read_error rm um pre e rest : forall acc cl,
  Forall decodes pre ->
  drain_iterator rm um acc (List.map Ok pre ++ Err e :: rest) cl
  = (mkIterator rest cl, Err (Errorf_w rm e)).
Proof.
  induction pre as [|kv pre IH]; intros acc cl Hall; cbn [List.map app drain_iterator].
  - reflexivity.
  - inversion Hall as [|? ? Hkv Hrest]; subst. unfold decodes in Hkv.
    destruct (json.Unmarshal (Value kv) zeroAsset) as [asset o]. cbn in Hkv. subst o.
    apply IH; assumption.
Qed.

Lemma drain_iterator_drained rm um pend : forall acc cl,
  exists rest r,
    drain_iterator rm um acc pend cl = (mkIterator rest cl, r) /\
    drained rm um pend acc rest r.
Proof.
  induction pend as [|[kv|e] pend IH]; intros acc cl; cbn [drain_iterator].
  - exists [], (Ok acc). split; [reflexivity|].
    rewrite <- (app_nil_r acc) at 2. apply (drained_all _ _ _ _ []); [reflexivity|constructor].
  - destruct (json.Unmarshal (Value kv) zeroAsset) as [a [e|]] eqn:Hu.
    + exists pend, (Err (Errorf_w um e)). split; [reflexivity|].
      apply (drained_decode_error _ _ _ _ [] kv e pend); [reflexivity|constructor|].
      rewrite Hu. reflexivity.
    + assert (Hkv : decodes kv) by (unfold decodes; rewrite Hu; reflexivity).
      assert (Ha : decode_kv kv = a) by (unfold decode_kv; rewrite Hu; reflexivity).
      destruct (IH (acc ++ [a]) cl) as (rest & r & Hrun & Hd).
      exists rest, r. split; [exact Hrun|].
      inversion Hd as [kvs Hp Hall|pre e rest' Hp Hall|pre bad e rest' Hp Hall Hbad]; subst.
      * rewrite <- app_assoc. change ([decode_kv kv] ++ List.map decode_kv kvs)
          with (List.map decode_kv (kv :: kvs)).
        apply drained_all; [reflexivity|constructor; assumption].
      * apply (drained_read_error _ _ _ _ (kv :: pre)); [reflexivity|constructor; assumption].
      * apply (drained_decode_error _ _ _ _ (kv :: pre) bad); [reflexivity| |exact Hbad].
        constructor; assumption.
  - exists pend, (Err (Errorf_w rm e)). split; [reflexivity|].
    apply (drained_read_error _ _ _ _ [] e pend); [reflexivity|constructor].
Qed.

(** X14.  When the iterator fails at its [n]-th [Next] after [n - 1]
    values that decode, the enumeration stops there: the iterator is
    left with what follows, it has been closed once, and the result is
    the error of the iterator, wrapped, with no page.  So it is for
    [QueryAssets] of both contracts and for [ReadAssets]. *)
Theorem iterator_error_aborts {L : Type} {stub : ChaincodeStub L}
    (ctx : L) (q : string) (pageSize : Z) (bookmark : string)
    (it : StateQueryIterator) (md : QueryResponseMetadata)
    (pre : list KV) (e : error) (rest : list (result KV)) :
  Forall decodes pre ->
  pending it = List.map Ok pre ++ Err e :: rest ->
  (GetQueryResultWithPagination ctx q (int32 pageSize) bookmark = Ok (it, md) ->
   Main.QueryAssets ctx q pageSize bookmark
   = (Some (mkIterator rest (S (closed it))),
      Err (Errorf_w "read asset from iterator" e)) /\
   Chaincode.QueryAssets ctx q pageSize bookmark
   = (Some (mkIterator rest (S (closed it))),
      Err (Errorf_w "failed to read asset from iterator" e))) /\
  (GetStateByRangeWithPagination ctx "" "" pageSize bookmark = Ok (it, md) ->
   ChaincodeRange.ReadAssets ctx pageSize bookmark
   = (Some (mkIterator rest (S (closed it))),
      Err (Errorf_w "failed to read asset from iterator" e))).
Proof.
  intros Hpre Hpend. split; intros Hcall.
  - unfold Main.QueryAssets, Main.getQueryResultForQueryStringWithPagination,
      Main.constructQueryResponseFromIterator,
      Chaincode.QueryAssets, Chaincode.getQueryResultForQueryStringWithPagination,
      Chaincode.constructQueryResponseFromIterator.
    rewrite Hcall, Hpend, !drain_iterator_read_error by assumption. split; reflexivity.
  - unfold ChaincodeRange.ReadAssets.
    rewrite Hcall, Hpend, drain_iterator_read_error by assumption. reflexivity.
Qed.

Lemma iterator_error_at_the_second_item :
  (Main.QueryAssets script_broken_iterator "" 3 ""
   = (Some (mkIterator [Ok (mkKV "CID_2" (json.encodeAsset (asset_n "2")))] 1),
      Err (Errorf_w "read asset from iterator" (errors_New "connection lost"))) /\
   Chaincode.QueryAssets script_broken_iterator "" 3 ""
   = (Some (mkIterator [Ok (mkKV "CID_2" (json.encodeAsset (asset_n "2")))] 1),
      Err (Errorf_w "failed to read asset from iterator" (errors_New "connection lost")))) /\
  ChaincodeRange.ReadAssets script_broken_iterator 3 ""
  = (Some (mkIterator [Ok (mkKV "CID_2" (json.encodeAsset (asset_n "2")))] 1),
     Err (Errorf_w "failed to read asset from iterator" (errors_New "connection lost"))).
Proof.
  destruct (@iterator_error_aborts Script Script_stub script_broken_iterator "" 3 ""
              (mkIterator [Ok (mkKV "CID_0" (json.encodeAsset assetA));
                           Err (errors_New "connection lost");
                           Ok (mkKV "CID_2" (json.encodeAsset (asset_n "2")))] 0)
              (mkMetadata 3 "CID_2")
              [mkKV "CID_0" (json.encodeAsset assetA)] (errors_New "connection lost")
              [Ok (mkKV "CID_2" (json.encodeAsset (asset_n "2")))])
    as [Hq Hr].
  - apply decodesb_Forall. vm_compute. reflexivity.
  - reflexivity.
  - split; [apply Hq|apply Hr]; reflexivity.
Defined.

(** X15.  Every outcome of [QueryAssets] of the enum-typed contract.
    When the ledger refuses the query, the result is its error,
    wrapped, and there is no iterator to close.  Otherwise the iterator
    handed out has been closed exactly once when the call returns, and
    the result is either a page -- then every item of the iterator was
    read and decoded, the records are these in order, and the count and
    the bookmark are the ledger's -- or the wrapped error of the first
    item that the iterator failed on or that did not decode, with
    everything before it decoded and dropped. *)
Theorem Main_QueryAssets_outcomes {L : Type} {stub : ChaincodeStub L}
    (ctx : L) (q : string) (pageSize : Z) (bookmark : string) :
  match GetQueryResultWithPagination ctx q (int32 pageSize) bookmark with
  | Err e =>
      Main.QueryAssets ctx q pageSize bookmark = (None, Err (Errorf_w "get query result" e))
  | Ok (it, md) =>
      exists rest r,
        Main.QueryAssets ctx q pageSize bookmark
        = (Some (mkIterator rest (S (closed it))), r) /\
        ((exists kvs, pending it = List.map Ok kvs /\ Forall decodes kvs /\ rest = [] /\
            r = Ok {| Main.Records := List.map decode_kv kvs;
                      Main.FetchedRecordsCount := GetFetchedRecordsCount md;
                      Main.Bookmark := GetBookmark md |}) \/
         (exists pre e, pending it = List.map Ok pre ++ Err e :: rest /\
            Forall decodes pre /\ r = Err (Errorf_w "read asset from iterator" e)) \/
         (exists pre bad e, pending it = List.map Ok pre ++ Ok bad :: rest /\
            Forall decodes pre /\ snd (json.Unmarshal (Value bad) zeroAsset) = Some e /\
            r = Err (Errorf_w "unmarshal asset" e)))
  end.
Proof.
  unfold Main.QueryAssets, Main.getQueryResultForQueryStringWithPagination,
    Main.constructQueryResponseFromIterator.
  destruct (GetQueryResultWithPagination ctx q (int32 pageSize) bookmark) as [[it md]|e];
    [|reflexivity].
  destruct (drain_iterator_drained "read asset from iterator" "unmarshal asset"
              (pending it) [] (closed it)) as (rest & r & -> & Hd).
  eexists _, _. split; [reflexivity|].
  inversion Hd as [kvs Hp Hall|pre e rest' Hp Hall|pre bad e rest' Hp Hall Hbad]; subst.
  - left. exists kvs. auto.
  - right. left. exists pre, e. auto.
  - right. right. exists pre, bad, e. auto.
Qed.

(** X16.  Every outcome of [QueryAssets] of the earlier contract: as
    for the enum-typed one, with its own error messages. *)
Theorem Chaincode_QueryAssets_outcomes {L : Type} {stub : ChaincodeStub L}
    (ctx : L) (q : string) (pageSize : Z) (bookmark : string) :
  match GetQueryResultWithPagination ctx q (int32 pageSize) bookmark with
  | Err e =>
      Chaincode.QueryAssets ctx q pageSize bookmark
      = (None, Err (Errorf_w "failed to get query result" e))
  | Ok (it, md) =>
      exists rest r,
        Chaincode.QueryAssets ctx q pageSize bookmark
        = (Some (mkIterator rest (S (closed it))), r) /\
        ((exists kvs, pending it = List.map Ok kvs /\ Forall decodes kvs /\ rest = [] /\
            r = Ok {| Chaincode.Records := List.map decode_kv kvs;
                      Chaincode.FetchedRecordsCount := GetFetchedRecordsCount md;
                      Chaincode.Bookmark := GetBookmark md |}) \/
         (exists pre e, pending it = List.map Ok pre ++ Err e :: rest /\
            Forall decodes pre /\
            r = Err (Errorf_w "failed to read asset from iterator" e)) \/
         (exists pre bad e, pending it = List.map Ok pre ++ Ok bad :: rest /\
            Forall decodes pre /\ snd (json.Unmarshal (Value bad) zeroAsset) = Some e /\
            r = Err (Errorf_w "failed to unmarshal asset" e)))
  end.
Proof.
  unfold Chaincode.QueryAssets, Chaincode.getQueryResultForQueryStringWithPagination,
    Chaincode.constructQueryResponseFromIterator.
  destruct (GetQueryResultWithPagination ctx q (int32 pageSize) bookmark) as [[it md]|e];
    [|reflexivity].
  destruct (drain_iterator_drained "failed to read asset from iterator"
              "failed to unmarshal asset" (pending it) [] (closed it))
    as (rest & r & -> & Hd).
  eexists _, _. split; [reflexivity|].
  inversion Hd as [kvs Hp Hall|pre e rest' Hp Hall|pre bad e rest' Hp Hall Hbad]; subst.
  - left. exists kvs. auto.
  - right. left. exists pre, e. auto.
  - right. right. exists pre, bad, e. auto.
Qed.

(** X17.  Every outcome of [ReadAssets].  The scan is always that of
    the whole key range, at the page size and bookmark received.  When
    the ledger refuses it, the result is its error, wrapped, and there
    is no iterator to close.  Otherwise the iterator has been closed
    exactly once when the call returns, and the result is either a
    cursor -- every item read and decoded, in order, with the ledger's
    bookmark -- or the wrapped error of the first item that the
    iterator failed on or that did not decode. *)
Theorem ReadAssets_outcomes {L : Type} {stub : ChaincodeStub L}
    (ctx : L) (pageSize : Z) (bookmark : string) :
  match GetStateByRangeWithPagination ctx "" "" pageSize bookmark with
  | Err e =>
      ChaincodeRange.ReadAssets ctx pageSize bookmark
      = (None, Err (Errorf_w "failed to read assets from world state" e))
  | Ok (it, md) =>
      exists rest r,
        ChaincodeRange.ReadAssets ctx pageSize bookmark
        = (Some (mkIterator rest (S (closed it))), r) /\
        ((exists kvs, pending it = List.map Ok kvs /\ Forall decodes kvs /\ rest = [] /\
            r = Ok {| ChaincodeRange.Assets := List.map decode_kv kvs;
                      ChaincodeRange.Bookmark := GetBookmark md |}) \/
         (exists pre e, pending it = List.map Ok pre ++ Err e :: rest /\
            Forall decodes pre /\
            r = Err (Errorf_w "failed to read asset from iterator" e)) \/
         (exists pre bad e, pending it = List.map Ok pre ++ Ok bad :: rest /\
            Forall decodes pre /\ snd (json.Unmarshal (Value bad) zeroAsset) = Some e /\
            r = Err (Errorf_w "failed to unmarshal asset" e)))
  end.
Proof.
  unfold ChaincodeRange.ReadAssets.
  destruct (GetStateByRangeWithPagination ctx "" "" pageSize bookmark) as [[it md]|e];
    [|reflexivity].
  destruct (drain_iterator_drained "failed to read asset from iterator"
              "failed to unmarshal asset" (pending it) [] (closed it))
    as (rest & r & -> & Hd).
  eexists _, _. split; [reflexivity|].
  inversion Hd as [kvs Hp Hall|pre e rest' Hp Hall|pre bad e rest' Hp Hall Hbad]; subst.
  - left. exists kvs. auto.
  - right. left. exists pre, e. auto.
  - right. right. exists pre, bad, e. auto.
Qed.

Lemma int32_wraps (x k : Z) : int32 (x + k * 2 ^ 32) = int32 x.
Proof.
  unfold int32. replace (x + k * 2 ^ 32 + 2 ^ 31) with (x + 2 ^ 31 + k * 2 ^ 32) by lia.
  rewrite Z.mod_add by lia. reflexivity.
Qed.

(** X18.  [QueryAssets] cannot tell two page sizes apart that differ
    by a multiple of 2^32: the call is the same call, in both
    contracts.  A page size of 2^32 + 2 is a page size of 2. *)
Theorem QueryAssets_page_size_wraps {L : Type} {stub : ChaincodeStub L}
    (ctx : L) (q : string) (pageSize k : Z) (bookmark : string) :
  Main.QueryAssets ctx q (pageSize + k * 2 ^ 32) bookmark
  = Main.QueryAssets ctx q pageSize bookmark /\
  Chaincode.QueryAssets ctx q (pageSize + k * 2 ^ 32) bookmark
  = Chaincode.QueryAssets ctx q pageSize bookmark.
Proof.
  unfold Main.QueryAssets, Chaincode.QueryAssets. rewrite int32_wraps. split; reflexivity.
Qed.

(** * What is stored and what is read back *)

Lemma ValidString_rune p r size X :
  p <> EmptyString ->
  utf8.DecodeRune p = (r, size) ->
  ~ (r = utf8.RuneError /\ size = 1%nat) ->
  utf8.ValidString X = true ->
  utf8.ValidString (str_take size p +:+ X) = true.
Proof.
  intros Hne Hd Hv HX.
  destruct (decode_valid _ _ _ Hne Hd Hv) as (_ & Hlen & Hsz & Hloc & _).
  unfold utf8.ValidString. rewrite str_length_app, Hlen.
  destruct size as [|size]; [lia|]. cbn [Nat.add utf8.valid_from].
  destruct (str_take (S size) p +:+ X) as [|c t] eqn:Hs.
  { apply (f_equal String.length) in Hs. rewrite str_length_app, Hlen in Hs.
    cbn in Hs. lia. }
  rewrite <- Hs, Hloc.
  destruct ((r =? utf8.RuneError) && (S size =? 1)%nat) eqn:Hbad.
  { exfalso. apply Hv. apply andb_true_iff in Hbad as [H1 H2].
    apply Z.eqb_eq in H1. apply Nat.eqb_eq in H2. auto. }
  rewrite <- Hlen at 1. rewrite str_drop_app.
  rewrite <- (valid_from_fuel (String.length X)) by lia. exact HX.
Qed.

Lemma coerce_loop_ValidString n : forall s,
  (String.length s <= n)%nat -> utf8.ValidString (coerce_loop n s) = true.
Proof.
  induction n as [|n IH]; intros s Hlen; [reflexivity|].
  destruct s as [|c rest]; [reflexivity|].
  cbn [String.length] in Hlen. cbn [coerce_loop].
  destruct (utf8.DecodeRune (String c rest)) as [r size] eqn:Hd.
  assert (Hne : String c rest <> EmptyString) by discriminate.
  destruct ((r =? utf8.RuneError) && (size =? 1)%nat) eqn:Hbad.
  - change (utf8.EncodeRune utf8.RuneError) with (str_take 3 replacement).
    apply (ValidString_rune replacement utf8.RuneError 3);
      [discriminate|vm_compute; reflexivity|intros [_ H]; discriminate|].
    apply IH. cbn [str_drop]. destruct rest; cbn [String.length] in *; lia.
  - assert (Hv : ~ (r = utf8.RuneError /\ size = 1%nat)).
    { intros [-> ->]. rewrite Z.eqb_refl in Hbad. discriminate. }
    apply (ValidString_rune _ r size); [exact Hne|exact Hd|exact Hv|].
    apply IH. destruct (decode_valid _ _ _ Hne Hd Hv) as (_ & _ & Hsz & _ & _).
    apply str_drop_shorter; lia.
Qed.

Lemma coerce_utf8_ValidString s : utf8.ValidString (coerce_utf8 s) = true.
Proof. apply coerce_loop_ValidString. lia. Qed.

Lemma coerce_asset_is_valid a : valid_asset (coerce_asset a) = true.
Proof.
  unfold valid_asset, coerce_asset. cbn [CID Features ID Type_].
  rewrite !coerce_utf8_ValidString. reflexivity.
Qed.

(** X19.  Whatever bytes the four strings hold, a record that
    [CreateAsset] wrote is read back without a decoding error, in both
    contracts.  The asset read has every byte that starts no
    well-formed rune replaced by U+FFFD and is otherwise the one
    written: its strings are well-formed UTF-8, a string that was
    well-formed comes back as it was, and writing and reading the asset
    read gives the same asset again. *)
Theorem read_after_create_decodes {L : Type} {stub : ChaincodeStub L}
    {lawful : LawfulStub L} :
  (forall (s s' : L) (cid id ty features : string),
     Main.CreateAsset s cid id ty features = (s', None) ->
     Main.GetAsset s' cid = Ok (coerce_asset (mkAsset cid features id ty))) /\
  (forall (s s' : L) (id cid ty features : string),
     Chaincode.CreateAsset s id cid ty features = (s', None) ->
     Chaincode.ReadAsset s' id = Ok (coerce_asset (mkAsset cid features id ty))) /\
  (forall a, valid_asset (coerce_asset a) = true) /\
  (forall a, valid_asset a = true -> coerce_asset a = a) /\
  (forall a, json.Unmarshal (json.encodeAsset (coerce_asset a)) zeroAsset
             = (coerce_asset a, None)).
Proof.
  split; [|split; [|split; [|split]]].
  - intros s s' cid id ty features H.
    apply Main_CreateAsset_inv in H as (_ & _ & Hput).
    pose proof (get_put_same _ _ _ _ Hput (encodeAsset_nonempty _)) as Hget.
    unfold Main.GetAsset. rewrite Hget, Unmarshal_encodeAsset. reflexivity.
  - intros s s' id cid ty features H.
    apply Chaincode_CreateAsset_inv in H as (_ & Hput).
    pose proof (get_put_same _ _ _ _ Hput (encodeAsset_nonempty _)) as Hget.
    apply ReadAsset_stored, Hget.
  - apply coerce_asset_is_valid.
  - apply coerce_asset_valid.
  - intros a. rewrite Unmarshal_encodeAsset.
    rewrite (coerce_asset_valid _ (coerce_asset_is_valid a)). reflexivity.
Qed.

Lemma read_after_create_of_ill_formed_bytes :
  Main.GetAsset
    (mem_of [("CID_0", json.encodeAsset (mkAsset "CID_0" "[]" ill_formed "PE"))]) "CID_0"
  = Ok (mkAsset "CID_0" "[]" replacement "PE") /\
  Chaincode.ReadAsset
    (mem_of [("ASSET_0", json.encodeAsset (mkAsset ill_formed "[]" "ASSET_0" ill_formed))])
    "ASSET_0"
  = Ok (mkAsset replacement "[]" "ASSET_0" replacement).
Proof.
  destruct (@read_after_create_decodes MemStub MemStub_stub MemStub_lawful)
    as (Hm & Hc & _). split.
  - apply (Hm ledger0 _ "CID_0" ill_formed "PE" "[]"). vm_compute. reflexivity.
  - apply (Hc ledger0 _ "ASSET_0" ill_formed ill_formed "[]"). vm_compute. reflexivity.
Defined.

(** X20.  Two assets with well-formed strings that differ in any field
    are stored as different bytes: what [CreateAsset] writes determines
    the asset. *)
Theorem stored_bytes_determine_the_asset (a b : Asset) :
  valid_asset a = true ->
  valid_asset b = true ->
  a <> b ->
  json.Marshal a <> json.Marshal b.
Proof.
  intros Ha Hb Hne Heq. apply Hne. unfold json.Marshal in Heq.
  assert (Heq' : json.encodeAsset a = json.encodeAsset b) by congruence.
  pose proof (Unmarshal_encodeAsset a zeroAsset) as H1.
  rewrite Heq', Unmarshal_encodeAsset in H1. apply (f_equal fst) in H1. cbn [fst] in H1.
  rewrite !coerce_asset_valid in H1 by assumption. congruence.
Qed.

Lemma stored_bytes_of_two_assets :
  json.Marshal (mkAsset "CID_0" "[]" "ASSET_0" "PDF")
  <> json.Marshal (mkAsset "CID_0" "[]" "ASSET_0" "PE").
Proof.
  apply (stored_bytes_determine_the_asset (mkAsset "CID_0" "[]" "ASSET_0" "PDF")
           (mkAsset "CID_0" "[]" "ASSET_0" "PE"));
    [reflexivity|reflexivity|discriminate].
Defined.

(** * An invariant of the ledger *)

Lemma put_asset_decodable {L : Type} {stub : ChaincodeStub L} {lawful : LawfulStub L}
    (s s' : L) (key : string) (a : Asset) :
  all_decodable s ->
  PutState s key (json.encodeAsset a) = (s', None) ->
  all_decodable s'.
Proof.
  intros Hs Hput k v Hget. destruct (String.eqb_spec k key) as [->|Hne].
  - rewrite (get_put_same _ _ _ _ Hput (encodeAsset_nonempty _)) in Hget.
    injection Hget as <-. rewrite Unmarshal_encodeAsset. reflexivity.
  - rewrite (get_put_other _ _ _ _ _ Hput Hne) in Hget. exact (Hs _ _ Hget).
Qed.

(** X21.  The contract only stores what it can read.  On a ledger where
    every value decodes as an asset, every value still decodes after a
    successful [CreateAsset] of either contract, after a successful
    [SeedLedger] and after a successful [DeleteSeededAssets]; and on
    such a ledger a point read never fails with a decoding error: it
    returns an asset, or [ErrNotFound], or the wrapped error of the
    ledger. *)
Theorem ledger_stays_decodable {L : Type} {stub : ChaincodeStub L}
    {del : ChaincodeStubDel L} {lawful : LawfulStub L} {lawful_del : LawfulDel L}
    (s : L) :
  all_decodable s ->
  (forall s' cid id ty features,
     Main.CreateAsset s cid id ty features = (s', None) -> all_decodable s') /\
  (forall s' id cid ty features,
     Chaincode.CreateAsset s id cid ty features = (s', None) -> all_decodable s') /\
  (forall s', Seeding.SeedLedger s = Some (s', None) -> all_decodable s') /\
  (forall s', Seeding.DeleteSeededAssets s = (s', None) -> all_decodable s') /\
  (forall key,
     (exists a, Main.GetAsset s key = Ok a /\ Chaincode.ReadAsset s key = Ok a) \/
     (Main.GetAsset s key = Err ErrNotFound /\ Chaincode.ReadAsset s key = Err ErrNotFound) \/
     (exists e, Main.GetAsset s key = Err (Errorf_w "read from ledger state" e) /\
        Chaincode.ReadAsset s key = Err (Errorf_w "failed to read from world state" e))).
Proof.
  intros Hs. split; [|split; [|split; [|split]]].
  - intros s' cid id ty features H.
    apply Main_CreateAsset_inv in H as (_ & _ & Hput).
    exact (put_asset_decodable _ _ _ _ Hs Hput).
  - intros s' id cid ty features H.
    apply Chaincode_CreateAsset_inv in H as (_ & Hput).
    exact (put_asset_decodable _ _ _ _ Hs Hput).
  - intros s' Hrun.
    destruct (SeedLedger_loop_inv 100 0 s s') as (_ & Hin & Hout); [lia|lia|exact Hrun|].
    intros k v Hget. destruct (seeded_key_dec k) as [(i & Hi & ->)|Hk].
    + rewrite Hin in Hget by lia. injection Hget as <-.
      rewrite Unmarshal_encodeAsset. reflexivity.
    + rewrite Hout in Hget by (intros j Hj; apply Hk; lia). exact (Hs _ _ Hget).
  - intros s' Hrun.
    destruct (DeleteSeededAssets_loop_inv 100 0 s s') as (Hin & Hout); [lia|lia|exact Hrun|].
    intros k v Hget. destruct (seeded_key_dec k) as [(i & Hi & ->)|Hk].
    + rewrite Hin in Hget by lia. discriminate.
    + rewrite Hout in Hget by (intros j Hj; apply Hk; lia). exact (Hs _ _ Hget).
  - intros key. unfold Main.GetAsset, Chaincode.ReadAsset.
    destruct (GetState s key) as [[v|]|e] eqn:Hget.
    + left. specialize (Hs _ _ Hget).
      destruct (json.Unmarshal v zeroAsset) as [a o]. cbn in Hs. subst o. eauto.
    + right. left. auto.
    + right. right. eauto.
Qed.

Lemma ledgerA_all_decodable : all_decodable ledgerA.
Proof.
  intros k v H. cbn in H. injection H as H.
  destruct (String.eqb_spec k "CID_0") as [->|Hne].
  - vm_compute in H. injection H as <-. vm_compute. reflexivity.
  - unfold ledgerA, mem_of in H. cbn [list_to_map foldr world] in H.
    rewrite lookup_insert_ne in H by congruence. rewrite lookup_empty in H. discriminate.
Qed.

Lemma ledger_stays_decodable_in_memory :
  all_decodable (mem_of [("CID_1", json.encodeAsset (asset_n "1"));
                         ("CID_0", json.encodeAsset assetA)]) /\
  (exists a, Main.GetAsset ledgerA "CID_0" = Ok a /\ Chaincode.ReadAsset ledgerA "CID_0" = Ok a).
Proof.
  destruct (@ledger_stays_decodable MemStub MemStub_stub MemStub_del MemStub_lawful
              MemStub_lawful_del ledgerA ledgerA_all_decodable)
    as (Hm & _ & _ & _ & Hread).
  split.
  - apply (Hm _ "CID_1" "ASSET_1" "PE" "[]"). vm_compute. reflexivity.
  - destruct (Hread "CID_0") as [H|[[H _]|(e & H & _)]]; [exact H| |];
      vm_compute in H; discriminate.
Defined.
